(** * iOS-vcam package engine: a shallow embedding and its verified properties

    The development follows the Python sources of the repository:
    - [ios/deb_packer.py], [ios/change_maintainer.py], [ios/validate_deb.py],
      [ios/ios_debrand_end_to_end.py] and [ios/ios_deb_ip_changer_final.py];
    - [scripts/usb_tethering_monitor.py], for its net mask.

    Python [bytes] values are lists of [Byte.byte]; Python [str] values are
    lists of [ascii] characters read as code points below 256 (a code point
    of 128 or more is not ASCII and makes [encode('ascii')] raise, exactly as
    any larger code point would).  Exceptions are values of [exn] carried by
    the [result] monad. *)

From Stdlib Require Import List Arith ZArith NArith Lia Bool Ascii.
From Stdlib Require Import String.
From Stdlib Require Import Strings.Byte Numbers.DecimalString Numbers.DecimalNat.
From Stdlib Require Decimal.
Import ListNotations.

Local Open Scope list_scope.
Abbreviation length := Datatypes.length (only parsing).
Local Open Scope nat_scope.

(** ** Python values *)

Definition bytes := list byte.
Definition str := list ascii.

(** A string literal as a Python [str]. *)
Definition s (x : String.string) : str := String.list_ascii_of_string x.
Arguments s x%_string.

Definition NL : ascii := ascii_of_nat 10.

Inductive exn : Type :=
| ValueError
| RuntimeError
| UnicodeEncodeError
| UnicodeDecodeError
| LZMAError
| ReadError.

Inductive result (A : Type) : Type :=
| Ok (a : A)
| Raise (e : exn).
Arguments Ok {A} a.
Arguments Raise {A} e.

Definition bind {A B} (m : result A) (k : A -> result B) : result B :=
  match m with
  | Ok a => k a
  | Raise e => Raise e
  end.

Notation "x <- m ;; k" := (bind m (fun x => k))
  (at level 61, m at next level, right associativity).

Notation "' p <- m ;; k" := (bind m (fun x => let 'p := x in k))
  (at level 61, p pattern, m at next level, right associativity).

Definition ascii_eq_dec : forall a b : ascii, {a = b} + {a <> b} := Ascii.ascii_dec.

Definition str_eqb (a b : str) : bool :=
  if list_eq_dec ascii_eq_dec a b then true else false.

Definition bytes_eqb (a b : bytes) : bool :=
  if list_eq_dec Byte.byte_eq_dec a b then true else false.

(** *** [str] methods *)

(** [str.ljust(width)]: pad with spaces on the right up to [width]. *)
Definition ljust (x : str) (width : nat) : str :=
  x ++ repeat " "%char (width - length x).

(** [str.isspace] on one character, for code points below 256. *)
Definition is_space (c : ascii) : bool :=
  let n := nat_of_ascii c in
  ((9 <=? n) && (n <=? 13)) || ((28 <=? n) && (n <=? 32))
  || (n =? 133) || (n =? 160).

Fixpoint lstrip (x : str) : str :=
  match x with
  | c :: x' => if is_space c then lstrip x' else x
  | [] => []
  end.

(** Removal of the trailing characters that satisfy [p]. *)
Fixpoint rstrip_by (p : ascii -> bool) (x : str) : str :=
  match x with
  | [] => []
  | c :: x' =>
      match rstrip_by p x' with
      | [] => if p c then [] else [c]
      | r => c :: r
      end
  end.

Definition rstrip (x : str) : str := rstrip_by is_space x.

(** [str.strip()] *)
Definition strip (x : str) : str := rstrip (lstrip x).

(** [str.rstrip('/')] *)
Definition rstrip_slash (x : str) : str :=
  rstrip_by (fun c => if ascii_eq_dec c "/"%char then true else false) x.

Fixpoint startswith {A} (eqd : forall a b : A, {a = b} + {a <> b})
  (x p : list A) : bool :=
  match p, x with
  | [], _ => true
  | _ :: _, [] => false
  | a :: p', b :: x' => if eqd a b then startswith eqd x' p' else false
  end.

Definition str_startswith (x p : str) : bool := startswith ascii_eq_dec x p.
Definition bytes_startswith (x p : bytes) : bool := startswith Byte.byte_eq_dec x p.

Definition str_endswith (x p : str) : bool :=
  str_startswith (rev x) (rev p).

(** [sub in x] for sequences: some suffix of [x] starts with [sub]. *)
Fixpoint contains {A} (eqd : forall a b : A, {a = b} + {a <> b})
  (sub x : list A) : bool :=
  startswith eqd x sub
  || match x with
     | [] => false
     | _ :: x' => contains eqd sub x'
     end.

(** *** [encode('ascii')] and [decode('ascii')] *)

Definition is_ascii_char (c : ascii) : bool := nat_of_ascii c <? 128.
Definition is_ascii_byte (b : byte) : bool := Byte.to_nat b <? 128.

Definition encode_ascii (x : str) : result bytes :=
  if forallb is_ascii_char x then Ok (map byte_of_ascii x)
  else Raise UnicodeEncodeError.

Definition decode_ascii (b : bytes) : result str :=
  if forallb is_ascii_byte b then Ok (map ascii_of_byte b)
  else Raise UnicodeDecodeError.

(** [decode('ascii', 'ignore')] drops the bytes that are not ASCII. *)
Definition decode_ascii_ignore (b : bytes) : str :=
  map ascii_of_byte (filter is_ascii_byte b).

(** *** [str(n)] and [int(text)] *)

Fixpoint chars_of_uint (d : Decimal.uint) : str :=
  match d with
  | Decimal.Nil => []
  | Decimal.D0 d => "0"%char :: chars_of_uint d
  | Decimal.D1 d => "1"%char :: chars_of_uint d
  | Decimal.D2 d => "2"%char :: chars_of_uint d
  | Decimal.D3 d => "3"%char :: chars_of_uint d
  | Decimal.D4 d => "4"%char :: chars_of_uint d
  | Decimal.D5 d => "5"%char :: chars_of_uint d
  | Decimal.D6 d => "6"%char :: chars_of_uint d
  | Decimal.D7 d => "7"%char :: chars_of_uint d
  | Decimal.D8 d => "8"%char :: chars_of_uint d
  | Decimal.D9 d => "9"%char :: chars_of_uint d
  end.

(** [str(n)] for a non-negative integer: its decimal digits. *)
Definition str_of_nat (n : nat) : str := chars_of_uint (Nat.to_uint n).

Definition is_digit (c : ascii) : bool :=
  let n := nat_of_ascii c in (48 <=? n) && (n <=? 57).

Definition digit_val (c : ascii) : Z := Z.of_nat (nat_of_ascii c - 48).

(** The digits of an integer literal: decimal digits with single
    underscores allowed between two digits. *)
Fixpoint int_digits (after_digit : bool) (acc : Z) (x : str) : option Z :=
  match x with
  | [] => if after_digit then Some acc else None
  | c :: x' =>
      if is_digit c then int_digits true (10 * acc + digit_val c)%Z x'
      else if (if ascii_eq_dec c "_"%char then after_digit else false)
           then int_digits false acc x'
           else None
  end.

(** [int(text)] in base ten: surrounding whitespace, an optional sign, then
    the digits; anything else raises [ValueError]. *)
Definition py_int (x : str) : result Z :=
  let body := strip x in
  let '(neg, ds) :=
    match body with
    | c :: r =>
        if ascii_eq_dec c "-"%char then (true, r)
        else if ascii_eq_dec c "+"%char then (false, r)
        else (false, body)
    | [] => (false, body)
    end in
  match int_digits false 0%Z ds with
  | Some v => Ok (if neg then (- v)%Z else v)
  | None => Raise ValueError
  end.

(** [x or "0"] on strings. *)
Definition or_zero (x : str) : str :=
  match x with
  | [] => s "0"
  | _ => x
  end.

(** *** [bytes] methods *)

Definition b (x : String.string) : bytes := String.list_byte_of_string x.
Arguments b x%_string.

(** [old in data] *)
Definition bytes_contains (sub data : bytes) : bool :=
  contains Byte.byte_eq_dec sub data.

Definition str_contains (sub x : str) : bool := contains ascii_eq_dec sub x.

(** Replacement of a non-empty [old], scanning left to right; [skip] counts
    the bytes of the current occurrence that are still to be passed over. *)
Fixpoint replace_go (old new : bytes) (skip : nat) (data : bytes) : bytes :=
  match data with
  | [] => []
  | c :: data' =>
      match skip with
      | S k => replace_go old new k data'
      | 0 =>
          if bytes_startswith data old
          then new ++ replace_go old new (length old - 1) data'
          else c :: replace_go old new 0 data'
      end
  end.

(** [data.replace(old, new)]: every non-overlapping occurrence, leftmost
    first; an empty [old] matches before every byte and at the end. *)
Definition bytes_replace (old new data : bytes) : bytes :=
  match old with
  | [] => new ++ flat_map (fun c => c :: new) data
  | _ => replace_go old new 0 data
  end.

Fixpoint count_go (sub : bytes) (skip : nat) (data : bytes) : nat :=
  match data with
  | [] => 0
  | _ :: data' =>
      match skip with
      | S k => count_go sub k data'
      | 0 =>
          if bytes_startswith data sub
          then S (count_go sub (length sub - 1) data')
          else count_go sub 0 data'
      end
  end.

(** [data.count(sub)]: the number of non-overlapping occurrences. *)
Definition bytes_count (sub data : bytes) : nat :=
  match sub with
  | [] => S (length data)
  | _ => count_go sub 0 data
  end.

(** *** Lines of text *)

Definition CR : ascii := ascii_of_nat 13.

(** The line boundaries of [str.splitlines] among code points below 256. *)
Definition is_linebreak (c : ascii) : bool :=
  let n := nat_of_ascii c in
  ((10 <=? n) && (n <=? 13)) || ((28 <=? n) && (n <=? 30)) || (n =? 133).

(** [cur] is the line being read; [after_cr] tells that the previous
    character was a carriage return, so that a line feed belongs to it. *)
Fixpoint splitlines_go (after_cr : bool) (cur : str) (x : str) : list str :=
  match x with
  | [] => match cur with [] => [] | _ => [cur] end
  | c :: x' =>
      if after_cr && (if ascii_eq_dec c NL then true else false)
      then splitlines_go false cur x'
      else if is_linebreak c
           then cur :: splitlines_go (if ascii_eq_dec c CR then true else false) [] x'
           else splitlines_go false (cur ++ [c]) x'
  end.

(** [str.splitlines()] *)
Definition splitlines (x : str) : list str := splitlines_go false [] x.

(** [sep.join(xs)] *)
Fixpoint join (sep : str) (xs : list str) : str :=
  match xs with
  | [] => []
  | [x] => x
  | x :: xs' => x ++ sep ++ join sep xs'
  end.

(** [str.lower()] on one code point below 256. *)
Definition lower_char (c : ascii) : ascii :=
  let n := nat_of_ascii c in
  if ((65 <=? n) && (n <=? 90))
     || ((192 <=? n) && (n <=? 222) && negb (n =? 215))
  then ascii_of_nat (n + 32) else c.

Definition lower (x : str) : str := map lower_char x.

(** [list.insert(i, x)]: past the end it appends. *)
Definition list_insert {A} (i : nat) (x : A) (l : list A) : list A :=
  firstn i l ++ x :: skipn i l.

(** ** Files being read

    A file object open for reading in binary mode is the list of bytes not
    yet consumed; [f.read(n)] hands out at most [n] of them, all of them
    when [n] is [-1], and raises [ValueError] for a count below [-1]. *)
Definition fread (n : Z) (f : bytes) : result (bytes * bytes) :=
  if (n <? -1)%Z then Raise ValueError
  else if (n <? 0)%Z then Ok (f, [])
  else Ok (firstn (Z.to_nat n) f, skipn (Z.to_nat n) f).

(** ** The container (ar) format *)

Definition AR_MAGIC : bytes := b "!<arch>" ++ [x0a].

Definition STAMP : bytes := b "2.0" ++ [x0a].

Definition Member : Type := (str * bytes)%type.
Definition Container : Type := list Member.

(** The body that follows a header: [size] bytes of content, and one byte of
    padding when [size] is odd. *)
Definition read_body (size : Z) (f : bytes) : result (bytes * bytes) :=
  '(data, f) <- fread size f ;;
  if (size mod 2 =? 1)%Z then '(_, f) <- fread 1 f ;; Ok (data, f)
  else Ok (data, f).

(** The [while True] loop shared by the readers: [step] consumes one member
    or reports the end of the file.  Every turn that goes on consumes a
    header, so [fuel] above the length of the file is never used up. *)
Fixpoint read_loop (step : bytes -> result (option (Member * bytes)))
  (fuel : nat) (f : bytes) (members : Container) : option (result Container) :=
  match fuel with
  | 0 => None
  | S fuel' =>
      match step f with
      | Raise e => Some (Raise e)
      | Ok None => Some (Ok members)
      | Ok (Some (m, f')) => read_loop step fuel' f' (members ++ [m])
      end
  end.

(** [next((d for n, d in members if p n), None)] *)
Fixpoint find_member (p : str -> bool) (members : Container) : option Member :=
  match members with
  | [] => None
  | (n, d) :: rest => if p n then Some (n, d) else find_member p rest
  end.

(** ** The compression library

    [lzma] is Python's binding of liblzma and is no part of the repository;
    its four entry points used by the scripts are taken as given. *)
Record Lzma : Type := {
  (** [lzma.compress(data, format=FORMAT_ALONE, preset=6)] *)
  compress_alone : bytes -> bytes;
  (** [lzma.decompress(data, format=FORMAT_ALONE)] *)
  decompress_alone : bytes -> result bytes;
  (** [lzma.decompress(data)], which detects the framing *)
  decompress_auto : bytes -> result bytes;
  (** [lzma.LZMADecompressor(format=FORMAT_ALONE).decompress(data)]: one
      call on a fresh decompressor, which hands out what it has decoded
      also when the stream is cut short *)
  decompressor_alone : bytes -> result bytes
}.

(** The first bytes of the modern (xz) framing. *)
Definition XZ_MAGIC : bytes := [xfd; x37; x7a; x58; x5a; x00].

(** The first bytes of the legacy framing at preset 6: the properties byte
    [0x5d] and the dictionary size [2^23], little-endian. *)
Definition ALONE_HEADER : bytes := [x5d; x00; x00; x80; x00].

(** What the scripts rely on from liblzma: the legacy encoder starts its
    output with the header above, and the legacy decoder rejects input that
    starts as the modern framing does (its first byte [0xfd] is no valid
    properties byte). *)
Definition lzma_framing (L : Lzma) : Prop :=
  (forall data, bytes_startswith (compress_alone L data) ALONE_HEADER = true) /\
  (forall data, bytes_startswith data XZ_MAGIC = true ->
                decompress_alone L data = Raise LZMAError).

(** The same rejection by the decompressor object, which runs the same
    legacy decoder. *)
Definition decompressor_framing (L : Lzma) : Prop :=
  forall data, bytes_startswith data XZ_MAGIC = true ->
               decompressor_alone L data = Raise LZMAError.

(** ** Directory trees and file archives

    A staged tree holds regular files and directories; a regular file may
    have several names (hard links), which shows in its [stat]: the names
    share the inode and the device, and the count of links is above one.
    Symbolic links and special files do not occur in the trees the scripts
    stage.  [stat] is what [os.stat] reports, with the owner names
    [tarfile] looks up for it; times are whole seconds.  The children of a
    directory come in the order in which the operating system lists
    them. *)
Record stat : Type := {
  st_mode : N;
  st_uid : N;
  st_gid : N;
  st_uname : str;
  st_gname : str;
  st_mtime : Z;
  st_ino : N;
  st_dev : N;
  st_nlink : N
}.

#[local] Set Warnings "-register-all".
Inductive node : Type :=
| File (name : str) (st : stat) (content : bytes)
| Dir (name : str) (st : stat) (children : list node).

Definition node_name (n : node) : str :=
  match n with
  | File name _ _ => name
  | Dir name _ _ => name
  end.

Definition is_dir (n : node) : bool :=
  match n with
  | Dir _ _ _ => true
  | File _ _ _ => false
  end.

Definition is_file (n : node) : bool := negb (is_dir n).

Inductive tartype : Type := REGTYPE | DIRTYPE | LNKTYPE.

(** A [tarfile.TarInfo] together with the data added under it; an archive
    is the list of its entries in the order they were added, which
    [tarfile] serialises field by field.  A link entry names the entry it
    links to and carries no data. *)
Record TarInfo : Type := {
  ti_name : str;
  ti_type : tartype;
  ti_mode : N;
  ti_uid : N;
  ti_gid : N;
  ti_uname : str;
  ti_gname : str;
  ti_mtime : Z;
  ti_linkname : str;
  ti_data : bytes
}.

Definition Archive : Type := list TarInfo.

(** [TarFile.inodes]: for the inodes of the regular files archived so
    far, the name each was archived under; a later entry of the dictionary
    for an inode stands in front of an earlier one. *)
Definition Inodes : Type := list (N * N * str).

Fixpoint inodes_get (ino dev : N) (inodes : Inodes) : option str :=
  match inodes with
  | [] => None
  | (i, d, name) :: rest =>
      if ((i =? ino) && (d =? dev))%N then Some name
      else inodes_get ino dev rest
  end.

(** The octal modes [0o755] and [0o644]. *)
Definition MODE_755 : N := 493.
Definition MODE_644 : N := 420.

(** [tarfile.TarInfo(name)]: the defaults of a fresh header. *)
Definition TarInfo_new (name : str) : TarInfo :=
  {| ti_name := name; ti_type := REGTYPE; ti_mode := MODE_644;
     ti_uid := 0; ti_gid := 0; ti_uname := []; ti_gname := [];
     ti_mtime := 0; ti_linkname := []; ti_data := [] |}.

(** The header of a node that is archived as what it is: a regular file
    with its content, or a directory. *)
Definition plain_info (n : node) (arcname : str) : TarInfo :=
  match n with
  | File _ st content =>
      {| ti_name := arcname; ti_type := REGTYPE; ti_mode := st_mode st;
         ti_uid := st_uid st; ti_gid := st_gid st;
         ti_uname := st_uname st; ti_gname := st_gname st;
         ti_mtime := st_mtime st; ti_linkname := []; ti_data := content |}
  | Dir _ st _ =>
      {| ti_name := arcname; ti_type := DIRTYPE; ti_mode := st_mode st;
         ti_uid := st_uid st; ti_gid := st_gid st;
         ti_uname := st_uname st; ti_gname := st_gname st;
         ti_mtime := st_mtime st; ti_linkname := []; ti_data := [] |}
  end.

(** The header of a regular file that is archived as a link to the entry
    [linkname]: its size is zero, so no data follow it. *)
Definition link_info (st : stat) (arcname linkname : str) : TarInfo :=
  {| ti_name := arcname; ti_type := LNKTYPE; ti_mode := st_mode st;
     ti_uid := st_uid st; ti_gid := st_gid st;
     ti_uname := st_uname st; ti_gname := st_gname st;
     ti_mtime := st_mtime st; ti_linkname := linkname; ti_data := [] |}.

(** [tar.gettarinfo(path, arcname)] for the node found at [path], on an
    archive that has met [inodes]: the header fields are those of its
    [stat]; a regular file with more than one link whose inode was
    archived under another name becomes a link to that name; any other
    regular file is noted under its inode, unless that is zero. *)
Definition gettarinfo (inodes : Inodes) (n : node) (arcname : str)
  : TarInfo * Inodes :=
  match n with
  | File _ st _ =>
      let noted :=
        if (st_ino st =? 0)%N then inodes
        else (st_ino st, st_dev st, arcname) :: inodes in
      if (1 <? st_nlink st)%N then
        match inodes_get (st_ino st) (st_dev st) inodes with
        | Some first =>
            if negb (str_eqb arcname first)
            then (link_info st arcname first, inodes)
            else (plain_info n arcname, noted)
        | None => (plain_info n arcname, noted)
        end
      else (plain_info n arcname, noted)
  | Dir _ _ _ => (plain_info n arcname, inodes)
  end.

(** A loop whose body adds one entry to the archive being written. *)
Fixpoint add_each {A} (add : Inodes -> A -> TarInfo * Inodes)
  (inodes : Inodes) (l : list A) : Archive * Inodes :=
  match l with
  | [] => ([], inodes)
  | x :: l' =>
      let '(ti, inodes) := add inodes x in
      let '(rest, inodes) := add_each add inodes l' in
      (ti :: rest, inodes)
  end.

(** A loop whose body adds several entries. *)
Fixpoint add_all {A} (body : Inodes -> A -> Archive * Inodes)
  (inodes : Inodes) (l : list A) : Archive * Inodes :=
  match l with
  | [] => ([], inodes)
  | x :: l' =>
      let '(entries, inodes) := body inodes x in
      let '(rest, inodes) := add_all body inodes l' in
      (entries ++ rest, inodes)
  end.

(** A path below the root of the tree, as its components. *)
Definition path : Type := list str.

(** The path as text, with [/] between the components. *)
Definition path_str (p : path) : str := join (s "/") p.

(** [.replace('\\', '/')] *)
Definition slashes (x : str) : str :=
  map (fun c => if ascii_eq_dec c "\"%char then "/"%char else c) x.

(** [os.walk] below the directory [n] found under [top]: the directory
    itself with what it holds, then the walks of its sub-directories. *)
Fixpoint walk_dir (top : path) (n : node) : list (path * str * list node) :=
  match n with
  | File _ _ _ => []
  | Dir name _ children =>
      (top ++ [name], name, children)
      :: flat_map (walk_dir (top ++ [name])) children
  end.

(** [os.walk(src_dir)], top-down: each turn gives the directory (its path
    below [src_dir] and its own name) and its children, of which the loop
    bodies take the directories as [dirs] and the rest as [files]. *)
Definition os_walk (root_name : str) (tree : list node)
  : list (path * str * list node) :=
  ([], root_name, tree) :: flat_map (walk_dir []) tree.

(** [dir.rglob("*")]: for every directory, the root first and parents
    before their sub-directories, all that the directory holds. *)
Fixpoint rglob_dir (top : path) (n : node) : list (path * node) :=
  match n with
  | File _ _ _ => []
  | Dir name _ children =>
      map (fun c => (top ++ [name; node_name c], c)) children
      ++ flat_map (rglob_dir (top ++ [name])) children
  end.

Definition rglob (tree : list node) : list (path * node) :=
  map (fun c => ([node_name c], c)) tree ++ flat_map (rglob_dir []) tree.

(** An archive written through [tarfile.open(path, "w:gz")] or through
    [gzip.GzipFile]: the gzip header carries a time stamp of its own. *)
Record GzArchive : Type := {
  gz_mtime : Z;
  gz_entries : Archive
}.

(** ** [ios/deb_packer.py] *)
Module DebPacker.

(** [tar.add(p, arcname=p.relative_to(dir), ..., filter=_strip_pax)]: the
    header is the one [gettarinfo] makes from the file system. *)
Definition tar_add (inodes : Inodes) (e : path * node) : TarInfo * Inodes :=
  gettarinfo inodes (snd e) (path_str (fst e)).

(** The two loops of [build_control_tar] and [build_data_tar] on one
    archive: the directories of [rglob("*")] first, then its files. *)
Definition build_entries (dir : list node) : Archive :=
  let '(dirs, inodes) :=
    add_each tar_add [] (filter (fun e => is_dir (snd e)) (rglob dir)) in
  let '(files, _) :=
    add_each tar_add inodes (filter (fun e => is_file (snd e)) (rglob dir)) in
  dirs ++ files.

(** [build_control_tar]; the archive is opened with ["w:gz"], which stamps
    the gzip header with the time of the call, [now]. *)
Definition build_control_tar (now : Z) (control_dir : list node) : GzArchive :=
  {| gz_mtime := now; gz_entries := build_entries control_dir |}.

(** [build_data_tar] *)
Definition build_data_tar (data_dir : list node) : Archive :=
  build_entries data_dir.

(** [compress_lzma_alone], on the bytes of the raw archive. *)
Definition compress_lzma_alone (L : Lzma) (data : bytes) : bytes :=
  compress_alone L data.

(** [_add_ar_member]; [ar] is what the file holds so far and the result
    is what it holds afterwards. *)
Definition _add_ar_member (ar : bytes) (name : str) (content : bytes)
  : result bytes :=
  if 16 <? length name then Raise ValueError
  else
    header <- encode_ascii
                (ljust name 16 ++ ljust (s "0") 12 ++ ljust (s "0") 6
                 ++ ljust (s "0") 6 ++ ljust (s "100644") 8
                 ++ ljust (str_of_nat (length content)) 10
                 ++ ["`"%char; NL]) ;;
    if negb (length header =? 60) then Raise RuntimeError
    else
      Ok (ar ++ header ++ content
             ++ (if length content mod 2 =? 1 then [x0a] else [])).

(** [write_deb]: the three members in their fixed order. *)
Definition write_deb (control_tgz data_lzma : bytes) : result bytes :=
  ar <- Ok AR_MAGIC ;;
  ar <- _add_ar_member ar (s "debian-binary") STAMP ;;
  ar <- _add_ar_member ar (s "control.tar.gz") control_tgz ;;
  _add_ar_member ar (s "data.tar.lzma") data_lzma.

End DebPacker.

(** ** [ios/change_maintainer.py] *)
Module ChangeMaintainer.

(** The state of the loop of [modify_maintainer]. *)
Record scan : Type := {
  modified : list str;
  maintainer_found : bool;
  author_found : bool
}.

(** A value that Python takes as true: neither [None] nor empty. *)
Definition truthy (x : option str) : bool :=
  match x with
  | Some (_ :: _) => true
  | _ => false
  end.

Definition author_text (new_author : option str) : str :=
  match new_author with
  | Some a => a
  | None => []
  end.

(** The body of the loop over the lines. *)
Definition scan_line (new_maintainer : str) (new_author : option str)
  (remove_repo : bool) (st : scan) (line : str) : scan :=
  if str_startswith line (s "Maintainer:") then
    {| modified := modified st ++ [s "Maintainer: " ++ new_maintainer];
       maintainer_found := true;
       author_found := author_found st |}
  else if str_startswith line (s "Author:") && truthy new_author then
    {| modified := modified st ++ [s "Author: " ++ author_text new_author];
       maintainer_found := maintainer_found st;
       author_found := true |}
  else if str_startswith line (s "Homepage:") && remove_repo then st
  else if str_startswith line (s "Depiction:") && remove_repo then st
  else if str_contains (s "bkatm") (lower line) && remove_repo then st
  else
    {| modified := modified st ++ [line];
       maintainer_found := maintainer_found st;
       author_found := author_found st |}.

(** [modify_maintainer]: from the text of the control file to the text
    written back to it. *)
Definition modify_maintainer (text : str) (new_maintainer : str)
  (new_author : option str) (remove_repo : bool) : str :=
  let lines := splitlines text in
  let st :=
    fold_left (scan_line new_maintainer new_author remove_repo) lines
      {| modified := []; maintainer_found := false; author_found := false |} in
  let modified1 :=
    if negb (maintainer_found st)
    then list_insert 0 (s "Maintainer: " ++ new_maintainer) (modified st)
    else modified st in
  let modified2 :=
    if truthy new_author && negb (author_found st)
    then list_insert (if maintainer_found st then 1 else 0)
           (s "Author: " ++ author_text new_author) modified1
    else modified1 in
  join [NL] modified2 ++ [NL].

(** [tar.add(p, arcname=p.relative_to(dir))] *)
Definition tar_add (inodes : Inodes) (e : path * node) : TarInfo * Inodes :=
  gettarinfo inodes (snd e) (path_str (fst e)).

(** The loop of [build_control_tar] and of [build_data_tar]: the files of
    [rglob("*")]. *)
Definition build_entries (dir : list node) : Archive :=
  fst (add_each tar_add [] (filter (fun e => is_file (snd e)) (rglob dir))).

(** [build_control_tar] *)
Definition build_control_tar (now : Z) (control_dir : list node) : GzArchive :=
  {| gz_mtime := now; gz_entries := build_entries control_dir |}.

(** [build_data_tar] *)
Definition build_data_tar (data_dir : list node) : Archive :=
  build_entries data_dir.

(** The decompression of the payload in [extract_deb]. *)
Definition decompress_data (L : Lzma) (data_bytes : bytes) : result bytes :=
  decompress_alone L data_bytes.

End ChangeMaintainer.

(** ** [ios/validate_deb.py] *)
Module ValidateDeb.

(** One turn of the loop of [read_members]. *)
Definition read_member (f : bytes) : result (option (Member * bytes)) :=
  '(hdr, f) <- fread 60 f ;;
  match hdr with
  | [] => Ok None
  | _ =>
      if length hdr <? 60 then Raise ValueError
      else
        name <- decode_ascii (firstn 16 hdr) ;;
        size_txt <- decode_ascii (firstn 10 (skipn 48 hdr)) ;;
        size <- py_int (or_zero (strip size_txt)) ;;
        '(data, f) <- read_body size f ;;
        Ok (Some ((strip name, data), f))
  end.

(** [read_members] on the bytes of the file. *)
Definition read_members (file : bytes) : option (result Container) :=
  match fread 8 file with
  | Raise e => Some (Raise e)
  | Ok (magic, f) =>
      if negb (bytes_eqb magic AR_MAGIC) then Some (Raise ValueError)
      else read_loop read_member (S (length f)) f []
  end.

(** What [main] prints before it returns. *)
Inductive verdict : Type :=
| FAIL_not_first
| FAIL_missing_control
| FAIL_missing_data
| FAIL_wrong_stamp
| FAIL_xz_container
| FAIL_control_file_missing
| FAIL_control_unreadable
| PASS.

Definition exit_code (v : verdict) : Z :=
  match v with
  | PASS => 0
  | _ => 1
  end.

Definition member_data (p : str -> bool) (members : Container) : bytes :=
  match find_member p members with
  | Some (_, d) => d
  | None => []
  end.

(** The checks of [main] on the members read; [getnames] lists the names
    in a gzip-compressed archive, as [tarfile] does. *)
Definition check (getnames : bytes -> result (list str)) (members : Container)
  : verdict :=
  let order := map fst members in
  if negb (if list_eq_dec (list_eq_dec ascii_eq_dec)
                (firstn 1 order) [s "debian-binary"] then true else false)
  then FAIL_not_first
  else if negb (existsb (str_eqb (s "control.tar.gz")) order)
  then FAIL_missing_control
  else
    match find_member (fun n => str_startswith n (s "data.tar")) members with
    | None => FAIL_missing_data
    | Some (data_name, _) =>
        let debbin := member_data (str_eqb (s "debian-binary")) members in
        if negb (bytes_eqb debbin STAMP) then FAIL_wrong_stamp
        else
          let data_bytes := member_data (str_eqb data_name) members in
          let sig := firstn 6 data_bytes in
          if negb (bytes_startswith sig [x5d; x00; x00])
             && (bytes_startswith sig [xfd; x37; x7a; x58; x5a]
                 || bytes_eqb (firstn 2 sig) [xfd; x37])
          then FAIL_xz_container
          else
            let ctrl := member_data (str_eqb (s "control.tar.gz")) members in
            match getnames ctrl with
            | Raise _ => FAIL_control_unreadable
            | Ok names =>
                if existsb (str_eqb (s "control")) names then PASS
                else FAIL_control_file_missing
            end
    end.

(** [main] on the bytes of the file. *)
Definition main (getnames : bytes -> result (list str)) (file : bytes)
  : option (result verdict) :=
  match read_members file with
  | None => None
  | Some (Raise e) => Some (Raise e)
  | Some (Ok members) => Some (Ok (check getnames members))
  end.

End ValidateDeb.

(** ** [ios/ios_debrand_end_to_end.py] *)
Module Debrand.

(** [BRAND_PATTERNS], in the order of the dictionary. *)
Definition BRAND_PATTERNS : list (bytes * bytes) :=
  [ (b "www.bkatm.com",         b "localhost    ");
    (b "https://www.bkatm.com", b "http://localhost     ");
    (b "Login (www.bkatm.com)", b "Login                 ") ].

(** The body of the loop of [patch_branding] for one pair. *)
Definition patch_pair (st : bytes * nat) (p : bytes * bytes)
  : result (bytes * nat) :=
  let '(data, replaced) := st in
  let '(old, new) := p in
  if bytes_contains old data then
    let occurrences := bytes_count old data in
    if negb (length old =? length new) then Raise RuntimeError
    else Ok (bytes_replace old new data, replaced + occurrences)
  else Ok (data, replaced).

Fixpoint patch_pairs (patterns : list (bytes * bytes)) (st : bytes * nat)
  : result (bytes * nat) :=
  match patterns with
  | [] => Ok st
  | p :: rest => st' <- patch_pair st p ;; patch_pairs rest st'
  end.

(** [patch_branding] over a table of patterns: what it returns or raises,
    and the content of the file afterwards. *)
Definition patch_branding_with (patterns : list (bytes * bytes)) (file : bytes)
  : result nat * bytes :=
  match patch_pairs patterns (file, 0) with
  | Raise e => (Raise e, file)
  | Ok (data, replaced) =>
      if negb (replaced =? 0) then (Ok replaced, data) else (Ok replaced, file)
  end.

Definition patch_branding (file : bytes) : result nat * bytes :=
  patch_branding_with BRAND_PATTERNS file.

(** The decompression of the payload in [extract_deb]: the legacy framing
    first, whatever [lzma] detects after that. *)
Definition decompress_data (L : Lzma) (data_bytes : bytes) : result bytes :=
  match decompressor_alone L data_bytes with
  | Raise LZMAError => decompress_auto L data_bytes
  | r => r
  end.

End Debrand.

(** ** [ios/ios_deb_ip_changer_final.py] *)
Module IpChanger.

(** An entry of the patch list: offset, old bytes, new bytes. *)
Definition Patch : Type := (N * bytes * bytes)%type.

(** The patch list of [apply_latency_patches]. *)
Definition patches : list Patch :=
  [ (0x3D67C, [x08; x07; x80; x52], [x28; x00; x80; x52]);
    (0x3D690, [x08; x0f; x80; x52], [x28; x00; x80; x52]);
    (0x4885C, [x08; x07; x80; x52], [x28; x00; x80; x52]);
    (0x48870, [x08; x0f; x80; x52], [x28; x00; x80; x52]);
    (0x4FA44, [x08; x07; x80; x52], [x28; x00; x80; x52]);
    (0x4FA58, [x08; x0f; x80; x52], [x28; x00; x80; x52]);
    (0x179D50, [x08; x07; x80; x52], [x28; x00; x80; x52]);
    (0x179D64, [x08; x0f; x80; x52], [x28; x00; x80; x52]);
    (0x185044, [x08; x07; x80; x52], [x28; x00; x80; x52]);
    (0x185058, [x08; x0f; x80; x52], [x28; x00; x80; x52]);
    (0x18C258, [x08; x07; x80; x52], [x28; x00; x80; x52]);
    (0x18C26C, [x08; x0f; x80; x52], [x28; x00; x80; x52]);
    (0x49054, [x08; x7d; x80; x52], [x28; x00; x80; x52]);
    (0x49064, [x02; x7d; x80; xd2], [x22; x00; x80; xd2]);
    (0x50400, [x08; x7d; x80; x52], [x28; x00; x80; x52]);
    (0x50410, [x02; x7d; x80; xd2], [x22; x00; x80; xd2]);
    (0x524DC, [x08; x7d; x80; x52], [x28; x00; x80; x52]);
    (0x524EC, [x02; x7d; x80; xd2], [x22; x00; x80; xd2]);
    (0x60618, [x03; xfa; x80; x52], [x23; x00; x80; x52]);
    (0x1A366C, [x0a; x7d; x80; x52], [x2a; x00; x80; x52]);
    (0x1BD80C, [x08; x7d; x80; x52], [x28; x00; x80; x52]) ]%N.

(** The body of the loop of [apply_latency_patches] for one entry: the
    data afterwards, and whether the entry was applied. *)
Definition apply_patch (data : bytes) (p : Patch) : bytes * bool :=
  let '(offset, old, new) := p in
  if (N.of_nat (length data) <? offset + N.of_nat (length old))%N
  then (data, false)
  else
    let offset := N.to_nat offset in
    let actual := firstn (length old) (skipn offset data) in
    if bytes_eqb actual old
    then (firstn offset data ++ new ++ skipn (offset + length old) data, true)
    else (data, false).

Fixpoint apply_patches (ps : list Patch) (data : bytes) (applied_count : nat)
  : bytes * nat :=
  match ps with
  | [] => (data, applied_count)
  | p :: rest =>
      let '(data', applied) := apply_patch data p in
      apply_patches rest data' (if applied then S applied_count else applied_count)
  end.

(** [apply_latency_patches] over a patch list: what it returns, and the
    content of the file afterwards. *)
Definition apply_latency_patches_with (ps : list Patch) (file : bytes)
  : bool * bytes :=
  let '(data, applied_count) := apply_patches ps file 0 in
  if 0 <? applied_count then (true, data) else (false, file).

Definition apply_latency_patches (file : bytes) : bool * bytes :=
  apply_latency_patches_with patches file.

(** One turn of the loop of [_read_ar_members]. *)
Definition read_member (f : bytes) : result (option (Member * bytes)) :=
  '(hdr, f) <- fread 60 f ;;
  match hdr with
  | [] => Ok None
  | _ =>
      if length hdr <? 60 then Raise RuntimeError
      else
        let name := rstrip_slash (strip (decode_ascii_ignore (firstn 16 hdr))) in
        let size_txt :=
          or_zero (strip (decode_ascii_ignore (firstn 10 (skipn 48 hdr)))) in
        size <- py_int size_txt ;;
        '(data, f) <- read_body size f ;;
        Ok (Some ((name, data), f))
  end.

(** [_read_ar_members] on the bytes of the file. *)
Definition _read_ar_members (file : bytes) : option (result Container) :=
  match fread 8 file with
  | Raise e => Some (Raise e)
  | Ok (magic, f) =>
      if negb (bytes_eqb magic AR_MAGIC) then Some (Raise RuntimeError)
      else read_loop read_member (S (length f)) f []
  end.

Record ParsedDeb : Type := {
  debian_binary : bytes;
  control_tar_gz : bytes;
  data_member_name : str;
  data_payload_bytes : bytes;
  data_tar_raw : bytes
}.

(** The decompression of the payload in [_parse_deb]. *)
Definition decompress_data (L : Lzma) (data_name : str) (data_bytes : bytes)
  : result bytes :=
  if str_endswith data_name (s ".lzma") then
    match decompress_alone L data_bytes with
    | Raise LZMAError => decompress_auto L data_bytes
    | r => r
    end
  else if str_eqb data_name (s "data.tar") then Ok data_bytes
  else Raise RuntimeError.

Definition nonempty {A} (x : option (list A)) : bool :=
  match x with
  | Some (_ :: _) => true
  | _ => false
  end.

(** [_parse_deb] on the bytes of the file. *)
Definition _parse_deb (L : Lzma) (file : bytes) : option (result ParsedDeb) :=
  match _read_ar_members file with
  | None => None
  | Some (Raise e) => Some (Raise e)
  | Some (Ok members) =>
      let debbin :=
        option_map snd (find_member (str_eqb (s "debian-binary")) members) in
      let control :=
        option_map snd (find_member (str_eqb (s "control.tar.gz")) members) in
      let data :=
        find_member (fun n => str_startswith n (s "data.tar")) members in
      Some
        (if negb (nonempty debbin) || negb (nonempty control)
            || negb (nonempty (option_map snd data))
            || negb (nonempty (option_map fst data))
         then Raise RuntimeError
         else
           match debbin, control, data with
           | Some debbin, Some control, Some (data_name, data_bytes) =>
               raw_tar <- decompress_data L data_name data_bytes ;;
               Ok {| debian_binary := debbin; control_tar_gz := control;
                     data_member_name := data_name;
                     data_payload_bytes := data_bytes;
                     data_tar_raw := raw_tar |}
           | _, _, _ => Raise RuntimeError
           end)
  end.

(** The first definition of [_build_data_tar_from_dir] in the class; the
    second definition below, of the same name, replaces it.  In every turn
    of the walk the sub-directories, then the files of the directory. *)
Definition first_add_dir (root : path) (d : node) : TarInfo :=
  let arc := slashes (path_str (root ++ [node_name d])) in
  let ti := TarInfo_new arc in
  {| ti_name := ti_name ti; ti_type := DIRTYPE;
     ti_mode := MODE_755; ti_uid := ti_uid ti; ti_gid := ti_gid ti;
     ti_uname := ti_uname ti; ti_gname := ti_gname ti;
     ti_mtime := 0; ti_linkname := ti_linkname ti; ti_data := ti_data ti |}.

Definition first_add_file (root : path) (inodes : Inodes) (f : node)
  : TarInfo * Inodes :=
  let arc := slashes (path_str (root ++ [node_name f])) in
  let '(ti, inodes) := gettarinfo inodes f arc in
  ({| ti_name := ti_name ti; ti_type := ti_type ti;
      ti_mode := ti_mode ti; ti_uid := ti_uid ti;
      ti_gid := ti_gid ti; ti_uname := ti_uname ti;
      ti_gname := ti_gname ti;
      ti_mtime := 0; ti_linkname := ti_linkname ti; ti_data := ti_data ti |},
   inodes).

Definition _build_data_tar_from_dir_first (root_name : str) (src_dir : list node)
  : Archive :=
  fst (add_all
         (fun inodes '(root, _, children) =>
            let '(files, inodes) :=
              add_each (first_add_file root) inodes (filter is_file children) in
            (map (first_add_dir root) (filter is_dir children) ++ files, inodes))
         [] (os_walk root_name src_dir)).

Definition mach_o_magics : list bytes :=
  [ [xfe; xed; xfa; xce]; [xce; xfa; xed; xfe];
    [xfe; xed; xfa; xcf]; [xcf; xfa; xed; xfe];
    [xca; xfe; xba; xbe]; [xbe; xba; xfe; xca] ].

(** The choice between mode 755 and mode 644 for a file called [name] in
    the directory called [parent_dir], archived as [arcname]. *)
Definition is_executable (parent_dir name arcname : str) (content : bytes)
  : bool :=
  let by_name :=
    if str_endswith name (s ".dylib") || str_endswith name (s ".app") then true
    else if str_contains (s "/bin/") arcname || str_contains (s "/sbin/") arcname
    then true
    else if str_contains (s ".app/") arcname
    then str_endswith parent_dir (s ".app")
         && str_eqb (firstn (length parent_dir - 4) parent_dir) name
    else false in
  let magic := firstn 4 content in
  if existsb (bytes_eqb magic) mach_o_magics then true else by_name.

Definition file_content (n : node) : bytes :=
  match n with
  | File _ _ content => content
  | Dir _ _ _ => []
  end.

(** The body of the loop over [files] in [_build_data_tar_from_dir]. *)
Definition data_add_file (root : path) (parent_dir : str) (inodes : Inodes)
  (f : node) : TarInfo * Inodes :=
  let name := node_name f in
  let arcname := slashes (path_str (root ++ [name])) in
  let '(tinfo, inodes) := gettarinfo inodes f arcname in
  ({| ti_name := ti_name tinfo; ti_type := ti_type tinfo;
      ti_mode :=
        if is_executable parent_dir name arcname (file_content f)
        then MODE_755 else MODE_644;
      ti_uid := 0; ti_gid := 0;
      ti_uname := s "root"; ti_gname := s "wheel";
      ti_mtime := ti_mtime tinfo; ti_linkname := ti_linkname tinfo;
      ti_data := ti_data tinfo |},
   inodes).

(** The body of the loop over [dirs]. *)
Definition data_add_dir (root : path) (d : node) : TarInfo :=
  let arcname := slashes (path_str (root ++ [node_name d])) in
  let tinfo := TarInfo_new arcname in
  {| ti_name := ti_name tinfo; ti_type := DIRTYPE;
     ti_mode := MODE_755; ti_uid := 0; ti_gid := 0;
     ti_uname := s "root"; ti_gname := s "wheel";
     ti_mtime := ti_mtime tinfo; ti_linkname := ti_linkname tinfo;
     ti_data := ti_data tinfo |}.

(** [_build_data_tar_from_dir], the definition in force: in every turn of
    the walk the files of the directory, then its sub-directories. *)
Definition _build_data_tar_from_dir (root_name : str) (data_dir : list node)
  : Archive :=
  fst (add_all
         (fun inodes '(root, parent_dir, children) =>
            let '(files, inodes) :=
              add_each (data_add_file root parent_dir) inodes
                (filter is_file children) in
            (files ++ map (data_add_dir root) (filter is_dir children), inodes))
         [] (os_walk root_name data_dir)).

(** The body of the loop over [files] in
    [_build_control_tar_gz_from_dir]. *)
Definition control_add_file (root : path) (inodes : Inodes) (f : node)
  : TarInfo * Inodes :=
  let name := node_name f in
  let arcname := slashes (path_str (root ++ [name])) in
  let '(tinfo, inodes) := gettarinfo inodes f arcname in
  ({| ti_name := ti_name tinfo; ti_type := ti_type tinfo;
      ti_mode :=
        if existsb (str_eqb name)
             [s "postinst"; s "prerm"; s "postrm"; s "preinst"; s "config"]
        then MODE_755 else MODE_644;
      ti_uid := 0; ti_gid := 0;
      ti_uname := s "root"; ti_gname := s "wheel";
      ti_mtime := ti_mtime tinfo; ti_linkname := ti_linkname tinfo;
      ti_data := ti_data tinfo |},
   inodes).

(** [_build_control_tar_gz_from_dir]: the files of the walk, gzipped with
    the time stamp zero. *)
Definition _build_control_tar_gz_from_dir (root_name : str)
  (control_dir : list node) : GzArchive :=
  {| gz_mtime := 0;
     gz_entries :=
       fst (add_all
              (fun inodes '(root, _, children) =>
                 add_each (control_add_file root) inodes
                   (filter is_file children))
              [] (os_walk root_name control_dir)) |}.

(** The local function [add] of [_assemble_deb]. *)
Definition add (out : bytes) (name : str) (content : bytes) : result bytes :=
  header <- encode_ascii
              (firstn 16 (ljust name 16) ++ ljust (s "0") 12 ++ ljust (s "0") 6
               ++ ljust (s "0") 6 ++ ljust (s "100644") 8
               ++ ljust (str_of_nat (length content)) 10
               ++ ["`"%char; NL]) ;;
  Ok (out ++ header ++ content
          ++ (if length content mod 2 =? 1 then [x0a] else [])).

(** [_assemble_deb]: the bytes written to the output file. *)
Definition _assemble_deb (L : Lzma) (debbin control_gz data_tar_bytes : bytes)
  (lzma_alone : bool) : result bytes :=
  let '(compressed_data, data_name) :=
    if lzma_alone then (compress_alone L data_tar_bytes, s "data.tar.lzma")
    else (data_tar_bytes, s "data.tar") in
  out <- Ok AR_MAGIC ;;
  out <- add out (s "debian-binary")
           (match debbin with [] => STAMP | _ => debbin end) ;;
  out <- add out (s "control.tar.gz") control_gz ;;
  add out data_name compressed_data.

(** [replace_ip_in_binary]: what it returns or raises, and the content of
    the file afterwards. *)
Definition replace_ip_in_binary (file : bytes) (old_ip new_ip : str)
  : result bool * bytes :=
  if negb (length old_ip =? length new_ip) then (Ok false, file)
  else
    let data := file in
    match encode_ascii old_ip, encode_ascii new_ip with
    | Raise e, _ => (Raise e, file)
    | Ok _, Raise e => (Raise e, file)
    | Ok old_bytes, Ok new_bytes =>
        let '(data, replacements) :=
          if bytes_contains old_bytes data
          then let data := bytes_replace old_bytes new_bytes data in
               (data, bytes_count new_bytes data)
          else (data, 0) in
        let old_null := old_bytes ++ [x00] in
        let new_null := new_bytes ++ [x00] in
        let '(data, replacements) :=
          if bytes_contains old_null data
          then (bytes_replace old_null new_null data, replacements + 1)
          else (data, replacements) in
        if 0 <? replacements then (Ok true, data) else (Ok false, file)
    end.

End IpChanger.

(** ** Writing and reading whole containers *)

(** Writing a container: the magic, then [_add_ar_member] for every member
    in order, as [write_deb] does for its three. *)
Fixpoint add_members (ar : bytes) (c : Container) : result bytes :=
  match c with
  | [] => Ok ar
  | (name, content) :: c' =>
      ar' <- DebPacker._add_ar_member ar name content ;;
      add_members ar' c'
  end.

Definition Write (c : Container) : result bytes := add_members AR_MAGIC c.

(** The padding byte that follows content of odd length. *)
Definition pad_of (content : bytes) : bytes :=
  if length content mod 2 =? 1 then [x0a] else [].

(** A member as a reader returns it when it normalises names with [norm]. *)
Definition norm_member (norm : str -> str) (m : Member) : Member :=
  (norm (fst m), snd m).

(** The size of [content] fits the ten characters of the size field. *)
Definition fits_size_field (content : bytes) : Prop :=
  length (str_of_nat (length content)) <= 10.

(** ** A stand-in for the compression library

    [StoredLzma] frames data the way liblzma does (the legacy header, with
    the size left unknown as the stream encoder leaves it, or the xz magic) but
    stores the payload as it is.  It shows that [lzma_framing] can be met
    and serves where a statement is evaluated on concrete bytes. *)
Definition STORED_ALONE_HEADER : bytes := ALONE_HEADER ++ repeat xff 8.

Definition stored_decompress_alone (data : bytes) : result bytes :=
  if bytes_startswith data STORED_ALONE_HEADER
  then Ok (skipn (length STORED_ALONE_HEADER) data)
  else Raise LZMAError.

Definition StoredLzma : Lzma :=
  {| compress_alone := fun data => STORED_ALONE_HEADER ++ data;
     decompress_alone := stored_decompress_alone;
     decompress_auto := fun data =>
       if bytes_startswith data XZ_MAGIC
       then Ok (skipn (length XZ_MAGIC) data)
       else stored_decompress_alone data;
     decompressor_alone := stored_decompress_alone |}.

(** ** Well-formed patch lists

    What the patch list of [apply_latency_patches] satisfies: every
    replacement is as long as the bytes it replaces and differs from them,
    and no two entries overlap. *)
Definition patch_ok (p : IpChanger.Patch) : bool :=
  let '(_, old, new) := p in
  (length old =? length new) && negb (bytes_eqb old new).

Definition patch_disjoint (p q : IpChanger.Patch) : bool :=
  let '(o1, old1, _) := p in
  let '(o2, old2, _) := q in
  ((o1 + N.of_nat (length old1) <=? o2)%N
   || (o2 + N.of_nat (length old2) <=? o1)%N).

Fixpoint patches_wf (ps : list IpChanger.Patch) : bool :=
  match ps with
  | [] => true
  | p :: rest =>
      patch_ok p && forallb (patch_disjoint p) rest && patches_wf rest
  end.

(** The patch finds nothing to do on [data]. *)
Definition stays (p : IpChanger.Patch) (data : bytes) : Prop :=
  snd (IpChanger.apply_patch data p) = false.

(** ** The spec's reading of [setField]

    For comparison with [modify_maintainer]: the spec words the edit as
    replacing the first line that starts with the field name and a colon,
    every other line being kept, and as inserting the field at the start of
    the text when no line starts so. *)
Fixpoint replace_first_line (prefix line' : str) (lines : list str) : list str :=
  match lines with
  | [] => []
  | l :: rest =>
      if str_startswith l prefix then line' :: rest
      else l :: replace_first_line prefix line' rest
  end.

Definition spec_setField (name value text : str) : str :=
  let lines := splitlines text in
  let prefix := name ++ s ":" in
  let line' := name ++ s ": " ++ value in
  join [NL]
    (if existsb (fun l => str_startswith l prefix) lines
     then replace_first_line prefix line' lines
     else line' :: lines)
  ++ [NL].

(** The test of [modify_maintainer] for a Maintainer line, and the line it
    writes in place of one. *)
Definition is_maintainer (l : str) : bool := str_startswith l (s "Maintainer:").

Definition maintainer_line (new_maintainer : str) : str :=
  s "Maintainer: " ++ new_maintainer.

(** ** Properties of archive entries *)

(** The owner fields of a header. *)
Definition owner (ti : TarInfo) : N * N * str * str :=
  (ti_uid ti, ti_gid ti, ti_uname ti, ti_gname ti).

Definition ROOT_WHEEL : N * N * str * str := (0%N, 0%N, s "root", s "wheel").
Definition ROOT_ROOT : N * N * str * str := (0%N, 0%N, s "root", s "root").

(** [p] is a proper prefix of [q]: [q] lies below the directory [p]. *)
Definition below (p q : str) : bool :=
  str_startswith q (p ++ s "/").

(** The entry for the directory at [p] comes in [a] before every entry
    below it: [a] splits at a directory entry named [p] with no entry below
    [p] in front of it. *)
Fixpoint dir_entry_first (p : str) (a : Archive) : bool :=
  match a with
  | [] => false
  | ti :: rest =>
      if str_eqb (ti_name ti) p
      then match ti_type ti with DIRTYPE => true | _ => false end
      else negb (below p (ti_name ti)) && dir_entry_first p rest
  end.

(** The directories of a tree, by their paths. *)
Fixpoint dirs_of (top : path) (n : node) : list path :=
  match n with
  | File _ _ _ => []
  | Dir name _ children =>
      (top ++ [name]) :: flat_map (dirs_of (top ++ [name])) children
  end.

Definition tree_dirs (tree : list node) : list str :=
  map path_str (flat_map (dirs_of []) tree).

(** Every directory of the tree has its entry, in front of all that lies
    below it. *)
Definition dirs_before_descendants (tree : list node) (a : Archive) : bool :=
  forallb (fun p => dir_entry_first p a) (tree_dirs tree).

(** Two trees with the same names, the same contents and the same shape;
    what [stat] reports may differ. *)
Fixpoint same_content (m n : node) : bool :=
  match m, n with
  | File name1 _ c1, File name2 _ c2 => str_eqb name1 name2 && bytes_eqb c1 c2
  | Dir name1 _ ch1, Dir name2 _ ch2 =>
      str_eqb name1 name2
      && (fix all2 (l1 l2 : list node) : bool :=
            match l1, l2 with
            | [], [] => true
            | a :: l1', c :: l2' => same_content a c && all2 l1' l2'
            | _, _ => false
            end) ch1 ch2
  | _, _ => false
  end.

(** A [stat] as a staging file system reports it, up to the time. *)
Definition stat_at (mtime : Z) : stat :=
  {| st_mode := 438; st_uid := 501; st_gid := 20;
     st_uname := s "user"; st_gname := s "staff"; st_mtime := mtime;
     st_ino := 0; st_dev := 0; st_nlink := 1 |}.

(** ** Trees as a file system holds them: no name has a slash in it. *)
Definition slash_free (name : str) : bool :=
  negb (existsb (fun c => if ascii_eq_dec c "/"%char then true else false) name).

Fixpoint names_ok (n : node) : bool :=
  slash_free (node_name n)
  && match n with
     | File _ _ _ => true
     | Dir _ _ children => forallb names_ok children
     end.

(** The paths of the directories in [rglob_dir top n], in its order. *)
Fixpoint rglob_dirs (top : path) (n : node) : list path :=
  match n with
  | File _ _ _ => []
  | Dir name _ children =>
      map (fun c => top ++ [name; node_name c]) (filter is_dir children)
      ++ flat_map (rglob_dirs (top ++ [name])) children
  end.

(** Every path in [l] that lies below [top] by two components or more has
    each of its ancestors below [top] among the paths met before it
    ([seen], then the paths of [l] in front of it). *)
Definition covered (top : path) (seen : list path) (q : path) : Prop :=
  forall p' r, p' <> [] -> r <> [] -> q = top ++ p' ++ r -> In (top ++ p') seen.

Fixpoint ancestors_first (top : path) (seen l : list path) : Prop :=
  match l with
  | [] => True
  | q :: l' => covered top seen q /\ ancestors_first top (q :: seen) l'
  end.

(** Scanning the names of an archive for [p]: the name [p] is met before
    any name below [p]. *)
Fixpoint first_hit (p : str) (names : list str) : bool :=
  match names with
  | [] => false
  | n :: rest =>
      if str_eqb n p then true else negb (below p n) && first_hit p rest
  end.

(** ** Further definitions: members a container can hold *)

(** What [_add_ar_member] asks of a member: a name of at most sixteen
    characters, all ASCII, and a size that fits its field. *)
Definition member_ok (m : Member) : Prop :=
  length (fst m) <= 16 /\
  forallb is_ascii_char (fst m) = true /\
  fits_size_field (snd m).

(** The bytes a member takes in the file: header, content, padding. *)
Definition member_size (content : bytes) : nat :=
  60 + length content + length content mod 2.

(** ** [change_maintainer.extract_ar_member] *)

(** The loop of [extract_ar_member]: headers are read until a member of the
    name asked for is found, whose content is returned; the end of the file
    and a short header raise [ValueError]. *)
Fixpoint extract_loop (member_name : str) (fuel : nat) (f : bytes)
  : option (result bytes) :=
  match fuel with
  | 0 => None
  | S fuel' =>
      match fread 60 f with
      | Raise e => Some (Raise e)
      | Ok (header, f) =>
          match header with
          | [] => Some (Raise ValueError)
          | _ =>
              if negb (length header =? 60) then Some (Raise ValueError)
              else
                match
                  (name <- decode_ascii (firstn 16 header) ;;
                   size_txt <- decode_ascii (firstn 10 (skipn 48 header)) ;;
                   size <- py_int (strip size_txt) ;;
                   '(content, f) <- read_body size f ;;
                   Ok (strip name, content, f))
                with
                | Raise e => Some (Raise e)
                | Ok (name, content, f) =>
                    if str_eqb name member_name then Some (Ok content)
                    else extract_loop member_name fuel' f
                end
          end
      end
  end.

(** [extract_ar_member] on the bytes of the file. *)
Definition extract_ar_member (file : bytes) (member_name : str)
  : option (result bytes) :=
  match fread 8 file with
  | Raise e => Some (Raise e)
  | Ok (magic, f) =>
      if negb (bytes_eqb magic AR_MAGIC) then Some (Raise ValueError)
      else extract_loop member_name (S (length f)) f
  end.

(** ** The archive library

    [tarfile] is Python's and no part of the repository; the three ways in
    which the extractors use it are taken as given: each reads an archive
    from its bytes and stages what the archive holds, or raises
    ([tarfile.ReadError] on bytes that are no archive of the kind asked
    for). *)
Record Tarfile : Type := {
  (** [tarfile.open(..., 'r:gz').extractall(dir)] *)
  untar_gz : bytes -> result (list node);
  (** [tarfile.open(..., 'r:').extractall(dir)]: no compression *)
  untar : bytes -> result (list node);
  (** [tarfile.open(..., 'r').extractall(dir)]: any compression *)
  untar_any : bytes -> result (list node)
}.

(** A stand-in for [tarfile] where a statement is evaluated on concrete
    bytes: like [tarfile] it raises [ReadError] on bytes that do not start
    as a gzip stream does, and on no bytes at all; it stages nothing. *)
Definition GZIP_MAGIC : bytes := [x1f; x8b].

Definition StubTarfile : Tarfile :=
  {| untar_gz := fun data =>
       if bytes_startswith data GZIP_MAGIC then Ok [] else Raise ReadError;
     untar := fun data =>
       match data with
       | [] => Raise ReadError
       | _ => Ok []
       end;
     untar_any := fun data =>
       match data with
       | [] => Raise ReadError
       | _ => Ok []
       end |}.

(** ** Positions a patch list can touch *)

(** The position [i] lies outside the range of the patch. *)
Definition outside (i : nat) (p : IpChanger.Patch) : Prop :=
  let '(off, old, _) := p in
  i < N.to_nat off \/ N.to_nat off + length old <= i.

(** ** The lines [modify_maintainer] writes *)

Definition is_author (l : str) : bool := str_startswith l (s "Author:").

Definition author_line (new_author : option str) : str :=
  s "Author: " ++ ChangeMaintainer.author_text new_author.

(** A line that the removal of repository references drops. *)
Definition repo_line (l : str) : bool :=
  str_startswith l (s "Homepage:") || str_startswith l (s "Depiction:")
  || str_contains (s "bkatm") (lower l).

(** What the loop of [modify_maintainer] appends for one line. *)
Definition line_result (new_maintainer : str) (new_author : option str)
  (remove_repo : bool) (l : str) : list str :=
  if is_maintainer l then [maintainer_line new_maintainer]
  else if is_author l && ChangeMaintainer.truthy new_author
  then [author_line new_author]
  else if repo_line l && remove_repo then []
  else [l].

(** The lines [modify_maintainer] joins, from the lines it read. *)
Definition process_lines (new_maintainer : str) (new_author : option str)
  (remove_repo : bool) (lines : list str) : list str :=
  let body := flat_map (line_result new_maintainer new_author remove_repo) lines in
  let found_m := existsb is_maintainer lines in
  let found_a :=
    existsb (fun l => negb (is_maintainer l) && is_author l) lines
    && ChangeMaintainer.truthy new_author in
  let modified1 :=
    if negb found_m then list_insert 0 (maintainer_line new_maintainer) body
    else body in
  if ChangeMaintainer.truthy new_author && negb found_a
  then list_insert (if found_m then 1 else 0) (author_line new_author) modified1
  else modified1.

Definition no_linebreak (l : str) : bool :=
  forallb (fun c => negb (is_linebreak c)) l.

(** ** The nodes of a tree *)

From Stdlib Require Import Sorting.Permutation.

(** What lies below the node [n] found under [top], each file and each
    directory once and with its path, a directory in front of what it
    holds. *)
Fixpoint below_nodes (top : path) (n : node) : list (path * node) :=
  match n with
  | File _ _ _ => []
  | Dir name _ children =>
      flat_map (fun c => (top ++ [name; node_name c], c)
                         :: below_nodes (top ++ [name]) c) children
  end.

(** The files and the directories of a tree. *)
Definition tree_nodes (tree : list node) : list (path * node) :=
  flat_map (fun c => ([node_name c], c) :: below_nodes [] c) tree.

(** The header of the node at a path when it is archived as what it is,
    with its [stat] and its content. *)
Definition node_entry (e : path * node) : TarInfo :=
  plain_info (snd e) (path_str (fst e)).


(** No regular file of the tree has a second name: the link count of
    every file is one (or none is reported). *)
Fixpoint single_links (n : node) : bool :=
  match n with
  | File _ st _ => (st_nlink st <=? 1)%N
  | Dir _ _ children => forallb single_links children
  end.

(** The [stat] of a regular file with two names, for the inode [ino]. *)
Definition stat_linked (ino : N) : stat :=
  {| st_mode := 438; st_uid := 501; st_gid := 20;
     st_uname := s "user"; st_gname := s "staff"; st_mtime := 0;
     st_ino := ino; st_dev := 1; st_nlink := 2 |}.

(** What an entry says of the node it stands for: name, type and data. *)
Definition entry_key (ti : TarInfo) : str * tartype * bytes :=
  (ti_name ti, ti_type ti, ti_data ti).


(** ** [ios_debrand_end_to_end.extract_deb] *)
Module DebrandExtract.

(** The local function [read_member]. *)
Definition read_member (f : bytes) : result (option (Member * bytes)) :=
  '(hdr, f) <- fread 60 f ;;
  match hdr with
  | [] => Ok None
  | _ =>
      if length hdr <? 60 then Raise RuntimeError
      else
        name <- decode_ascii (firstn 16 hdr) ;;
        size_txt <- decode_ascii (firstn 10 (skipn 48 hdr)) ;;
        size <- py_int (or_zero (strip size_txt)) ;;
        '(data, f) <- read_body size f ;;
        Ok (Some ((strip name, data), f))
  end.

(** The loop over the members: the last member of each kind is kept. *)
Definition select_member (st : option bytes * option bytes) (m : Member)
  : option bytes * option bytes :=
  let '(control_bytes, data_bytes) := st in
  let '(name, data) := m in
  let clean_name := rstrip_slash name in
  if str_eqb clean_name (s "control.tar.gz") then (Some data, data_bytes)
  else if str_startswith clean_name (s "data.tar") then (control_bytes, Some data)
  else (control_bytes, data_bytes).

(** [not x] for [x] that is [None] or a byte string. *)
Definition falsy (x : option bytes) : bool :=
  match x with
  | Some (_ :: _) => false
  | _ => true
  end.

Definition bytes_of (x : option bytes) : bytes :=
  match x with
  | Some d => d
  | None => []
  end.

(** What [extract_deb] does with the members read: the control archive
    is staged first, then the payload is decoded and staged. *)
Definition extract_members (L : Lzma) (T : Tarfile) (members : Container)
  : result (list node * list node) :=
  let '(control_bytes, data_bytes) :=
    fold_left select_member members (None, None) in
  if falsy control_bytes || falsy data_bytes then Raise RuntimeError
  else
    control_dir <- untar_gz T (bytes_of control_bytes) ;;
    data_tar <- Debrand.decompress_data L (bytes_of data_bytes) ;;
    data_dir <- untar T data_tar ;;
    Ok (control_dir, data_dir).

(** [extract_deb] on the bytes of the file: what it stages as the
    directories [control] and [data] of the work directory. *)
Definition extract_deb (L : Lzma) (T : Tarfile) (file : bytes)
  : option (result (list node * list node)) :=
  match fread 8 file with
  | Raise e => Some (Raise e)
  | Ok (magic, f) =>
      if negb (bytes_eqb magic AR_MAGIC) then Some (Raise RuntimeError)
      else
        match read_loop read_member (S (length f)) f [] with
        | None => None
        | Some (Raise e) => Some (Raise e)
        | Some (Ok members) => Some (extract_members L T members)
        end
  end.

End DebrandExtract.

(** ** [scripts/usb_tethering_monitor.py] *)

(** [str(z)], as an f-string formats an integer. *)
Definition str_of_int (z : Z) : str :=
  if (z <? 0)%Z then "-"%char :: str_of_nat (Z.to_nat (- z))
  else str_of_nat (Z.to_nat z).

Module UsbTethering.

(** [a >> n] and [a << n] on Python's integers: a negative count raises
    [ValueError]. *)
Definition py_shiftr (a n : Z) : result Z :=
  if (n <? 0)%Z then Raise ValueError else Ok (Z.shiftr a n).

Definition py_shiftl (a n : Z) : result Z :=
  if (n <? 0)%Z then Raise ValueError else Ok (Z.shiftl a n).

(** [_prefix_to_netmask] *)
Definition _prefix_to_netmask (prefix : Z) : result str :=
  low <- py_shiftr 0xffffffff (32 - prefix) ;;
  mask <- py_shiftl low (32 - prefix) ;;
  Ok (str_of_int (Z.land (Z.shiftr mask 24) 0xff) ++ s "."
      ++ str_of_int (Z.land (Z.shiftr mask 16) 0xff) ++ s "."
      ++ str_of_int (Z.land (Z.shiftr mask 8) 0xff) ++ s "."
      ++ str_of_int (Z.land mask 0xff)).

End UsbTethering.

(** The dotted quad of a 32-bit number: its four octets in decimal, the
    most significant first. *)
Definition dotted_quad (m : Z) : str :=
  str_of_int (m / 2 ^ 24 mod 256) ++ s "."
  ++ str_of_int (m / 2 ^ 16 mod 256) ++ s "."
  ++ str_of_int (m / 2 ^ 8 mod 256) ++ s "."
  ++ str_of_int (m mod 256).

(** ** [change_maintainer.extract_deb] *)
Module ChangeMaintainerExtract.

(** [extract_deb] on the bytes of the file: the member control.tar.gz is
    read and staged, then the member data.tar.lzma is read, decoded and
    staged; the result is what is staged as the directories [control] and
    [data]. *)
Definition extract_deb (L : Lzma) (T : Tarfile) (file : bytes)
  : option (result (list node * list node)) :=
  match extract_ar_member file (s "control.tar.gz") with
  | None => None
  | Some (Raise e) => Some (Raise e)
  | Some (Ok control_bytes) =>
      match untar_gz T control_bytes with
      | Raise e => Some (Raise e)
      | Ok control_dir =>
          match extract_ar_member file (s "data.tar.lzma") with
          | None => None
          | Some (Raise e) => Some (Raise e)
          | Some (Ok data_bytes) =>
              Some (decompressed <-
                      ChangeMaintainer.decompress_data L data_bytes ;;
                    data_dir <- untar_any T decompressed ;;
                    Ok (control_dir, data_dir))
          end
      end
  end.

End ChangeMaintainerExtract.

(** ** [ios_debrand_end_to_end.verify_no_branding] *)

(** [bytes.lower()]: the ASCII capitals alone are changed. *)
Definition lower_byte (c : byte) : byte :=
  let n := Byte.to_nat c in
  if (65 <=? n) && (n <=? 90)
  then match Byte.of_nat (n + 32) with Some c' => c' | None => c end
  else c.

Definition bytes_lower (data : bytes) : bytes := map lower_byte data.

Definition verify_no_branding (file : bytes) : bool :=
  negb (bytes_contains (b "bkatm") (bytes_lower file)).
(** ** Facts about the Python values *)

Lemma str_eqb_eq a b : str_eqb a b = true <-> a = b.
Proof.
  unfold str_eqb. destruct (list_eq_dec ascii_eq_dec a b); split; congruence.
Qed.

Lemma bytes_eqb_eq a b : bytes_eqb a b = true <-> a = b.
Proof.
  unfold bytes_eqb. destruct (list_eq_dec Byte.byte_eq_dec a b); split; congruence.
Qed.


Section ListFacts.
Context {A : Type}.

Lemma firstn_app_exact (l1 l2 : list A) n :
  length l1 = n -> firstn n (l1 ++ l2) = l1.
Proof.
  intros <-. rewrite firstn_app, firstn_all, Nat.sub_diag. simpl.
  apply app_nil_r.
Qed.

Lemma skipn_app_exact (l1 l2 : list A) n :
  length l1 = n -> skipn n (l1 ++ l2) = l2.
Proof.
  intros <-. rewrite skipn_app, skipn_all, Nat.sub_diag. reflexivity.
Qed.
End ListFacts.

Lemma is_ascii_byte_of_ascii c : is_ascii_byte (byte_of_ascii c) = is_ascii_char c.
Proof.
  destruct c as [[] [] [] [] [] [] [] []]; reflexivity.
Qed.

Lemma decode_encode x enc :
  encode_ascii x = Ok enc ->
  enc = map byte_of_ascii x /\ forallb is_ascii_char x = true.
Proof.
  unfold encode_ascii. destruct (forallb is_ascii_char x); intros H;
    inversion H; auto.
Qed.

Lemma forallb_ascii_bytes x :
  forallb is_ascii_byte (map byte_of_ascii x) = forallb is_ascii_char x.
Proof.
  induction x as [|c x IH]; simpl; [reflexivity|].
  now rewrite is_ascii_byte_of_ascii, IH.
Qed.

Lemma decode_ascii_map x :
  forallb is_ascii_char x = true -> decode_ascii (map byte_of_ascii x) = Ok x.
Proof.
  intros H. unfold decode_ascii. rewrite forallb_ascii_bytes, H.
  rewrite map_map. f_equal. rewrite <- (map_id x) at 2.
  apply map_ext. intros; apply ascii_of_byte_of_ascii.
Qed.

Lemma decode_ascii_ignore_map x :
  forallb is_ascii_char x = true -> decode_ascii_ignore (map byte_of_ascii x) = x.
Proof.
  intros H. unfold decode_ascii_ignore.
  induction x as [|c x IH]; simpl in *; [reflexivity|].
  apply andb_prop in H as [Hc Hx]. rewrite is_ascii_byte_of_ascii, Hc. simpl.
  now rewrite ascii_of_byte_of_ascii, IH.
Qed.

Lemma rstrip_by_repeat p c k : p c = true -> rstrip_by p (repeat c k) = [].
Proof.
  intros Hp. induction k as [|k IH]; simpl; [reflexivity|].
  now rewrite IH, Hp.
Qed.

Lemma rstrip_by_app_repeat p x c k :
  p c = true -> rstrip_by p (x ++ repeat c k) = rstrip_by p x.
Proof.
  intros Hp. induction x as [|a x IH]; simpl.
  - now apply rstrip_by_repeat.
  - now rewrite IH.
Qed.

Lemma lstrip_repeat_space k : lstrip (repeat " "%char k) = [].
Proof. induction k; simpl; auto. Qed.

Lemma strip_ljust x w : strip (ljust x w) = strip x.
Proof.
  unfold strip, ljust, rstrip. generalize (w - length x) as k. intros k.
  induction x as [|c x IH]; simpl.
  - now rewrite lstrip_repeat_space.
  - destruct (is_space c); [exact IH|].
    change (c :: x ++ repeat " "%char k) with ((c :: x) ++ repeat " "%char k).
    now apply rstrip_by_app_repeat.
Qed.

Lemma length_ljust x w : length (ljust x w) = Nat.max w (length x).
Proof. unfold ljust. rewrite length_app, repeat_length. lia. Qed.

Lemma forallb_ljust x w :
  forallb is_ascii_char (ljust x w) = forallb is_ascii_char x.
Proof.
  unfold ljust. rewrite forallb_app.
  assert (H : forallb is_ascii_char (repeat " "%char (w - length x)) = true).
  { induction (w - length x); simpl; auto. }
  rewrite H. apply andb_true_r.
Qed.

(** *** Decimal digits *)

Lemma chars_of_uint_digits d after acc :
  int_digits after (Z.of_nat acc) (chars_of_uint d) =
  match d with
  | Decimal.Nil => if after then Some (Z.of_nat acc) else None
  | _ => Some (Z.of_nat (Nat.of_uint_acc d acc))
  end.
Proof.
  revert after acc.
  induction d as [|d IH|d IH|d IH|d IH|d IH|d IH|d IH|d IH|d IH|d IH];
    intros after acc; [reflexivity|..];
    cbn [chars_of_uint int_digits Nat.of_uint_acc];
    match goal with
    | |- context [is_digit ?c] =>
        change (is_digit c) with true;
        let v := eval vm_compute in (digit_val c) in
        change (digit_val c) with v
    end;
    cbv iota;
    match goal with
    | |- int_digits true ?v _ = Some (Z.of_nat (Nat.of_uint_acc _ ?a)) =>
        replace v with (Z.of_nat a) by (rewrite ?Nat.tail_mul_spec; lia)
    end;
    rewrite IH; destruct d; reflexivity.
Qed.

Lemma to_uint_nonnil n : Nat.to_uint n <> Decimal.Nil.
Proof.
  rewrite <- (DecimalNat.Unsigned.of_to n) at 1.
  rewrite DecimalNat.Unsigned.to_of. apply DecimalFacts.unorm_nonnil.
Qed.

Lemma chars_of_uint_all_digits d : forallb is_digit (chars_of_uint d) = true.
Proof. induction d; simpl; auto. Qed.

Lemma chars_of_uint_nonnil d : d <> Decimal.Nil -> chars_of_uint d <> [].
Proof. destruct d; simpl; congruence. Qed.

Lemma digit_not_space c : is_digit c = true -> is_space c = false.
Proof.
  unfold is_digit, is_space. intros H.
  apply andb_prop in H as [H1 H2].
  apply Nat.leb_le in H1, H2.
  repeat match goal with
         | |- context [?a <=? ?b] => destruct (Nat.leb_spec a b); try lia
         | |- context [?a =? ?b] => destruct (Nat.eqb_spec a b); try lia
         end; reflexivity.
Qed.

Lemma digit_ascii c : is_digit c = true -> is_ascii_char c = true.
Proof.
  unfold is_digit, is_ascii_char. intros H.
  apply andb_prop in H as [H1 H2]. apply Nat.leb_le in H2.
  apply Nat.ltb_lt. lia.
Qed.

Lemma rstrip_by_none p x : forallb (fun c => negb (p c)) x = true -> rstrip_by p x = x.
Proof.
  induction x as [|c x IH]; simpl; [reflexivity|].
  intros H. apply andb_prop in H as [Hc Hx]. rewrite (IH Hx).
  destruct x; [|reflexivity].
  now destruct (p c).
Qed.

Lemma strip_digits x : forallb is_digit x = true -> strip x = x.
Proof.
  intros H. unfold strip, rstrip.
  assert (Hs : forallb (fun c => negb (is_space c)) x = true).
  { rewrite forallb_forall in *. intros c Hc.
    now rewrite (digit_not_space c (H c Hc)). }
  replace (lstrip x) with x.
  - now apply rstrip_by_none.
  - destruct x as [|c x]; [reflexivity|]. simpl in *.
    apply andb_prop in Hs as [Hc _]. now destruct (is_space c).
Qed.

Lemma digit_not_sign c :
  is_digit c = true -> c <> "-"%char /\ c <> "+"%char.
Proof. intros H; split; intros ->; discriminate H. Qed.

Lemma py_int_str_of_nat n : py_int (str_of_nat n) = Ok (Z.of_nat n).
Proof.
  unfold py_int, str_of_nat.
  pose proof (to_uint_nonnil n) as Hn.
  pose proof (chars_of_uint_all_digits (Nat.to_uint n)) as Hd.
  rewrite (strip_digits _ Hd).
  assert (Hv : int_digits false 0%Z (chars_of_uint (Nat.to_uint n))
               = Some (Z.of_nat n)).
  { change 0%Z with (Z.of_nat 0). rewrite chars_of_uint_digits.
    destruct (Nat.to_uint n) eqn:E; try congruence;
      rewrite <- E; change (Nat.of_uint_acc (Nat.to_uint n) 0)
        with (Nat.of_uint (Nat.to_uint n));
      now rewrite DecimalNat.Unsigned.of_to. }
  destruct (chars_of_uint (Nat.to_uint n)) as [|c r] eqn:E.
  - now rewrite Hv.
  - simpl in Hd. apply andb_prop in Hd as [Hc _].
    destruct (digit_not_sign c Hc) as [H1 H2].
    destruct (ascii_eq_dec c "-"%char); [contradiction|].
    destruct (ascii_eq_dec c "+"%char); [contradiction|].
    now rewrite Hv.
Qed.

Lemma strip_ljust_digits n w :
  or_zero (strip (ljust (str_of_nat n) w)) = str_of_nat n.
Proof.
  rewrite strip_ljust, strip_digits by apply chars_of_uint_all_digits.
  unfold str_of_nat.
  pose proof (chars_of_uint_nonnil _ (to_uint_nonnil n)).
  now destruct (chars_of_uint (Nat.to_uint n)).
Qed.

(** *** One member, written and read back *)

Lemma add_ar_member_inv ar name content out :
  DebPacker._add_ar_member ar name content = Ok out ->
  length name <= 16 /\ forallb is_ascii_char name = true /\
  exists hdr,
    length hdr = 60 /\
    out = ar ++ hdr ++ content ++ pad_of content /\
    firstn 16 hdr = map byte_of_ascii (ljust name 16) /\
    firstn 10 (skipn 48 hdr)
      = map byte_of_ascii (ljust (str_of_nat (length content)) 10).
Proof.
  unfold DebPacker._add_ar_member.
  destruct (Nat.ltb_spec 16 (length name)) as [|Hlen]; [discriminate|].
  set (fill := ljust (s "0") 12 ++ ljust (s "0") 6 ++ ljust (s "0") 6
               ++ ljust (s "100644") 8).
  set (sz := ljust (str_of_nat (length content)) 10).
  replace (ljust name 16 ++ ljust (s "0") 12 ++ ljust (s "0") 6
           ++ ljust (s "0") 6 ++ ljust (s "100644") 8 ++ sz ++ ["`"%char; NL])
    with (ljust name 16 ++ fill ++ sz ++ ["`"%char; NL])
    by (unfold fill; now rewrite <- !app_assoc).
  set (ht := ljust name 16 ++ fill ++ sz ++ ["`"%char; NL]).
  destruct (encode_ascii ht) as [hdr|] eqn:E; [|discriminate].
  apply decode_encode in E as [-> Hascii]. cbn [bind].
  destruct (Nat.eqb_spec (length (map byte_of_ascii ht)) 60) as [H60|];
    [|discriminate].
  cbn [negb]. intros H; inversion H; subst out; clear H.
  assert (Hn16 : length (ljust name 16) = 16)
    by (rewrite length_ljust; lia).
  assert (Hfill : length fill = 32) by reflexivity.
  split; [exact Hlen|]. split.
  { unfold ht in Hascii. rewrite forallb_app in Hascii.
    apply andb_prop in Hascii as [Hn _]. now rewrite forallb_ljust in Hn. }
  exists (map byte_of_ascii ht). split; [exact H60|]. split; [reflexivity|].
  assert (Hsz : length sz = 10).
  { unfold ht in H60. rewrite length_map, !length_app, Hn16, Hfill in H60.
    change (length ["`"%char; NL]) with 2 in H60. lia. }
  split.
  - rewrite firstn_map. f_equal. now apply firstn_app_exact.
  - rewrite skipn_map, firstn_map. f_equal. unfold ht.
    rewrite (app_assoc (ljust name 16) fill).
    rewrite skipn_app_exact by (rewrite length_app; lia).
    now apply firstn_app_exact.
Qed.

Lemma fread_nonneg n f :
  (0 <= n)%Z -> fread n f = Ok (firstn (Z.to_nat n) f, skipn (Z.to_nat n) f).
Proof.
  intros H. unfold fread.
  destruct (Z.ltb_spec n (-1)); [lia|]. destruct (Z.ltb_spec n 0); [lia|].
  reflexivity.
Qed.

Lemma fread_exact (l1 l2 : bytes) :
  fread (Z.of_nat (length l1)) (l1 ++ l2) = Ok (l1, l2).
Proof.
  rewrite fread_nonneg by lia.
  rewrite Nat2Z.id. now rewrite firstn_app_exact, skipn_app_exact.
Qed.

Lemma read_body_exact content rest :
  read_body (Z.of_nat (length content)) (content ++ pad_of content ++ rest)
  = Ok (content, rest).
Proof.
  unfold read_body. rewrite fread_exact. cbn [bind]. unfold pad_of.
  replace (Z.of_nat (length content) mod 2 =? 1)%Z
    with (length content mod 2 =? 1).
  - destruct (length content mod 2 =? 1); reflexivity.
  - change 2%Z with (Z.of_nat 2). rewrite <- Nat2Z.inj_mod.
    destruct (Nat.eqb_spec (length content mod 2) 1) as [->|Hne];
      [reflexivity|].
    symmetry. apply Z.eqb_neq. lia.
Qed.

Lemma fread_header (hdr rest : bytes) :
  length hdr = 60 -> fread 60 (hdr ++ rest) = Ok (hdr, rest).
Proof.
  intros H. change 60%Z with (Z.of_nat 60). rewrite <- H. apply fread_exact.
Qed.

Section MemberRoundTrip.
Variables (name : str) (content hdr rest : bytes).
Hypothesis Hascii : forallb is_ascii_char name = true.
Hypothesis H60 : length hdr = 60.
Hypothesis Hname : firstn 16 hdr = map byte_of_ascii (ljust name 16).
Hypothesis Hsize :
  firstn 10 (skipn 48 hdr)
  = map byte_of_ascii (ljust (str_of_nat (length content)) 10).

Local Lemma size_ascii :
  forallb is_ascii_char (ljust (str_of_nat (length content)) 10) = true.
Proof.
  rewrite forallb_ljust. rewrite forallb_forall. intros c Hc.
  apply digit_ascii.
  pose proof (chars_of_uint_all_digits (Nat.to_uint (length content))) as Hd.
  rewrite forallb_forall in Hd. now apply Hd.
Qed.

Local Lemma name_ascii : forallb is_ascii_char (ljust name 16) = true.
Proof. now rewrite forallb_ljust. Qed.

Lemma validate_read_member :
  ValidateDeb.read_member (hdr ++ content ++ pad_of content ++ rest)
  = Ok (Some ((strip name, content), rest)).
Proof.
  unfold ValidateDeb.read_member. rewrite fread_header by exact H60.
  cbn [bind].
  destruct hdr as [|h0 hdr'] eqn:Eh; [discriminate H60|]. rewrite <- Eh in *.
  rewrite H60. simpl (60 <? 60).
  rewrite Hname, Hsize, !decode_ascii_map by (apply size_ascii || apply name_ascii; assumption). simpl.
  rewrite strip_ljust_digits, py_int_str_of_nat. simpl.
  now rewrite read_body_exact, strip_ljust.
Qed.

Lemma ipchanger_read_member :
  IpChanger.read_member (hdr ++ content ++ pad_of content ++ rest)
  = Ok (Some ((rstrip_slash (strip name), content), rest)).
Proof.
  unfold IpChanger.read_member. rewrite fread_header by exact H60.
  cbn [bind].
  destruct hdr as [|h0 hdr'] eqn:Eh; [discriminate H60|]. rewrite <- Eh in *.
  rewrite H60. simpl (60 <? 60).
  rewrite Hname, Hsize, !decode_ascii_ignore_map by (apply size_ascii || apply name_ascii; assumption).
  rewrite strip_ljust_digits, py_int_str_of_nat. simpl.
  now rewrite read_body_exact, strip_ljust.
Qed.
End MemberRoundTrip.

(** *** The whole container *)

Section ContainerRoundTrip.
Variable step : bytes -> result (option (Member * bytes)).
Variable norm : str -> str.
Hypothesis step_eof : step [] = Ok None.
Hypothesis step_member :
  forall name content hdr rest,
    forallb is_ascii_char name = true ->
    length hdr = 60 ->
    firstn 16 hdr = map byte_of_ascii (ljust name 16) ->
    firstn 10 (skipn 48 hdr)
      = map byte_of_ascii (ljust (str_of_nat (length content)) 10) ->
    step (hdr ++ content ++ pad_of content ++ rest)
    = Ok (Some ((norm name, content), rest)).

Lemma read_loop_written c :
  forall ar out, add_members ar c = Ok out ->
  exists body, out = ar ++ body /\
    forall fuel acc, length body < fuel ->
      read_loop step fuel body acc = Some (Ok (acc ++ map (norm_member norm) c)).
Proof.
  induction c as [|[name content] c' IH]; intros ar out; simpl.
  - intros H; inversion H. exists []. split; [now rewrite app_nil_r|].
    intros [|fuel] acc Hf; [inversion Hf|]. simpl.
    now rewrite step_eof, app_nil_r.
  - destruct (DebPacker._add_ar_member ar name content) as [ar1|] eqn:E;
      [|discriminate]. cbn [bind]. intros H.
    destruct (add_ar_member_inv _ _ _ _ E)
      as (Hl & Ha & hdr & H60 & -> & Hn & Hs).
    destruct (IH _ _ H) as (body & -> & Hread).
    exists (hdr ++ content ++ pad_of content ++ body). split.
    + now rewrite <- !app_assoc.
    + intros [|fuel] acc Hf; [inversion Hf|]. simpl.
      rewrite (step_member name content hdr body Ha H60 Hn Hs).
      rewrite Hread.
      * now rewrite <- app_assoc.
      * rewrite !length_app in Hf. lia.
Qed.
End ContainerRoundTrip.

Lemma fread_magic body : fread 8 (AR_MAGIC ++ body) = Ok (AR_MAGIC, body).
Proof. reflexivity. Qed.

Lemma validate_reads_written c out :
  Write c = Ok out ->
  ValidateDeb.read_members out
  = Some (Ok (map (norm_member strip) c)).
Proof.
  intros H.
  destruct (read_loop_written ValidateDeb.read_member strip eq_refl
              validate_read_member c _ _ H) as (body & -> & Hread).
  unfold ValidateDeb.read_members. rewrite fread_magic.
  replace (bytes_eqb AR_MAGIC AR_MAGIC) with true
    by (symmetry; now apply bytes_eqb_eq).
  cbn [negb]. apply (Hread _ []). lia.
Qed.

Lemma ipchanger_reads_written c out :
  Write c = Ok out ->
  IpChanger._read_ar_members out
  = Some (Ok (map (norm_member (fun n => rstrip_slash (strip n))) c)).
Proof.
  intros H.
  destruct (read_loop_written IpChanger.read_member
              (fun n => rstrip_slash (strip n)) eq_refl
              ipchanger_read_member c _ _ H) as (body & -> & Hread).
  unfold IpChanger._read_ar_members. rewrite fread_magic.
  replace (bytes_eqb AR_MAGIC AR_MAGIC) with true
    by (symmetry; now apply bytes_eqb_eq).
  cbn [negb]. apply (Hread _ []). lia.
Qed.

Lemma map_norm_fixed norm (c : Container) :
  Forall (fun m => norm (fst m) = fst m) c -> map (norm_member norm) c = c.
Proof.
  induction 1 as [|[n d] c' Hm _ IH]; simpl; [reflexivity|].
  unfold norm_member at 1. simpl in *. now rewrite Hm, IH.
Qed.

(** C1 (amended): a container that [Write] accepts is read back unchanged
    (same member names, contents, hence sizes, and order) by both readers,
    provided no member name is altered by the readers' normalisation of the
    name field: [strip()] for [validate_deb.read_members], and [strip()]
    followed by [rstrip('/')] for [_read_ar_members]. *)
Theorem container_round_trip (c : Container) (out : bytes) :
  Write c = Ok out ->
  (Forall (fun m => strip (fst m) = fst m) c ->
   ValidateDeb.read_members out = Some (Ok c)) /\
  (Forall (fun m => rstrip_slash (strip (fst m)) = fst m) c ->
   IpChanger._read_ar_members out = Some (Ok c)).
Proof.
  intros H. split; intros Hc.
  - rewrite (validate_reads_written c out H). now rewrite map_norm_fixed.
  - rewrite (ipchanger_reads_written c out H).
    now rewrite (map_norm_fixed (fun n => rstrip_slash (strip n))).
Qed.

Lemma container_round_trip_witness :
  exists out,
    Write [(s "debian-binary", STAMP); (s "control.tar.gz", b "abc")] = Ok out /\
    ValidateDeb.read_members out
    = Some (Ok [(s "debian-binary", STAMP); (s "control.tar.gz", b "abc")]) /\
    IpChanger._read_ar_members out
    = Some (Ok [(s "debian-binary", STAMP); (s "control.tar.gz", b "abc")]).
Proof.
  eexists. split; [vm_compute; reflexivity|].
  match goal with
  | |- ValidateDeb.read_members ?o = Some (Ok ?c) /\ _ =>
      destruct (container_round_trip c o eq_refl) as [Hv Hi]
  end.
  split; [apply Hv | apply Hi]; repeat constructor.
Defined.

(** C1 as stated fails: the member name ["a "] has two bytes and [Write]
    accepts it, but both readers strip the padding of the name field and
    return the name ["a"]; [_read_ar_members] also drops the slash that
    ends the name ["a/"]. *)
Lemma container_round_trip_counterexample :
  Forall (fun m : Member => length (fst m) <= 16) [(s "a ", b "xyz")] /\
  (exists out,
     Write [(s "a ", b "xyz")] = Ok out /\
     ValidateDeb.read_members out = Some (Ok [(s "a", b "xyz")]) /\
     ValidateDeb.read_members out <> Some (Ok [(s "a ", b "xyz")]) /\
     IpChanger._read_ar_members out <> Some (Ok [(s "a ", b "xyz")])) /\
  (exists out,
     Write [(s "a/", b "xyz")] = Ok out /\
     IpChanger._read_ar_members out = Some (Ok [(s "a", b "xyz")])).
Proof.
  split; [repeat constructor|]. split.
  - eexists. split; [vm_compute; reflexivity|].
    split; [vm_compute; reflexivity|]. split; vm_compute; discriminate.
  - eexists. split; vm_compute; reflexivity.
Qed.

(** *** The readers return for every file *)

Lemma fread_shrinks n f data f' :
  fread n f = Ok (data, f') -> length f' <= length f.
Proof.
  unfold fread. destruct (n <? -1)%Z; [discriminate|].
  destruct (n <? 0)%Z; intros H; injection H as <- <-; simpl; [lia|].
  rewrite length_skipn. lia.
Qed.

Lemma read_body_shrinks size f data f' :
  read_body size f = Ok (data, f') -> length f' <= length f.
Proof.
  unfold read_body.
  destruct (fread size f) as [[data1 f1]|] eqn:E1; [|discriminate].
  apply fread_shrinks in E1. cbn [bind].
  destruct (size mod 2 =? 1)%Z.
  - destruct (fread 1 f1) as [[data2 f2]|] eqn:E2; [|discriminate].
    apply fread_shrinks in E2. cbn [bind].
    intros H; injection H as <- <-. lia.
  - intros H; injection H as <- <-. exact E1.
Qed.

Lemma fread_60 f hdr f1 :
  fread 60 f = Ok (hdr, f1) -> (length hdr <? 60) = false ->
  length f1 + 60 <= length f.
Proof.
  rewrite fread_nonneg by lia.
  assert (Hk : Z.to_nat 60 = 60) by reflexivity.
  revert Hk. generalize (Z.to_nat 60) as k. intros k Hk H Hl.
  injection H as <- <-.
  apply Nat.ltb_ge in Hl. rewrite length_firstn in Hl. rewrite length_skipn.
  lia.
Qed.

Lemma validate_read_member_shrinks f m f' :
  ValidateDeb.read_member f = Ok (Some (m, f')) -> length f' < length f.
Proof.
  unfold ValidateDeb.read_member.
  destruct (fread 60 f) as [[hdr f1]|] eqn:E; [|discriminate]. cbn [bind].
  destruct hdr as [|h0 hdr']; [discriminate|].
  destruct (length (h0 :: hdr') <? 60) eqn:El; [discriminate|].
  pose proof (fread_60 _ _ _ E El) as H60.
  destruct (decode_ascii (firstn 16 _)); [|discriminate].
  destruct (decode_ascii (firstn 10 _)); [|discriminate]. cbn [bind].
  destruct (py_int _) as [size|]; [|discriminate]. cbn [bind].
  destruct (read_body size f1) as [[data f2]|] eqn:Eb; [|discriminate].
  apply read_body_shrinks in Eb. cbn [bind].
  intros H; inversion H; subst. lia.
Qed.

Lemma ipchanger_read_member_shrinks f m f' :
  IpChanger.read_member f = Ok (Some (m, f')) -> length f' < length f.
Proof.
  unfold IpChanger.read_member.
  destruct (fread 60 f) as [[hdr f1]|] eqn:E; [|discriminate]. cbn [bind].
  destruct hdr as [|h0 hdr']; [discriminate|].
  destruct (length (h0 :: hdr') <? 60) eqn:El; [discriminate|].
  pose proof (fread_60 _ _ _ E El) as H60.
  destruct (py_int _) as [size|]; [|discriminate]. cbn [bind].
  destruct (read_body size f1) as [[data f2]|] eqn:Eb; [|discriminate].
  apply read_body_shrinks in Eb. cbn [bind].
  intros H; inversion H; subst. lia.
Qed.

Lemma read_loop_total step :
  (forall f m f', step f = Ok (Some (m, f')) -> length f' < length f) ->
  forall fuel f acc, length f < fuel ->
    exists r, read_loop step fuel f acc = Some r.
Proof.
  intros Hstep. induction fuel as [|fuel IH]; intros f acc Hf; [lia|].
  simpl. destruct (step f) as [[[m f']|]|e] eqn:E; eauto.
  apply IH. apply Hstep in E. lia.
Qed.

(** Both readers return, with members or with an exception, on every file. *)
Lemma read_members_total file :
  (exists r, ValidateDeb.read_members file = Some r) /\
  (exists r, IpChanger._read_ar_members file = Some r).
Proof.
  unfold ValidateDeb.read_members, IpChanger._read_ar_members.
  destruct (fread 8 file) as [[magic f]|]; [|split; eauto].
  destruct (negb (bytes_eqb magic AR_MAGIC)); split; eauto;
    apply read_loop_total;
    solve [ exact validate_read_member_shrinks
          | exact ipchanger_read_member_shrinks
          | apply Nat.lt_succ_diag_r ].
Qed.

(** ** The layout of the packages written *)

Lemma write_deb_is_Write control_tgz data_lzma :
  DebPacker.write_deb control_tgz data_lzma
  = Write [(s "debian-binary", STAMP); (s "control.tar.gz", control_tgz);
           (s "data.tar.lzma", data_lzma)].
Proof.
  unfold DebPacker.write_deb, Write. cbn [add_members bind].
  destruct (DebPacker._add_ar_member AR_MAGIC _ _) as [ar1|]; cbn [bind]; auto.
  destruct (DebPacker._add_ar_member ar1 _ _) as [ar2|]; cbn [bind]; auto.
  destruct (DebPacker._add_ar_member ar2 _ _) as [ar3|]; cbn [bind]; auto.
Qed.

Lemma add_is_add_ar_member out name content :
  length name <= 16 -> fits_size_field content ->
  IpChanger.add out name content = DebPacker._add_ar_member out name content.
Proof.
  unfold fits_size_field, IpChanger.add, DebPacker._add_ar_member.
  intros Hn Hc.
  destruct (Nat.ltb_spec 16 (length name)) as [|_]; [lia|].
  rewrite (firstn_all2 (n := 16) (ljust name 16)) by (rewrite length_ljust; lia).
  destruct (encode_ascii _) as [hdr|] eqn:E; [|reflexivity].
  apply decode_encode in E as [-> _]. cbn [bind].
  rewrite length_map, !length_app, !length_ljust.
  change (length (s "0")) with 1. change (length (s "100644")) with 6.
  change (length ["`"%char; NL]) with 2.
  replace (Nat.max 16 (length name) + (Nat.max 12 1 + (Nat.max 6 1
            + (Nat.max 6 1 + (Nat.max 8 6
            + (Nat.max 10 (length (str_of_nat (length content))) + 2))))))
    with 60 by lia.
  reflexivity.
Qed.

Lemma assemble_deb_is_Write (L : Lzma) (debbin control_gz data_tar_bytes : bytes)
  (lzma_alone : bool) :
  let stamp := match debbin with [] => STAMP | _ => debbin end in
  let payload :=
    if lzma_alone then (s "data.tar.lzma", compress_alone L data_tar_bytes)
    else (s "data.tar", data_tar_bytes) in
  fits_size_field stamp -> fits_size_field control_gz ->
  fits_size_field (snd payload) ->
  IpChanger._assemble_deb L debbin control_gz data_tar_bytes lzma_alone
  = Write [(s "debian-binary", stamp); (s "control.tar.gz", control_gz); payload].
Proof.
  intros stamp payload Hs Hc Hp.
  unfold IpChanger._assemble_deb, Write. fold stamp.
  replace (if lzma_alone
           then (compress_alone L data_tar_bytes, s "data.tar.lzma")
           else (data_tar_bytes, s "data.tar"))
    with (snd payload, fst payload) by (unfold payload; now destruct lzma_alone).
  assert (Hname : length (fst payload) <= 16)
    by (unfold payload; destruct lzma_alone; simpl; lia).
  destruct payload as [pname pdata]. cbn [fst snd add_members bind] in *.
  rewrite !add_is_add_ar_member by (assumption || (simpl; lia)).
  destruct (DebPacker._add_ar_member AR_MAGIC _ _) as [ar1|]; cbn [bind]; auto.
  rewrite !add_is_add_ar_member by (assumption || (simpl; lia)).
  destruct (DebPacker._add_ar_member ar1 _ _) as [ar2|]; cbn [bind]; auto.
  rewrite !add_is_add_ar_member by (assumption || (simpl; lia)).
  destruct (DebPacker._add_ar_member ar2 _ _) as [ar3|]; cbn [bind]; auto.
Qed.

(** C2 (amended): read back, a package written by [write_deb] holds
    debian-binary, control.tar.gz and data.tar.lzma in this order, and its
    debian-binary is the four bytes ["2.0\n"].  A package written by
    [_assemble_deb] (with sizes that fit the size field) holds
    debian-binary, control.tar.gz and the data member in this order; its
    debian-binary is the [debbin] it was given, and ["2.0\n"] only when that
    is empty; its data member is data.tar.lzma holding the compressed
    archive when [lzma_alone] is set, as [create_deb_package] sets it, and
    data.tar holding the raw archive otherwise. *)
Theorem package_layout (L : Lzma) (debbin control data : bytes)
  (lzma_alone : bool) (out : bytes) :
  (DebPacker.write_deb control data = Ok out ->
   ValidateDeb.read_members out
   = Some (Ok [(s "debian-binary", STAMP); (s "control.tar.gz", control);
               (s "data.tar.lzma", data)])) /\
  (let stamp := match debbin with [] => STAMP | _ => debbin end in
   let payload :=
     if lzma_alone then (s "data.tar.lzma", compress_alone L data)
     else (s "data.tar", data) in
   fits_size_field stamp -> fits_size_field control ->
   fits_size_field (snd payload) ->
   IpChanger._assemble_deb L debbin control data lzma_alone = Ok out ->
   ValidateDeb.read_members out
   = Some (Ok [(s "debian-binary", stamp); (s "control.tar.gz", control);
               payload])).
Proof.
  split.
  - rewrite write_deb_is_Write. intros H.
    now rewrite (validate_reads_written _ _ H).
  - intros stamp payload Hs Hc Hp.
    rewrite (assemble_deb_is_Write L debbin control data lzma_alone Hs Hc Hp).
    fold stamp payload. intros H.
    rewrite (validate_reads_written _ _ H). f_equal. f_equal.
    unfold payload. now destruct lzma_alone.
Qed.

Lemma package_layout_witness :
  (exists out,
     DebPacker.write_deb (b "ctl") (b "tar") = Ok out /\
     ValidateDeb.read_members out
     = Some (Ok [(s "debian-binary", STAMP); (s "control.tar.gz", b "ctl");
                 (s "data.tar.lzma", b "tar")])) /\
  (exists out,
     IpChanger._assemble_deb StoredLzma STAMP (b "ctl") (b "tar") true = Ok out /\
     ValidateDeb.read_members out
     = Some (Ok [(s "debian-binary", STAMP); (s "control.tar.gz", b "ctl");
                 (s "data.tar.lzma", STORED_ALONE_HEADER ++ b "tar")])).
Proof.
  split; eexists; (split; [vm_compute; reflexivity|]).
  - apply (proj1 (package_layout StoredLzma STAMP (b "ctl") (b "tar") true _)).
    vm_compute; reflexivity.
  - apply (proj2 (package_layout StoredLzma STAMP (b "ctl") (b "tar") true _));
      try (vm_compute; reflexivity);
      unfold fits_size_field; vm_compute; repeat constructor.
Defined.

(** C2 as stated fails for [_assemble_deb]: given the version stamp
    ["3.0\n"] of a source package it writes that stamp, not ["2.0\n"]; and
    with [lzma_alone] unset it names the data member data.tar. *)
Lemma package_layout_counterexample :
  (exists out,
     IpChanger._assemble_deb StoredLzma (b "3.0" ++ [x0a]) (b "ctl") (b "tar") true
     = Ok out /\
     ValidateDeb.read_members out
     = Some (Ok [(s "debian-binary", b "3.0" ++ [x0a]);
                 (s "control.tar.gz", b "ctl");
                 (s "data.tar.lzma", STORED_ALONE_HEADER ++ b "tar")]) /\
     b "3.0" ++ [x0a] <> STAMP) /\
  (exists out,
     IpChanger._assemble_deb StoredLzma STAMP (b "ctl") (b "tar") false = Ok out /\
     ValidateDeb.read_members out
     = Some (Ok [(s "debian-binary", STAMP); (s "control.tar.gz", b "ctl");
                 (s "data.tar", b "tar")])).
Proof.
  split; eexists; (split; [vm_compute; reflexivity|]).
  - split; [vm_compute; reflexivity|discriminate].
  - vm_compute; reflexivity.
Qed.

(** ** The binary patcher: patches at fixed offsets *)

Lemma apply_patch_nat data off old new :
  IpChanger.apply_patch data (off, old, new) =
  let o := N.to_nat off in
  if (o + length old <=? length data)
     && bytes_eqb (firstn (length old) (skipn o data)) old
  then (firstn o data ++ new ++ skipn (o + length old) data, true)
  else (data, false).
Proof.
  unfold IpChanger.apply_patch. cbv zeta.
  destruct (N.ltb_spec (N.of_nat (length data)) (off + N.of_nat (length old)));
    destruct (Nat.leb_spec (N.to_nat off + length old) (length data));
    try lia; cbn [andb]; reflexivity.
Qed.

Lemma apply_patch_out_of_range data off old new :
  (N.of_nat (length data) < off + N.of_nat (length old))%N ->
  IpChanger.apply_patch data (off, old, new) = (data, false).
Proof.
  intros H. rewrite apply_patch_nat. cbv zeta.
  destruct (Nat.leb_spec (N.to_nat off + length old) (length data));
    [lia|reflexivity].
Qed.

Lemma apply_patch_applied data off old new :
  snd (IpChanger.apply_patch data (off, old, new)) = true ->
  (off + N.of_nat (length old) <= N.of_nat (length data))%N /\
  firstn (length old) (skipn (N.to_nat off) data) = old /\
  fst (IpChanger.apply_patch data (off, old, new))
  = firstn (N.to_nat off) data ++ new
    ++ skipn (N.to_nat off + length old) data.
Proof.
  rewrite apply_patch_nat. cbv zeta.
  destruct (Nat.leb_spec (N.to_nat off + length old) (length data));
    cbn [andb]; [|discriminate].
  destruct (bytes_eqb _ old) eqn:E; [|discriminate].
  apply bytes_eqb_eq in E. intros _. repeat split; auto. lia.
Qed.

Lemma apply_patch_skipped data p :
  snd (IpChanger.apply_patch data p) = false ->
  fst (IpChanger.apply_patch data p) = data.
Proof.
  destruct p as [[off old] new]. rewrite apply_patch_nat. cbv zeta.
  destruct (_ && _); [discriminate|reflexivity].
Qed.

(** The region a patch looks at, once the patch has been written there. *)
Lemma region_after_write (data new : bytes) o n :
  o + n <= length data ->
  firstn (length new) (skipn o (firstn o data ++ new ++ skipn (o + n) data))
  = new.
Proof.
  intros H. rewrite skipn_app_exact by (rewrite length_firstn; lia).
  now apply firstn_app_exact.
Qed.

Lemma length_after_write (data new : bytes) o n :
  o + n <= length data ->
  length (firstn o data ++ new ++ skipn (o + n) data)
  = length data + length new - n.
Proof.
  intros H. rewrite !length_app, length_firstn, length_skipn. lia.
Qed.

Lemma rewrite_same (data new : bytes) o :
  o + length new <= length data ->
  let d1 := firstn o data ++ new ++ skipn (o + length new) data in
  firstn o d1 ++ new ++ skipn (o + length new) d1 = d1.
Proof.
  intros H d1.
  assert (HA : length (firstn o data) = o) by (rewrite length_firstn; lia).
  assert (H1 : firstn o d1 = firstn o data)
    by (apply firstn_app_exact; exact HA).
  assert (H2 : skipn (o + length new) d1 = skipn (o + length new) data).
  { unfold d1. rewrite (app_assoc _ new). apply skipn_app_exact.
    rewrite length_app. lia. }
  rewrite H1, H2. reflexivity.
Qed.

(** C10: a patch whose expected bytes would reach past the end of the data
    is skipped and the data are returned as they were; a patch is applied
    only when its range lies within the data, where it finds the expected
    bytes, and writing it touches that range alone: the bytes before and
    after it are kept. *)
Theorem offset_patch_bounds (data : bytes) (off : N) (old new : bytes) :
  ((N.of_nat (length data) < off + N.of_nat (length old))%N ->
   IpChanger.apply_patch data (off, old, new) = (data, false)) /\
  (snd (IpChanger.apply_patch data (off, old, new)) = true ->
   (off + N.of_nat (length old) <= N.of_nat (length data))%N /\
   firstn (length old) (skipn (N.to_nat off) data) = old /\
   fst (IpChanger.apply_patch data (off, old, new))
   = firstn (N.to_nat off) data ++ new
     ++ skipn (N.to_nat off + length old) data).
Proof.
  split; [apply apply_patch_out_of_range | apply apply_patch_applied].
Qed.

Lemma offset_patch_bounds_witness :
  IpChanger.apply_patch (b "abc") (2%N, b "cd", b "xy") = (b "abc", false) /\
  fst (IpChanger.apply_patch (b "abcd") (2%N, b "cd", b "xy")) = b "abxy".
Proof.
  split.
  - apply (proj1 (offset_patch_bounds (b "abc") 2 (b "cd") (b "xy"))).
    vm_compute; reflexivity.
  - destruct (proj2 (offset_patch_bounds (b "abcd") 2 (b "cd") (b "xy")))
      as (_ & _ & H); [vm_compute; reflexivity|].
    rewrite H. vm_compute; reflexivity.
Defined.

Lemma apply_patch_twice (data : bytes) (off : N) (old new : bytes) :
  length old = length new ->
  let r1 := IpChanger.apply_patch data (off, old, new) in
  let r2 := IpChanger.apply_patch (fst r1) (off, old, new) in
  fst r2 = fst r1 /\
  (snd r1 = true <->
   (off + N.of_nat (length old) <= N.of_nat (length data))%N /\
   firstn (length old) (skipn (N.to_nat off) data) = old) /\
  (snd r1 = true -> old <> new -> snd r2 = false) /\
  (snd r1 = false -> snd r2 = false).
Proof.
  intros Hlen r1 r2. unfold r2, r1. clear r1 r2.
  rewrite !apply_patch_nat. cbv zeta.
  set (o := N.to_nat off).
  destruct (Nat.leb_spec (o + length old) (length data)) as [Hin|Hout];
    cbn [andb].
  - destruct (bytes_eqb (firstn (length old) (skipn o data)) old) eqn:E.
    + cbn [fst snd].
      assert (Hl : length (firstn o data ++ new ++ skipn (o + length old) data)
                   = length data)
        by (rewrite length_after_write by exact Hin; lia).
      rewrite Hl.
      destruct (Nat.leb_spec (o + length old) (length data)); [|lia].
      cbn [andb].
      assert (Hreg : firstn (length old)
                       (skipn o (firstn o data ++ new
                                 ++ skipn (o + length old) data)) = new)
        by (rewrite Hlen at 1; apply region_after_write; lia).
      rewrite Hreg.
      apply bytes_eqb_eq in E.
      destruct (bytes_eqb new old) eqn:E2; cbn [fst snd].
      * apply bytes_eqb_eq in E2. subst new.
        repeat split; intros; auto; try lia; try congruence.
        now apply rewrite_same.
      * repeat split; intros; auto; try lia; try discriminate.
    + cbn [fst snd].
      destruct (Nat.leb_spec (o + length old) (length data)); [|lia].
      cbn [andb]. rewrite E. cbn [fst snd].
      repeat split; intros; auto; try discriminate.
      match goal with
      | H : _ /\ _ = old |- _ => destruct H as [_ H]; apply bytes_eqb_eq in H
      end. congruence.
  - cbn [fst snd].
    destruct (Nat.leb_spec (o + length old) (length data)); [lia|].
    cbn [andb fst snd]. repeat split; intros; auto; try discriminate.
    match goal with H : _ /\ _ |- _ => destruct H as [H _] end. lia.
Qed.

(** C4 (amended): for a patch whose replacement is as long as its expected
    bytes, as every entry of the patch list is, a second application
    changes nothing: the data after it are the data after the first.  The
    first application is "applied" exactly when the expected bytes are found
    at the offset (on other data it is "skipped" already); when it is
    applied and the replacement differs from the expected bytes, the second
    application is "skipped"; when the first is skipped so is the second. *)
Theorem offset_patch_twice (data : bytes) (off : N) (old new : bytes) :
  length old = length new ->
  let r1 := IpChanger.apply_patch data (off, old, new) in
  let r2 := IpChanger.apply_patch (fst r1) (off, old, new) in
  fst r2 = fst r1 /\
  (snd r1 = true <->
   (off + N.of_nat (length old) <= N.of_nat (length data))%N /\
   firstn (length old) (skipn (N.to_nat off) data) = old) /\
  (snd r1 = true -> old <> new -> snd r2 = false) /\
  (snd r1 = false -> snd r2 = false).
Proof. exact (apply_patch_twice data off old new). Qed.


Lemma offset_patch_twice_witness :
  IpChanger.apply_patch (b "abcd") (2%N, b "cd", b "xy") = (b "abxy", true) /\
  snd (IpChanger.apply_patch
         (fst (IpChanger.apply_patch (b "abcd") (2%N, b "cd", b "xy")))
         (2%N, b "cd", b "xy")) = false /\
  fst (IpChanger.apply_patch
         (fst (IpChanger.apply_patch (b "abcd") (2%N, b "cd", b "xy")))
         (2%N, b "cd", b "xy"))
  = fst (IpChanger.apply_patch (b "abcd") (2%N, b "cd", b "xy")).
Proof.
  destruct (offset_patch_twice (b "abcd") 2 (b "cd") (b "xy") eq_refl)
    as (H1 & H2 & H3 & H4).
  split; [vm_compute; reflexivity|]. split; [|exact H1].
  apply H3; [vm_compute; reflexivity|discriminate].
Defined.

(** C4 as stated fails: on data that do not hold the expected bytes at the
    offset the first application is "skipped" already, as for the first
    entry of the patch list on an empty file, or on four other bytes. *)
Lemma offset_patch_twice_counterexample :
  IpChanger.apply_patch []
    (0x3D67C%N, [x08; x07; x80; x52], [x28; x00; x80; x52]) = ([], false) /\
  IpChanger.apply_patch (b "abcd") (0%N, b "wxyz", b "1234") = (b "abcd", false) /\
  IpChanger.apply_latency_patches [] = (false, []).
Proof. repeat split; vm_compute; reflexivity. Qed.

(** ** The binary patcher: literal replacement *)

Lemma startswith_length {A} eqd (x p : list A) :
  startswith eqd x p = true -> length p <= length x.
Proof.
  revert x. induction p as [|a p IH]; intros x; simpl; [lia|].
  destruct x as [|c x]; simpl; [discriminate|].
  destruct (eqd a c); [|discriminate].
  intros H. apply IH in H. lia.
Qed.

Lemma length_replace_go old new data skip :
  length old = length new -> old <> [] -> skip <= length data ->
  length (replace_go old new skip data) = length data - skip.
Proof.
  intros Hlen Hne. revert skip.
  induction data as [|c data IH]; intros skip Hs; simpl in *; [lia|].
  destruct skip as [|k].
  - destruct (bytes_startswith (c :: data) old) eqn:E.
    + apply startswith_length in E. simpl in E.
      assert (0 < length old) by (destruct old; simpl; [congruence|lia]).
      rewrite length_app, IH by lia. lia.
    + simpl. rewrite IH by lia. lia.
  - rewrite IH by lia. lia.
Qed.

(** A replacement by bytes of the same length keeps the length. *)
Lemma length_bytes_replace old new data :
  length old = length new ->
  length (bytes_replace old new data) = length data.
Proof.
  intros Hlen. unfold bytes_replace. destruct old as [|o old].
  - destruct new; [|discriminate Hlen]. simpl.
    induction data as [|c data IH]; simpl; auto.
  - rewrite length_replace_go; try lia; congruence.
Qed.

Lemma patch_pair_length st p st' :
  Debrand.patch_pair st p = Ok st' -> length (fst st') = length (fst st).
Proof.
  destruct st as [data r], p as [old new]. unfold Debrand.patch_pair.
  destruct (bytes_contains old data).
  - destruct (Nat.eqb_spec (length old) (length new)) as [Hl|];
      [|discriminate]. cbn [negb]. intros H; inversion H. cbn [fst].
    now apply length_bytes_replace.
  - intros H; now inversion H.
Qed.

Lemma patch_pairs_length patterns st st' :
  Debrand.patch_pairs patterns st = Ok st' ->
  length (fst st') = length (fst st).
Proof.
  revert st. induction patterns as [|p rest IH]; intros st; simpl.
  - intros H; now inversion H.
  - destruct (Debrand.patch_pair st p) as [st1|] eqn:E; [|discriminate].
    cbn [bind]. intros H. apply IH in H. apply patch_pair_length in E.
    congruence.
Qed.

Lemma patch_branding_length patterns file :
  length (snd (Debrand.patch_branding_with patterns file)) = length file /\
  (forall e, fst (Debrand.patch_branding_with patterns file) = Raise e ->
             snd (Debrand.patch_branding_with patterns file) = file).
Proof.
  unfold Debrand.patch_branding_with.
  destruct (Debrand.patch_pairs patterns (file, 0)) as [[data r]|e] eqn:E.
  - apply patch_pairs_length in E. cbn [fst] in E.
    destruct (negb (r =? 0)); cbn [fst snd]; split; auto; discriminate.
  - cbn [fst snd]. auto.
Qed.

Lemma encode_ascii_length x enc : encode_ascii x = Ok enc -> length enc = length x.
Proof.
  intros H. apply decode_encode in H as [-> _]. apply length_map.
Qed.

Lemma replace_ip_length file old_ip new_ip :
  length (snd (IpChanger.replace_ip_in_binary file old_ip new_ip))
  = length file.
Proof.
  unfold IpChanger.replace_ip_in_binary.
  destruct (Nat.eqb_spec (length old_ip) (length new_ip)) as [Hl|];
    [|reflexivity]. cbn [negb].
  destruct (encode_ascii old_ip) as [old_bytes|] eqn:Eo; [|reflexivity].
  destruct (encode_ascii new_ip) as [new_bytes|] eqn:En; [|reflexivity].
  apply encode_ascii_length in Eo, En.
  assert (H1 : length old_bytes = length new_bytes) by congruence.
  assert (H2 : length (old_bytes ++ [x00]) = length (new_bytes ++ [x00]))
    by (rewrite !length_app; simpl; lia).
  destruct (bytes_contains old_bytes file);
    destruct (bytes_contains (old_bytes ++ [x00]) _);
    match goal with
    | |- context [if ?c then _ else _] => destruct c
    end; cbn [snd];
    rewrite ?length_bytes_replace by assumption; reflexivity.
Qed.

(** C3 (amended): when the two literals differ in length,
    [replace_ip_in_binary] returns [False] and leaves the file as it is, and
    [patch_branding] raises at such a pair when its old literal occurs in
    the data and passes the pair over when it does not; whatever the
    literals, neither function ever changes the length of the file, and a
    call of [patch_branding] that raises leaves the file as it is. *)
Theorem literal_patch_guard (file : bytes) :
  (forall old_ip new_ip : str, length old_ip <> length new_ip ->
     IpChanger.replace_ip_in_binary file old_ip new_ip = (Ok false, file)) /\
  (forall (old new : bytes) (replaced : nat), length old <> length new ->
     Debrand.patch_pair (file, replaced) (old, new)
     = if bytes_contains old file then Raise RuntimeError
       else Ok (file, replaced)) /\
  (forall old_ip new_ip : str,
     length (snd (IpChanger.replace_ip_in_binary file old_ip new_ip))
     = length file) /\
  (forall patterns,
     length (snd (Debrand.patch_branding_with patterns file)) = length file /\
     (forall e, fst (Debrand.patch_branding_with patterns file) = Raise e ->
                snd (Debrand.patch_branding_with patterns file) = file)).
Proof.
  repeat split.
  - intros old_ip new_ip H. unfold IpChanger.replace_ip_in_binary.
    destruct (Nat.eqb_spec (length old_ip) (length new_ip)); [lia|reflexivity].
  - intros old new replaced H. unfold Debrand.patch_pair.
    destruct (Nat.eqb_spec (length old) (length new)); [lia|reflexivity].
  - apply replace_ip_length.
  - apply patch_branding_length.
  - apply patch_branding_length.
Qed.

Lemma literal_patch_guard_witness :
  IpChanger.replace_ip_in_binary (b "at 10.0.0.1") (s "10.0.0.1") (s "10.0.0.12")
  = (Ok false, b "at 10.0.0.1") /\
  Debrand.patch_pair (b "at 10.0.0.1", 0) (b "10.0.0.1", b "10.0.0.12")
  = Raise RuntimeError.
Proof.
  destruct (literal_patch_guard (b "at 10.0.0.1")) as (H1 & H2 & _).
  split.
  - apply H1. vm_compute. discriminate.
  - rewrite H2 by (vm_compute; discriminate). vm_compute. reflexivity.
Defined.

(** C3 as stated fails for [patch_branding]: its table holds a pair whose
    literals differ in length (21 and 22 bytes), yet on data without the old
    literal no error is raised; the length is only compared once the old
    literal has been found.  (Data that hold this literal hold the first
    pattern too, which is replaced before the pair is reached.) *)
Lemma literal_patch_guard_counterexample :
  In (b "Login (www.bkatm.com)", b "Login                 ")
     Debrand.BRAND_PATTERNS /\
  length (b "Login (www.bkatm.com)") = 21 /\
  length (b "Login                 ") = 22 /\
  Debrand.patch_branding [] = (Ok 0, []) /\
  Debrand.patch_branding (b "Login (www.bkatm.com)")
  = (Ok 1, b "Login (localhost    )") /\
  Debrand.patch_branding_with [(b "ab", b "c")] (b "xyz") = (Ok 0, b "xyz").
Proof.
  repeat split; try (vm_compute; reflexivity).
  right. right. left. reflexivity.
Qed.

Example bytes_replace_examples :
  bytes_replace (b "aa") (b "b") (b "aaa") = b "ba" /\
  bytes_replace (b "bc") (b "X") (b "abcabc") = b "aXaX" /\
  bytes_replace (b "") (b "-") (b "ab") = b "-a-b-" /\
  bytes_count (b "aa") (b "aaaa") = 2 /\
  bytes_count (b "") (b "ab") = 3 /\
  bytes_contains (b "bc") (b "abcd") = true.
Proof. repeat split; vm_compute; reflexivity. Qed.

(** ** The framing of the payload *)

Lemma startswith_firstn {A} eqd (x p : list A) :
  startswith eqd x p = true -> firstn (length p) x = p.
Proof.
  revert x. induction p as [|a p IH]; intros x; simpl; [reflexivity|].
  destruct x as [|c x]; simpl; [discriminate|].
  destruct (eqd a c) as [->|]; [|discriminate].
  intros H. now rewrite IH.
Qed.

Lemma stored_lzma_framing : lzma_framing StoredLzma.
Proof.
  split; intros data.
  - reflexivity.
  - intros H. cbn [decompress_alone StoredLzma].
    unfold stored_decompress_alone.
    destruct data as [|c data]; [discriminate H|].
    unfold bytes_startswith, XZ_MAGIC in H. cbn [startswith] in H.
    destruct (byte_eq_dec xfd c) as [<-|]; [|discriminate H].
    reflexivity.
Qed.

(** ** The metadata patcher *)

Lemma scan_lines_maintainer new_maintainer lines st :
  fold_left (ChangeMaintainer.scan_line new_maintainer None false) lines st
  = {| ChangeMaintainer.modified :=
         ChangeMaintainer.modified st
         ++ map (fun l => if is_maintainer l
                          then maintainer_line new_maintainer else l) lines;
       ChangeMaintainer.maintainer_found :=
         ChangeMaintainer.maintainer_found st || existsb is_maintainer lines;
       ChangeMaintainer.author_found := ChangeMaintainer.author_found st |}.
Proof.
  revert st. induction lines as [|l lines IH]; intros st; simpl.
  - rewrite app_nil_r, orb_false_r. now destruct st.
  - rewrite IH. change (is_maintainer l) with (str_startswith l (s "Maintainer:")).
    unfold ChangeMaintainer.scan_line, maintainer_line.
    destruct (str_startswith l (s "Maintainer:")) eqn:E.
    + cbn [ChangeMaintainer.modified ChangeMaintainer.maintainer_found
           ChangeMaintainer.author_found orb].
      rewrite <- app_assoc, orb_true_r. reflexivity.
    + cbn [ChangeMaintainer.truthy]. rewrite !andb_false_r.
      cbn [ChangeMaintainer.modified ChangeMaintainer.maintainer_found
           ChangeMaintainer.author_found orb].
      rewrite <- app_assoc. reflexivity.
Qed.

Lemma modify_maintainer_lines text new_maintainer :
  ChangeMaintainer.modify_maintainer text new_maintainer None false
  = join [NL]
      ((if existsb is_maintainer (splitlines text) then []
        else [maintainer_line new_maintainer])
       ++ map (fun l => if is_maintainer l
                        then maintainer_line new_maintainer else l)
            (splitlines text))
    ++ [NL].
Proof.
  unfold ChangeMaintainer.modify_maintainer. cbv zeta.
  rewrite scan_lines_maintainer.
  cbn [ChangeMaintainer.modified ChangeMaintainer.maintainer_found
       ChangeMaintainer.author_found ChangeMaintainer.truthy andb orb app].
  destruct (existsb is_maintainer (splitlines text)); reflexivity.
Qed.

(** C6 (amended): [modify_maintainer] (with no new author and without the
    removal of repository lines) rewrites every line that starts with
    [Maintainer:], the first and any later one alike, and reproduces every
    other line as it is and in its place; when no line starts so it puts
    the new Maintainer line first.  On the text
    ["Maintainer: Michael\nAuthor: Someone\n"] the new maintainer [kox]
    gives ["Maintainer: kox\nAuthor: Someone\n"]. *)
Theorem maintainer_replace :
  (forall text new_maintainer : str,
     ChangeMaintainer.modify_maintainer text new_maintainer None false
     = join [NL]
         ((if existsb is_maintainer (splitlines text) then []
           else [maintainer_line new_maintainer])
          ++ map (fun l => if is_maintainer l
                           then maintainer_line new_maintainer else l)
               (splitlines text))
       ++ [NL]) /\
  ChangeMaintainer.modify_maintainer
    (s "Maintainer: Michael" ++ [NL] ++ s "Author: Someone" ++ [NL])
    (s "kox") None false
  = s "Maintainer: kox" ++ [NL] ++ s "Author: Someone" ++ [NL].
Proof.
  split; [exact modify_maintainer_lines | vm_compute; reflexivity].
Qed.

(** C6 as stated fails: of two lines that start with [Maintainer:] the code
    rewrites both, where the replacement of the first match alone keeps the
    second as it was. *)
Lemma maintainer_replace_counterexample :
  ChangeMaintainer.modify_maintainer
    (s "Maintainer: a" ++ [NL] ++ s "Maintainer: b" ++ [NL]) (s "kox") None false
  = s "Maintainer: kox" ++ [NL] ++ s "Maintainer: kox" ++ [NL] /\
  spec_setField (s "Maintainer") (s "kox")
    (s "Maintainer: a" ++ [NL] ++ s "Maintainer: b" ++ [NL])
  = s "Maintainer: kox" ++ [NL] ++ s "Maintainer: b" ++ [NL] /\
  ChangeMaintainer.modify_maintainer
    (s "Maintainer: a" ++ [NL] ++ s "Maintainer: b" ++ [NL]) (s "kox") None false
  <> spec_setField (s "Maintainer") (s "kox")
       (s "Maintainer: a" ++ [NL] ++ s "Maintainer: b" ++ [NL]).
Proof.
  repeat split; try (vm_compute; reflexivity).
  vm_compute. discriminate.
Qed.

Example splitlines_examples :
  splitlines (s "a" ++ [NL] ++ [NL] ++ s "b") = [s "a"; []; s "b"] /\
  splitlines (s "a" ++ [CR; NL] ++ s "b" ++ [NL]) = [s "a"; s "b"] /\
  splitlines [] = [] /\
  splitlines [NL] = [[]].
Proof. repeat split; vm_compute; reflexivity. Qed.

(** ** The file-archive builders *)

Lemma Forall_flat_map_intro {A B} (P : B -> Prop) (f : A -> list B) l :
  (forall x, Forall P (f x)) -> Forall P (flat_map f l).
Proof.
  intros H. induction l as [|x l IH]; simpl; [constructor|].
  apply Forall_app. split; [apply H|exact IH].
Qed.

Lemma Forall_map_intro {A B} (P : B -> Prop) (f : A -> B) l :
  (forall x, P (f x)) -> Forall P (map f l).
Proof.
  intros H. induction l as [|x l IH]; simpl; constructor; auto.
Qed.

(** *** Loops over the archive being written *)

Lemma add_each_proj {A B} (proj : TarInfo -> B)
  (add : Inodes -> A -> TarInfo * Inodes) (f : A -> B) l :
  (forall inodes x, In x l -> proj (fst (add inodes x)) = f x) ->
  forall inodes, map proj (fst (add_each add inodes l)) = map f l.
Proof.
  induction l as [|x l IH]; intros H inodes; [reflexivity|].
  cbn [add_each]. pose proof (H inodes x (or_introl eq_refl)) as Hx.
  destruct (add inodes x) as [ti inodes1]. cbn [fst] in Hx.
  assert (Hl : forall inodes x, In x l -> proj (fst (add inodes x)) = f x)
    by (intros i y Hy; apply H; now right).
  specialize (IH Hl inodes1).
  destruct (add_each add inodes1 l) as [rest inodes2]. cbn [fst map] in *.
  now rewrite Hx, IH.
Qed.

Lemma add_each_plain {A} (add : Inodes -> A -> TarInfo * Inodes)
  (f : A -> TarInfo) l :
  (forall inodes x, In x l -> fst (add inodes x) = f x) ->
  forall inodes, fst (add_each add inodes l) = map f l.
Proof.
  intros H inodes. rewrite <- (map_id (fst (add_each add inodes l))).
  now apply (add_each_proj (fun ti => ti)).
Qed.

Lemma add_each_Forall {A} (P : TarInfo -> Prop)
  (add : Inodes -> A -> TarInfo * Inodes) l :
  (forall inodes x, P (fst (add inodes x))) ->
  forall inodes, Forall P (fst (add_each add inodes l)).
Proof.
  intros H. induction l as [|x l IH]; intros inodes; [constructor|].
  cbn [add_each]. pose proof (H inodes x) as Hx.
  destruct (add inodes x) as [ti inodes1]. specialize (IH inodes1).
  destruct (add_each add inodes1 l) as [rest inodes2].
  now constructor.
Qed.

Lemma add_all_proj {A B} (proj : TarInfo -> B)
  (body : Inodes -> A -> Archive * Inodes) (f : A -> list B) l :
  (forall inodes x, In x l -> map proj (fst (body inodes x)) = f x) ->
  forall inodes, map proj (fst (add_all body inodes l)) = flat_map f l.
Proof.
  induction l as [|x l IH]; intros H inodes; [reflexivity|].
  cbn [add_all]. pose proof (H inodes x (or_introl eq_refl)) as Hx.
  destruct (body inodes x) as [entries inodes1]. cbn [fst] in Hx.
  assert (Hl : forall inodes x, In x l -> map proj (fst (body inodes x)) = f x)
    by (intros i y Hy; apply H; now right).
  specialize (IH Hl inodes1).
  destruct (add_all body inodes1 l) as [rest inodes2]. cbn [fst flat_map] in *.
  now rewrite map_app, Hx, IH.
Qed.

Lemma add_all_plain {A} (body : Inodes -> A -> Archive * Inodes)
  (f : A -> Archive) l :
  (forall inodes x, In x l -> fst (body inodes x) = f x) ->
  forall inodes, fst (add_all body inodes l) = flat_map f l.
Proof.
  intros H inodes. rewrite <- (map_id (fst (add_all body inodes l))).
  apply (add_all_proj (fun ti => ti)). intros i x Hx.
  rewrite map_id. now apply H.
Qed.

Lemma add_all_Forall {A} (P : TarInfo -> Prop)
  (body : Inodes -> A -> Archive * Inodes) l :
  (forall inodes x, Forall P (fst (body inodes x))) ->
  forall inodes, Forall P (fst (add_all body inodes l)).
Proof.
  intros H. induction l as [|x l IH]; intros inodes; [constructor|].
  cbn [add_all]. pose proof (H inodes x) as Hx.
  destruct (body inodes x) as [entries inodes1]. specialize (IH inodes1).
  destruct (add_all body inodes1 l) as [rest inodes2].
  apply Forall_app. now split.
Qed.

(** The files of a turn of the walk, then entries that leave the inodes
    as they are. *)
Lemma fst_files_then {A} (add : Inodes -> A -> TarInfo * Inodes) inodes l
  (more : Archive) :
  fst (let '(files, inodes) := add_each add inodes l in (files ++ more, inodes))
  = fst (add_each add inodes l) ++ more.
Proof. now destruct (add_each add inodes l). Qed.

Lemma fst_then_files {A} (add : Inodes -> A -> TarInfo * Inodes) inodes l
  (before : Archive) :
  fst (let '(files, inodes) := add_each add inodes l in (before ++ files, inodes))
  = before ++ fst (add_each add inodes l).
Proof. now destruct (add_each add inodes l). Qed.

(** C8 (amended): every entry that [_build_data_tar_from_dir] puts into the
    payload archive and every entry that [_build_control_tar_gz_from_dir]
    puts into the metadata archive carries uid 0, gid 0, user name [root]
    and group name [wheel]. *)
Theorem archive_ownership (root_name : str) (tree : list node) :
  Forall (fun ti => owner ti = ROOT_WHEEL)
    (IpChanger._build_data_tar_from_dir root_name tree) /\
  Forall (fun ti => owner ti = ROOT_WHEEL)
    (gz_entries (IpChanger._build_control_tar_gz_from_dir root_name tree)).
Proof.
  split.
  - unfold IpChanger._build_data_tar_from_dir.
    apply add_all_Forall. intros inodes [[root parent] children].
    rewrite fst_files_then. apply Forall_app. split.
    + apply add_each_Forall. intros i f. unfold IpChanger.data_add_file.
      now destruct (gettarinfo i f _).
    + apply Forall_map_intro; reflexivity.
  - unfold IpChanger._build_control_tar_gz_from_dir. cbn [gz_entries].
    apply add_all_Forall. intros inodes [[root parent] children].
    apply add_each_Forall. intros i f. unfold IpChanger.control_add_file.
    now destruct (gettarinfo i f _).
Qed.

(** C8 as stated fails for the payload archive: the entries of a file and
    of a directory carry the group name [wheel], not [root]. *)
Lemma archive_ownership_counterexample :
  map owner
    (IpChanger._build_data_tar_from_dir (s "data_files")
       [File (s "f") (stat_at 0) (b "x"); Dir (s "d") (stat_at 0) []])
  = [ROOT_WHEEL; ROOT_WHEEL] /\
  ROOT_WHEEL <> ROOT_ROOT.
Proof. split; [vm_compute; reflexivity|discriminate]. Qed.

(** The first definition of [_build_data_tar_from_dir], which the second
    one replaces, sets every time stamp to zero. *)
Lemma first_definition_zero_mtime root_name tree :
  Forall (fun ti => ti_mtime ti = 0%Z)
    (IpChanger._build_data_tar_from_dir_first root_name tree).
Proof.
  unfold IpChanger._build_data_tar_from_dir_first.
  apply add_all_Forall. intros inodes [[root parent] children].
  rewrite fst_then_files. apply Forall_app. split.
  - apply Forall_map_intro; reflexivity.
  - apply add_each_Forall. intros i f. unfold IpChanger.first_add_file.
    now destruct (gettarinfo i f _).
Qed.

(** C7 fails on the code: two stagings of the same tree (same names, same
    contents) whose file was written at different times give different
    payload archives, because [_build_data_tar_from_dir] leaves the time
    stamp of a file as [gettarinfo] read it; the definition it replaces
    gives the same archive for both.  [deb_packer.build_control_tar] gives
    different archives for one tree when called at different times, and
    its entries differ with the time stamps of the files as well. *)
Theorem build_depends_on_time :
  same_content (File (s "f") (stat_at 1) (b "x"))
               (File (s "f") (stat_at 2) (b "x")) = true /\
  IpChanger._build_data_tar_from_dir (s "data_files")
    [File (s "f") (stat_at 1) (b "x")]
  <> IpChanger._build_data_tar_from_dir (s "data_files")
       [File (s "f") (stat_at 2) (b "x")] /\
  map ti_mtime
    (IpChanger._build_data_tar_from_dir (s "data_files")
       [File (s "f") (stat_at 2) (b "x")]) = [2%Z] /\
  IpChanger._build_data_tar_from_dir_first (s "data_files")
    [File (s "f") (stat_at 1) (b "x")]
  = IpChanger._build_data_tar_from_dir_first (s "data_files")
      [File (s "f") (stat_at 2) (b "x")] /\
  DebPacker.build_control_tar 1 [File (s "control") (stat_at 0) (b "x")]
  <> DebPacker.build_control_tar 2 [File (s "control") (stat_at 0) (b "x")] /\
  DebPacker.build_data_tar [File (s "f") (stat_at 1) (b "x")]
  <> DebPacker.build_data_tar [File (s "f") (stat_at 2) (b "x")].
Proof.
  repeat split; try (vm_compute; reflexivity); vm_compute; discriminate.
Qed.

(** C9 fails on the code of [change_maintainer.build_data_tar]: it adds the
    files of the tree only, so a directory with a file in it has no entry
    in front of the file, and an empty directory has no entry at all;
    [deb_packer.build_data_tar] and [_build_data_tar_from_dir] put the
    entry of each directory in front of what lies below it. *)
Theorem change_maintainer_drops_directories :
  map ti_name
    (ChangeMaintainer.build_data_tar
       [Dir (s "d") (stat_at 0) [File (s "f") (stat_at 0) (b "x")];
        Dir (s "e") (stat_at 0) []])
  = [s "d/f"] /\
  dirs_before_descendants
    [Dir (s "d") (stat_at 0) [File (s "f") (stat_at 0) (b "x")];
     Dir (s "e") (stat_at 0) []]
    (ChangeMaintainer.build_data_tar
       [Dir (s "d") (stat_at 0) [File (s "f") (stat_at 0) (b "x")];
        Dir (s "e") (stat_at 0) []]) = false /\
  map (fun ti => (ti_name ti, ti_type ti))
    (DebPacker.build_data_tar
       [Dir (s "d") (stat_at 0) [File (s "f") (stat_at 0) (b "x")];
        Dir (s "e") (stat_at 0) []])
  = [(s "d", DIRTYPE); (s "e", DIRTYPE); (s "d/f", REGTYPE)] /\
  dirs_before_descendants
    [Dir (s "d") (stat_at 0) [File (s "f") (stat_at 0) (b "x")];
     Dir (s "e") (stat_at 0) []]
    (DebPacker.build_data_tar
       [Dir (s "d") (stat_at 0) [File (s "f") (stat_at 0) (b "x")];
        Dir (s "e") (stat_at 0) []]) = true /\
  dirs_before_descendants
    [Dir (s "d") (stat_at 0) [File (s "f") (stat_at 0) (b "x")];
     Dir (s "e") (stat_at 0) []]
    (IpChanger._build_data_tar_from_dir (s "data_files")
       [Dir (s "d") (stat_at 0) [File (s "f") (stat_at 0) (b "x")];
        Dir (s "e") (stat_at 0) []]) = true.
Proof. repeat split; vm_compute; reflexivity. Qed.

(** ** The whole patch list, applied twice *)

Lemma region_left {A} (a y : list A) o n :
  o + n <= length a ->
  firstn n (skipn o (a ++ y)) = firstn n (skipn o a).
Proof.
  intros H. rewrite skipn_app.
  replace (o - length a) with 0 by lia. cbn [skipn].
  rewrite firstn_app, length_skipn.
  replace (n - (length a - o)) with 0 by lia. cbn [firstn].
  apply app_nil_r.
Qed.

Lemma region_right {A} (a x c : list A) o :
  length a + length x <= o ->
  skipn o (a ++ x ++ c) = skipn (o - length a - length x) c.
Proof.
  intros H. rewrite skipn_app, skipn_all2 by lia. cbn [app].
  rewrite skipn_app, skipn_all2 by lia. reflexivity.
Qed.

Lemma split_at_region (data : bytes) o n :
  data = firstn o data ++ firstn n (skipn o data) ++ skipn (o + n) data.
Proof.
  replace (o + n) with (n + o) by lia.
  rewrite <- skipn_skipn. now rewrite !firstn_skipn.
Qed.

(** Writing at one range leaves the bytes of a disjoint range as they were. *)
Lemma region_disjoint_write (data new : bytes) oq op lp :
  oq + length new <= length data ->
  op + lp <= oq \/ oq + length new <= op ->
  firstn lp (skipn op (firstn oq data ++ new
                       ++ skipn (oq + length new) data))
  = firstn lp (skipn op data).
Proof.
  intros Hin Hd.
  assert (HA : length (firstn oq data) = oq) by (rewrite length_firstn; lia).
  set (d' := firstn oq data ++ new ++ skipn (oq + length new) data).
  rewrite (split_at_region data oq (length new)). unfold d'. clear d'.
  destruct Hd as [Hl|Hr].
  - rewrite !region_left by lia. reflexivity.
  - rewrite !region_right
      by (rewrite ?length_firstn, ?length_skipn; lia).
    f_equal. f_equal. rewrite !length_firstn, length_skipn. lia.
Qed.

Lemma patch_ok_inv off old new :
  patch_ok (off, old, new) = true -> length old = length new /\ old <> new.
Proof.
  unfold patch_ok. intros H. apply andb_prop in H as [H1 H2].
  apply Nat.eqb_eq in H1. split; [exact H1|].
  intros ->. rewrite (proj2 (bytes_eqb_eq new new) eq_refl) in H2.
  discriminate.
Qed.

Lemma apply_patch_length data p :
  patch_ok p = true -> length (fst (IpChanger.apply_patch data p)) = length data.
Proof.
  destruct p as [[off old] new]. intros H.
  apply patch_ok_inv in H as [Hl _].
  destruct (snd (IpChanger.apply_patch data (off, old, new))) eqn:E.
  - apply apply_patch_applied in E as (Hin & _ & ->).
    rewrite length_after_write by lia. lia.
  - now rewrite apply_patch_skipped.
Qed.

Lemma stays_after_self data p :
  patch_ok p = true -> stays p (fst (IpChanger.apply_patch data p)).
Proof.
  destruct p as [[off old] new]. intros H.
  apply patch_ok_inv in H as [Hl Hne]. unfold stays.
  destruct (apply_patch_twice data off old new Hl) as (_ & _ & H1 & H2).
  destruct (snd (IpChanger.apply_patch data (off, old, new))); auto.
Qed.

Lemma stays_iff data off old new :
  stays (off, old, new) data <->
  (N.to_nat off + length old <=? length data)
  && bytes_eqb (firstn (length old) (skipn (N.to_nat off) data)) old = false.
Proof.
  unfold stays. rewrite apply_patch_nat. cbv zeta.
  destruct (_ && _); cbn [snd]; split; auto.
Qed.

Lemma stays_preserved data p q :
  patch_ok q = true -> patch_disjoint p q = true ->
  stays p data -> stays p (fst (IpChanger.apply_patch data q)).
Proof.
  destruct p as [[op oldp] newp], q as [[oq oldq] newq].
  intros Hq Hd Hs. apply patch_ok_inv in Hq as [Hl _].
  destruct (snd (IpChanger.apply_patch data (oq, oldq, newq))) eqn:E;
    [|now rewrite apply_patch_skipped].
  apply apply_patch_applied in E as (Hin & _ & ->).
  apply stays_iff. apply stays_iff in Hs.
  rewrite length_after_write by lia.
  replace (length data + length newq - length oldq) with (length data) by lia.
  unfold patch_disjoint in Hd. apply orb_prop in Hd.
  rewrite Hl.
  rewrite region_disjoint_write; [exact Hs|lia|].
  destruct Hd as [Hd|Hd]; apply N.leb_le in Hd; lia.
Qed.

Lemma stays_preserved_list rest : forall data count p,
  forallb patch_ok rest = true -> forallb (patch_disjoint p) rest = true ->
  stays p data -> stays p (fst (IpChanger.apply_patches rest data count)).
Proof.
  induction rest as [|q rest IH]; intros data count p Hok Hd Hs; [exact Hs|].
  simpl in Hok, Hd. apply andb_prop in Hok as [Hq Hok].
  apply andb_prop in Hd as [Hpq Hd]. cbn [IpChanger.apply_patches].
  pose proof (stays_preserved data p q Hq Hpq Hs) as H1.
  destruct (IpChanger.apply_patch data q) as [data' applied]. cbn [fst] in H1.
  now apply IH.
Qed.

Lemma patches_wf_ok ps : patches_wf ps = true -> forallb patch_ok ps = true.
Proof.
  induction ps as [|p ps IH]; simpl; [reflexivity|].
  intros H. apply andb_prop in H as [H H3]. apply andb_prop in H as [H1 H2].
  now rewrite H1, IH.
Qed.

(** After a run over a well-formed list no entry finds anything to do. *)
Lemma all_stay_after_run ps : forall data count,
  patches_wf ps = true ->
  Forall (fun p => stays p (fst (IpChanger.apply_patches ps data count))) ps.
Proof.
  induction ps as [|p ps IH]; intros data count Hwf; [constructor|].
  pose proof Hwf as Hwf'. simpl in Hwf'.
  apply andb_prop in Hwf' as [H H3]. apply andb_prop in H as [H1 H2].
  cbn [IpChanger.apply_patches].
  pose proof (stays_after_self data p H1) as Hself.
  destruct (IpChanger.apply_patch data p) as [data' applied]. cbn [fst] in Hself.
  constructor.
  - apply stays_preserved_list; auto using patches_wf_ok.
  - now apply IH.
Qed.

Lemma run_when_all_stay ps : forall data count,
  Forall (fun p => stays p data) ps ->
  IpChanger.apply_patches ps data count = (data, count).
Proof.
  induction ps as [|p ps IH]; intros data count H; [reflexivity|].
  inversion H as [|? ? Hp Hps]; subst. cbn [IpChanger.apply_patches].
  unfold stays in Hp. pose proof (apply_patch_skipped data p Hp) as Hf.
  destruct (IpChanger.apply_patch data p) as [data' applied].
  cbn [fst snd] in *. subst. now apply IH.
Qed.

Lemma run_count ps : forall data count,
  count <= snd (IpChanger.apply_patches ps data count) /\
  (snd (IpChanger.apply_patches ps data count) = count ->
   fst (IpChanger.apply_patches ps data count) = data).
Proof.
  induction ps as [|p ps IH]; intros data count; [simpl; auto|].
  cbn [IpChanger.apply_patches].
  pose proof (apply_patch_skipped data p) as Hs.
  destruct (IpChanger.apply_patch data p) as [data' [|]]; cbn [fst snd] in Hs.
  - destruct (IH data' (S count)) as [H1 H2]. split; [lia|]. intros; lia.
  - destruct (IH data' count) as [H1 H2]. rewrite Hs in * by reflexivity.
    auto.
Qed.

(** A second call of [apply_latency_patches] on the file the first call
    left applies nothing, returns [False] and leaves the file as it is:
    for every well-formed patch list, and so for the list of the script. *)
Lemma apply_latency_patches_twice ps file :
  patches_wf ps = true ->
  IpChanger.apply_latency_patches_with ps
    (snd (IpChanger.apply_latency_patches_with ps file))
  = (false, snd (IpChanger.apply_latency_patches_with ps file)).
Proof.
  intros Hwf.
  assert (Hall : Forall (fun p => stays p
                   (snd (IpChanger.apply_latency_patches_with ps file))) ps).
  { unfold IpChanger.apply_latency_patches_with.
    pose proof (all_stay_after_run ps file 0 Hwf) as Ha.
    pose proof (run_count ps file 0) as [_ Hc].
    destruct (IpChanger.apply_patches ps file 0) as [data n].
    cbn [fst snd] in *.
    destruct n as [|n]; cbn [Nat.ltb Nat.leb snd]; [|exact Ha].
    now rewrite Hc in Ha. }
  unfold IpChanger.apply_latency_patches_with at 1.
  now rewrite run_when_all_stay.
Qed.

Lemma patches_well_formed : patches_wf IpChanger.patches = true.
Proof. vm_compute. reflexivity. Qed.

Lemma latency_patches_twice file :
  IpChanger.apply_latency_patches (snd (IpChanger.apply_latency_patches file))
  = (false, snd (IpChanger.apply_latency_patches file)).
Proof. apply apply_latency_patches_twice, patches_well_formed. Qed.

(** ** Directories come before what lies below them *)

Lemma startswith_app_inv {A} eqd (x p : list A) :
  startswith eqd x p = true -> exists t, x = p ++ t.
Proof.
  revert x. induction p as [|a p IH]; intros x; simpl.
  - intros _. now exists x.
  - destruct x as [|c x]; simpl; [discriminate|].
    destruct (eqd a c) as [->|]; [|discriminate].
    intros H. destruct (IH _ H) as [t ->]. now exists t.
Qed.

Lemma startswith_app_intro {A} eqd (p t : list A) :
  startswith eqd (p ++ t) p = true.
Proof.
  induction p as [|a p IH]; simpl; [now destruct t|].
  destruct (eqd a a); [exact IH|congruence].
Qed.

Lemma slash_free_no_slash name :
  slash_free name = true -> ~ In "/"%char name.
Proof.
  unfold slash_free. intros H Hin.
  apply negb_true_iff in H.
  assert (Hex : existsb (fun c => if ascii_eq_dec c "/"%char then true else false)
                  name = true).
  { apply existsb_exists. exists "/"%char. split; [exact Hin|].
    destruct (ascii_eq_dec "/"%char "/"%char); congruence. }
  congruence.
Qed.

(** Two texts cut at their first slash agree on both sides of it. *)
Lemma cut_at_slash (x y a c : str) :
  ~ In "/"%char x -> ~ In "/"%char y ->
  x ++ "/"%char :: a = y ++ "/"%char :: c -> x = y /\ a = c.
Proof.
  revert y. induction x as [|h x IH]; intros y Hx Hy H.
  - destruct y as [|k y]; simpl in H.
    + inversion H; auto.
    + inversion H; subst. exfalso. apply Hy. now left.
  - destruct y as [|k y]; simpl in H.
    + inversion H; subst. exfalso. apply Hx. now left.
    + inversion H; subst.
      destruct (IH y) as [-> ->]; auto.
      * intros Hin. apply Hx. now right.
      * intros Hin. apply Hy. now right.
Qed.

Lemma path_str_cons x (rest : path) :
  rest <> [] -> path_str (x :: rest) = x ++ "/"%char :: path_str rest.
Proof.
  destruct rest as [|y rest]; [congruence|]. intros _. reflexivity.
Qed.

(** A path whose text starts with the text of [p] and a slash lies below
    [p], when no name holds a slash. *)
Lemma below_is_prefix (p q : path) :
  p <> [] ->
  Forall (fun n => slash_free n = true) p ->
  Forall (fun n => slash_free n = true) q ->
  below (path_str p) (path_str q) = true ->
  exists r, r <> [] /\ q = p ++ r.
Proof.
  unfold below, str_startswith.
  revert q. induction p as [|x p IH]; intros q Hne Hp Hq H; [congruence|].
  inversion Hp as [|? ? Hx Hp']; subst.
  apply slash_free_no_slash in Hx.
  apply startswith_app_inv in H as [t Ht].
  destruct q as [|y q].
  { apply (f_equal (@Datatypes.length ascii)) in Ht.
    rewrite !length_app in Ht. change (length (s "/")) with 1 in Ht.
    change (length (path_str [])) with 0 in Ht. lia. }
  inversion Hq as [|? ? Hy Hq']; subst.
  apply slash_free_no_slash in Hy.
  destruct q as [|z q].
  - exfalso. apply Hy. change (path_str [y]) with y in Ht. rewrite Ht.
    destruct p as [|x' p].
    + change (path_str [x]) with x. rewrite <- app_assoc.
      apply in_or_app. right. now left.
    + rewrite (path_str_cons x (x' :: p)) by discriminate.
      rewrite <- !app_assoc. apply in_or_app. right. now left.
  - rewrite (path_str_cons y (z :: q)) in Ht by discriminate.
    destruct p as [|x' p].
    + change (path_str [x]) with x in Ht. rewrite <- app_assoc in Ht.
      change (s "/" ++ t) with ("/"%char :: t) in Ht.
      apply cut_at_slash in Ht as [-> _]; auto.
      exists (z :: q). split; [discriminate|reflexivity].
    + rewrite (path_str_cons x (x' :: p)) in Ht by discriminate.
      rewrite <- !app_assoc in Ht.
      change (("/"%char :: path_str (x' :: p)) ++ s "/" ++ t)
        with ("/"%char :: path_str (x' :: p) ++ s "/" ++ t) in Ht.
      apply cut_at_slash in Ht as [-> Ht]; auto.
      rewrite app_assoc in Ht.
      destruct (IH (z :: q)) as (r & Hr & Hq2); auto; [discriminate| |].
      * rewrite Ht. apply (startswith_app_intro ascii_eq_dec
                             (path_str (x' :: p) ++ s "/") t).
      * exists r. split; [exact Hr|]. simpl. now rewrite Hq2.
Qed.

Lemma node_ind_nested (P : node -> Prop) :
  (forall name st content, P (File name st content)) ->
  (forall name st children, Forall P children -> P (Dir name st children)) ->
  forall n, P n.
Proof.
  intros Hf Hd. fix IH 1. intros [name st content|name st children].
  - apply Hf.
  - apply Hd. induction children as [|c children IHc]; constructor.
    + apply IH.
    + exact IHc.
Qed.

Lemma path_snoc2 (top : path) (a c : str) : top ++ [a; c] = (top ++ [a]) ++ [c].
Proof. now rewrite <- app_assoc. Qed.

Lemma level_dirs (f : node -> path) (children : list node) :
  map fst (filter (fun e : path * node => is_dir (snd e))
             (map (fun c => (f c, c)) children))
  = map f (filter is_dir children).
Proof.
  induction children as [|c children IH]; simpl; [reflexivity|].
  destruct (is_dir c); simpl; now rewrite IH.
Qed.

Lemma rglob_dirs_spec n : forall top,
  map fst (filter (fun e : path * node => is_dir (snd e)) (rglob_dir top n))
  = rglob_dirs top n.
Proof.
  induction n as [name st content|name st children IH] using node_ind_nested;
    intros top; [reflexivity|].
  cbn [rglob_dir rglob_dirs]. rewrite filter_app, map_app. f_equal.
  - apply (level_dirs (fun c => top ++ [name; node_name c])).
  - induction IH as [|c children Hc _ IHl]; cbn [flat_map]; [reflexivity|].
    rewrite filter_app, map_app, Hc. f_equal. exact IHl.
Qed.

Lemma rglob_tree_dirs tree :
  map fst (filter (fun e : path * node => is_dir (snd e)) (rglob tree))
  = map (fun c => [node_name c]) (filter is_dir tree)
    ++ flat_map (rglob_dirs []) tree.
Proof.
  unfold rglob. rewrite filter_app, map_app. f_equal.
  - apply (level_dirs (fun c => [node_name c])).
  - induction tree as [|c tree IH]; cbn [flat_map]; [reflexivity|].
    rewrite filter_app, map_app, rglob_dirs_spec. f_equal. exact IH.
Qed.

Lemma ancestors_first_mono top l : forall seen seen',
  (forall x, In x seen -> In x seen') ->
  ancestors_first top seen l -> ancestors_first top seen' l.
Proof.
  induction l as [|q l IH]; intros seen seen' Hs; simpl; [auto|].
  intros [Hc Hl]. split.
  - intros p' r H1 H2 H3. apply Hs. now apply (Hc p' r).
  - apply (IH (q :: seen)); [|exact Hl].
    intros x [->|Hx]; [now left|right; now apply Hs].
Qed.

Lemma ancestors_first_app top a : forall seen l,
  ancestors_first top seen a -> ancestors_first top (a ++ seen) l ->
  ancestors_first top seen (a ++ l).
Proof.
  induction a as [|q a IH]; intros seen l Ha Hl; simpl in *; [exact Hl|].
  destruct Ha as [Hc Ha]. split; [exact Hc|].
  apply IH; [exact Ha|].
  apply (ancestors_first_mono top l (q :: a ++ seen)); [|exact Hl].
  intros x [->|Hx]; apply in_or_app.
  - right. now left.
  - apply in_app_or in Hx as [Hx|Hx]; [now left|right; now right].
Qed.

(** The paths one below [top] have no ancestor to wait for. *)
Lemma ancestors_first_level top (f : node -> str) children : forall seen,
  ancestors_first top seen (map (fun c => top ++ [f c]) children).
Proof.
  induction children as [|c children IH]; intros seen; simpl; [auto|].
  split; [|apply IH].
  intros p' r Hp Hr H. apply app_inv_head in H.
  destruct p' as [|a p']; [congruence|]. destruct p'; destruct r;
    try congruence; discriminate H.
Qed.

Lemma rglob_dirs_prefix n : forall top q,
  In q (rglob_dirs top n) -> exists q', q = top ++ node_name n :: q'.
Proof.
  induction n as [name st content|name st children IH] using node_ind_nested;
    intros top q; [intros []|].
  cbn [rglob_dirs node_name]. intros H. apply in_app_or in H as [H|H].
  - apply in_map_iff in H as (c & <- & _). exists [node_name c].
    reflexivity.
  - apply in_flat_map in H as (c & Hc & Hq).
    rewrite Forall_forall in IH.
    destruct (IH c Hc _ _ Hq) as [q' ->].
    exists (node_name c :: q'). now rewrite <- app_assoc.
Qed.

(** Below a directory that has been met, waiting for the ancestors below
    the directory is waiting for those below [top]. *)
Lemma ancestors_first_lift top name l : forall seen,
  In (top ++ [name]) seen ->
  (forall q, In q l -> exists q', q = top ++ name :: q') ->
  ancestors_first (top ++ [name]) seen l -> ancestors_first top seen l.
Proof.
  induction l as [|q l IH]; intros seen Hin Hpre; simpl; [auto|].
  intros [Hc Hl]. split.
  - intros p' r Hp Hr H.
    destruct (Hpre q (or_introl eq_refl)) as [q' Hq]. rewrite Hq in H.
    apply app_inv_head in H. destruct p' as [|a p'']; [congruence|].
    simpl in H. inversion H; subst a.
    destruct p'' as [|a' p''].
    + exact Hin.
    + replace (top ++ name :: a' :: p'') with ((top ++ [name]) ++ a' :: p'')
        by now rewrite <- app_assoc.
      apply (Hc (a' :: p'') r); [discriminate|exact Hr|].
      rewrite Hq, <- app_assoc. simpl. now f_equal; f_equal.
  - apply IH; [now right| |exact Hl].
    intros q0 Hq0. apply Hpre. now right.
Qed.

Lemma ancestors_first_children top children : forall seen,
  Forall (fun c => forall seen', In (top ++ [node_name c]) seen' ->
                   ancestors_first top seen' (rglob_dirs top c)) children ->
  (forall c, In c children -> is_dir c = true ->
             In (top ++ [node_name c]) seen) ->
  ancestors_first top seen (flat_map (rglob_dirs top) children).
Proof.
  induction children as [|c children IH]; intros seen Hall Hseen; simpl;
    [auto|].
  inversion Hall as [|? ? Hc Hrest]; subst.
  apply ancestors_first_app.
  - destruct c as [name st content|name st sub]; [exact I|].
    apply Hc. apply Hseen; [now left|reflexivity].
  - apply IH; [exact Hrest|].
    intros c' Hc' Hd. apply in_or_app. right. apply Hseen; [now right|exact Hd].
Qed.

Lemma ancestors_first_node n : forall top seen,
  In (top ++ [node_name n]) seen ->
  ancestors_first top seen (rglob_dirs top n).
Proof.
  induction n as [name st content|name st children IH] using node_ind_nested;
    intros top seen Hin; [exact I|].
  cbn [node_name] in Hin.
  apply (ancestors_first_lift top name); [exact Hin| |].
  - intros q Hq. apply (rglob_dirs_prefix (Dir name st children)). exact Hq.
  - cbn [rglob_dirs].
    replace (map (fun c => top ++ [name; node_name c]) (filter is_dir children))
      with (map (fun c => (top ++ [name]) ++ [node_name c])
              (filter is_dir children))
      by (apply map_ext; intros; now rewrite <- app_assoc).
    apply ancestors_first_app.
    + apply ancestors_first_level.
    + apply ancestors_first_children.
      * rewrite Forall_forall in *. intros c Hc seen'. now apply IH.
      * intros c Hc Hd. apply in_or_app. left.
        apply in_map_iff. exists c. split; [reflexivity|].
        apply filter_In. now split.
Qed.

Lemma ancestors_first_tree tree :
  ancestors_first [] []
    (map (fun c => [node_name c]) (filter is_dir tree)
     ++ flat_map (rglob_dirs []) tree).
Proof.
  apply ancestors_first_app.
  - apply (ancestors_first_level [] node_name).
  - apply ancestors_first_children.
    + rewrite Forall_forall. intros c _ seen'. apply ancestors_first_node.
    + intros c Hc Hd. apply in_or_app. left.
      apply in_map_iff. exists c. split; [reflexivity|].
      apply filter_In. now split.
Qed.

(** Every directory of the tree is among the directories of [rglob]. *)
Lemma dirs_of_listed n : forall top p,
  In p (dirs_of top n) ->
  p = top ++ [node_name n] \/ In p (rglob_dirs top n).
Proof.
  induction n as [name st content|name st children IH] using node_ind_nested;
    intros top p; [intros []|].
  cbn [dirs_of rglob_dirs node_name]. intros [<-|H]; [now left|right].
  apply in_flat_map in H as (c & Hc & Hp).
  rewrite Forall_forall in IH.
  destruct (IH c Hc _ _ Hp) as [->|Hin]; apply in_or_app.
  - left. apply in_map_iff. exists c. split; [now rewrite <- app_assoc|].
    apply filter_In. split; [exact Hc|].
    destruct c; [destruct Hp|reflexivity].
  - right. apply in_flat_map. now exists c.
Qed.

Lemma tree_dirs_listed tree p :
  In p (flat_map (dirs_of []) tree) ->
  p <> [] /\
  In p (map (fun c => [node_name c]) (filter is_dir tree)
        ++ flat_map (rglob_dirs []) tree).
Proof.
  intros H. apply in_flat_map in H as (c & Hc & Hp).
  destruct (dirs_of_listed c [] p Hp) as [->|Hin].
  - split; [discriminate|]. apply in_or_app. left.
    apply in_map_iff. exists c. split; [reflexivity|].
    apply filter_In. split; [exact Hc|].
    destruct c; [destruct Hp|reflexivity].
  - split.
    + destruct (rglob_dirs_prefix c [] p Hin) as [q' ->]. discriminate.
    + apply in_or_app. right. apply in_flat_map. now exists c.
Qed.

Lemma rglob_dirs_names n : forall top q,
  names_ok n = true -> Forall (fun x => slash_free x = true) top ->
  In q (rglob_dirs top n) -> Forall (fun x => slash_free x = true) q.
Proof.
  induction n as [name st content|name st children IH] using node_ind_nested;
    intros top q Hok Htop; [intros []|].
  cbn [names_ok node_name] in Hok. apply andb_prop in Hok as [Hname Hch].
  rewrite forallb_forall in Hch. rewrite Forall_forall in IH.
  assert (Htop' : Forall (fun x => slash_free x = true) (top ++ [name]))
    by (apply Forall_app; split; [exact Htop|now constructor]).
  cbn [rglob_dirs]. intros H. apply in_app_or in H as [H|H].
  - apply in_map_iff in H as (c & <- & Hc). apply filter_In in Hc as [Hc _].
    rewrite path_snoc2. apply Forall_app. split; [exact Htop'|].
    constructor; [|constructor].
    specialize (Hch c Hc). destruct c; cbn [names_ok node_name] in *;
      now apply andb_prop in Hch as [Hn _].
  - apply in_flat_map in H as (c & Hc & Hq).
    apply (IH c Hc (top ++ [name])); auto.
Qed.

Lemma tree_dirs_names tree q :
  forallb names_ok tree = true ->
  In q (map (fun c => [node_name c]) (filter is_dir tree)
        ++ flat_map (rglob_dirs []) tree) ->
  Forall (fun x => slash_free x = true) q.
Proof.
  intros Hok H. rewrite forallb_forall in Hok.
  apply in_app_or in H as [H|H].
  - apply in_map_iff in H as (c & <- & Hc). apply filter_In in Hc as [Hc _].
    constructor; [|constructor].
    specialize (Hok c Hc). destruct c; cbn [names_ok node_name] in *;
      now apply andb_prop in Hok as [Hn _].
  - apply in_flat_map in H as (c & Hc & Hq).
    apply (rglob_dirs_names c [] q); auto.
Qed.

(** In a list of paths that puts ancestors first, the text of a listed
    path is met before the text of any path below it. *)
Lemma first_hit_listed (p : path) l : forall seen,
  p <> [] ->
  ancestors_first [] seen l ->
  (forall x, In x seen -> path_str x <> path_str p) ->
  (forall q, In q l -> Forall (fun x => slash_free x = true) q) ->
  In p l ->
  first_hit (path_str p) (map path_str l) = true.
Proof.
  intros seen Hne. revert seen.
  induction l as [|q l IH]; intros seen Haf Hseen Hnames Hin; [destruct Hin|].
  cbn [map first_hit]. destruct Haf as [Hc Haf].
  destruct (str_eqb (path_str q) (path_str p)) eqn:E; [reflexivity|].
  assert (Hqp : path_str q <> path_str p).
  { intros Heq. apply str_eqb_eq in Heq. congruence. }
  assert (Hb : below (path_str p) (path_str q) = false).
  { destruct (below (path_str p) (path_str q)) eqn:Eb; [|reflexivity].
    exfalso.
    destruct (below_is_prefix p q Hne) as (r & Hr & Hq);
      try (apply Hnames; first [exact Hin | now left]); [exact Eb|].
    apply (Hseen p); [|reflexivity].
    apply (Hc p r Hne Hr). exact Hq. }
  rewrite Hb. cbn [negb andb].
  apply (IH (q :: seen)); auto.
  - intros x [<-|Hx]; [exact Hqp|now apply Hseen].
  - intros q0 Hq0. apply Hnames. now right.
  - destruct Hin as [<-|Hin]; [congruence|exact Hin].
Qed.

Lemma dir_entry_first_dirs p (entries : list (path * node)) rest :
  (forall e, In e entries -> is_dir (snd e) = true) ->
  first_hit p (map (fun e => path_str (fst e)) entries) = true ->
  dir_entry_first p (map node_entry entries ++ rest) = true.
Proof.
  induction entries as [|[q n] entries IH]; intros Hd H; [discriminate H|].
  cbn [map app dir_entry_first first_hit fst] in *.
  assert (Hn : is_dir n = true) by (apply (Hd (q, n)); now left).
  destruct n as [|name st children]; [discriminate Hn|].
  cbn [node_entry plain_info snd fst ti_name ti_type].
  destruct (str_eqb (path_str q) p); [reflexivity|].
  apply andb_prop in H as [H1 H2]. rewrite H1. cbn [andb].
  apply IH; [|exact H2]. intros e He. apply Hd. now right.
Qed.

(** The first loop of [deb_packer]: directories are archived as they are
    and leave the inodes of the archive as they were. *)
Lemma add_each_dirs l : forall inodes,
  (forall e, In e l -> is_dir (snd e) = true) ->
  add_each DebPacker.tar_add inodes l = (map node_entry l, inodes).
Proof.
  induction l as [|[q n] l IH]; intros inodes Hd; [reflexivity|].
  assert (Hn : is_dir n = true) by (apply (Hd (q, n)); now left).
  destruct n as [|name st children]; [discriminate Hn|].
  cbn [add_each DebPacker.tar_add gettarinfo snd fst].
  rewrite IH by (intros e He; apply Hd; now right). reflexivity.
Qed.

Lemma build_entries_dirs tree :
  DebPacker.build_entries tree
  = map node_entry (filter (fun e => is_dir (snd e)) (rglob tree))
    ++ fst (add_each DebPacker.tar_add []
              (filter (fun e => is_file (snd e)) (rglob tree))).
Proof.
  unfold DebPacker.build_entries.
  rewrite add_each_dirs by (intros e He; now apply filter_In in He as [_ He]).
  now destruct (add_each DebPacker.tar_add [] _).
Qed.

(** For a tree whose names hold no slash, the archives built by
    [deb_packer.build_data_tar] (and [build_control_tar]) hold, for every
    directory of the tree, empty or not, a directory entry in front of all
    entries below it. *)
Lemma deb_packer_dirs_first tree :
  forallb names_ok tree = true ->
  dirs_before_descendants tree (DebPacker.build_data_tar tree) = true /\
  forall now,
    dirs_before_descendants tree
      (gz_entries (DebPacker.build_control_tar now tree)) = true.
Proof.
  intros Hok.
  assert (H : dirs_before_descendants tree (DebPacker.build_entries tree) = true);
    [|split; [exact H|intros now; exact H]].
  unfold dirs_before_descendants, tree_dirs. apply forallb_forall.
  intros ps Hps. apply in_map_iff in Hps as (p & <- & Hp).
  apply tree_dirs_listed in Hp as [Hne Hin].
  rewrite build_entries_dirs. apply dir_entry_first_dirs.
  - intros e He. now apply filter_In in He as [_ He].
  - rewrite <- (map_map fst path_str), rglob_tree_dirs.
    apply (first_hit_listed p _ []);
      [ exact Hne
      | apply ancestors_first_tree
      | intros x Hx; destruct Hx
      | intros q Hq; now apply (tree_dirs_names tree)
      | exact Hin ].
Qed.

(** * Further properties of the code *)

(** ** Writing members *)

Lemma header_length name n :
  length name <= 16 ->
  length (ljust name 16 ++ ljust (s "0") 12 ++ ljust (s "0") 6
          ++ ljust (s "0") 6 ++ ljust (s "100644") 8
          ++ ljust (str_of_nat n) 10 ++ ["`"%char; NL])
  = 50 + Nat.max 10 (length (str_of_nat n)).
Proof.
  intros H. rewrite !length_app, !length_ljust.
  change (length (s "0")) with 1. change (length (s "100644")) with 6.
  change (length ["`"%char; NL]) with 2. lia.
Qed.

Lemma header_ascii name n :
  forallb is_ascii_char
    (ljust name 16 ++ ljust (s "0") 12 ++ ljust (s "0") 6
     ++ ljust (s "0") 6 ++ ljust (s "100644") 8
     ++ ljust (str_of_nat n) 10 ++ ["`"%char; NL])
  = forallb is_ascii_char name.
Proof.
  rewrite !forallb_app, !forallb_ljust.
  assert (Hd : forallb is_ascii_char (str_of_nat n) = true).
  { rewrite forallb_forall. intros c Hc. apply digit_ascii.
    pose proof (chars_of_uint_all_digits (Nat.to_uint n)) as Hall.
    rewrite forallb_forall in Hall. now apply Hall. }
  rewrite Hd. change (forallb is_ascii_char (s "0")) with true.
  change (forallb is_ascii_char (s "100644")) with true.
  change (forallb is_ascii_char ["`"%char; NL]) with true.
  now rewrite !andb_true_r.
Qed.

Lemma add_ar_member_cases (ar : bytes) (name : str) (content : bytes) :
  (16 < length name ->
   DebPacker._add_ar_member ar name content = Raise ValueError) /\
  (length name <= 16 -> forallb is_ascii_char name = false ->
   DebPacker._add_ar_member ar name content = Raise UnicodeEncodeError) /\
  (length name <= 16 -> forallb is_ascii_char name = true ->
   ~ fits_size_field content ->
   DebPacker._add_ar_member ar name content = Raise RuntimeError) /\
  (member_ok (name, content) ->
   exists hdr, length hdr = 60 /\
     DebPacker._add_ar_member ar name content
     = Ok (ar ++ hdr ++ content ++ pad_of content)).
Proof.
  unfold member_ok, fits_size_field, DebPacker._add_ar_member. cbn [fst snd].
  repeat split.
  - intros H. destruct (Nat.ltb_spec 16 (length name)); [reflexivity|lia].
  - intros H Ha. destruct (Nat.ltb_spec 16 (length name)); [lia|].
    unfold encode_ascii. now rewrite header_ascii, Ha.
  - intros H Ha Hf. destruct (Nat.ltb_spec 16 (length name)); [lia|].
    unfold encode_ascii. rewrite header_ascii, Ha. cbn [bind].
    rewrite length_map, header_length by exact H.
    destruct (Nat.eqb_spec (50 + Nat.max 10 (length (str_of_nat (length content))))
                60); [lia|reflexivity].
  - intros (H & Ha & Hf). destruct (Nat.ltb_spec 16 (length name)); [lia|].
    unfold encode_ascii. rewrite header_ascii, Ha. cbn [bind].
    rewrite length_map, header_length by exact H.
    destruct (Nat.eqb_spec (50 + Nat.max 10 (length (str_of_nat (length content))))
                60); [|lia].
    cbn [negb]. eexists. split; [|reflexivity].
    rewrite length_map, header_length by exact H. lia.
Qed.

(** [_add_ar_member] raises [ValueError] for a name of more than sixteen
    characters, [UnicodeEncodeError] for a name that is not ASCII, and
    [RuntimeError] for a content whose size does not fit the size field; in
    every other case it appends sixty bytes of header, the content and the
    padding. *)
Theorem add_ar_member_outcome (ar : bytes) (name : str) (content : bytes) :
  (16 < length name ->
   DebPacker._add_ar_member ar name content = Raise ValueError) /\
  (length name <= 16 -> forallb is_ascii_char name = false ->
   DebPacker._add_ar_member ar name content = Raise UnicodeEncodeError) /\
  (length name <= 16 -> forallb is_ascii_char name = true ->
   ~ fits_size_field content ->
   DebPacker._add_ar_member ar name content = Raise RuntimeError) /\
  (member_ok (name, content) ->
   exists hdr, length hdr = 60 /\
     DebPacker._add_ar_member ar name content
     = Ok (ar ++ hdr ++ content ++ pad_of content)).
Proof. exact (add_ar_member_cases ar name content). Qed.


Lemma add_ar_member_outcome_witness :
  DebPacker._add_ar_member [] (s "a-name-of-17-char") [] = Raise ValueError /\
  DebPacker._add_ar_member [] [ascii_of_nat 233] [] = Raise UnicodeEncodeError /\
  exists hdr, length hdr = 60 /\
    DebPacker._add_ar_member [] (s "debian-binary") STAMP
    = Ok ([] ++ hdr ++ STAMP ++ pad_of STAMP).
Proof.
  split; [|split].
  - apply (proj1 (add_ar_member_outcome [] (s "a-name-of-17-char") [])).
    vm_compute. repeat constructor.
  - apply (proj1 (proj2 (add_ar_member_outcome [] [ascii_of_nat 233] [])));
      [vm_compute; repeat constructor | vm_compute; reflexivity].
  - apply (proj2 (proj2 (proj2 (add_ar_member_outcome [] (s "debian-binary")
                                  STAMP)))).
    unfold member_ok, fits_size_field.
    repeat split; vm_compute; try reflexivity; repeat constructor.
Defined.

Lemma add_ar_member_ok_iff ar name content :
  (exists out, DebPacker._add_ar_member ar name content = Ok out)
  <-> member_ok (name, content).
Proof.
  split.
  - intros [out H]. destruct (add_ar_member_inv _ _ _ _ H)
      as (Hl & Ha & hdr & H60 & _ & _ & _).
    unfold member_ok. cbn [fst snd]. repeat split; auto.
    unfold fits_size_field.
    unfold DebPacker._add_ar_member in H.
    destruct (16 <? length name); [discriminate|].
    destruct (encode_ascii _) as [h|] eqn:E; [|discriminate].
    apply decode_encode in E as [-> _]. cbn [bind] in H.
    rewrite length_map, header_length in H by exact Hl.
    destruct (Nat.eqb_spec (50 + Nat.max 10 (length (str_of_nat (length content))))
                60); [lia|discriminate].
  - intros H.
    destruct (proj2 (proj2 (proj2 (add_ar_member_cases ar name content))) H)
      as (hdr & _ & Hout).
    eauto.
Qed.

Lemma add_members_ok_iff c : forall ar,
  (exists out, add_members ar c = Ok out) <-> Forall member_ok c.
Proof.
  induction c as [|[name content] c IH]; intros ar; cbn [add_members].
  - split; [constructor|eauto].
  - split.
    + intros [out H].
      destruct (DebPacker._add_ar_member ar name content) as [ar1|] eqn:E;
        [|discriminate]. cbn [bind] in H. constructor.
      * apply (add_ar_member_ok_iff ar). eauto.
      * apply (IH ar1). eauto.
    + intros H. inversion H as [|? ? Hm Hc]; subst.
      apply (add_ar_member_ok_iff ar) in Hm as [ar1 ->]. cbn [bind].
      now apply IH.
Qed.

Lemma length_pad_of content : length (pad_of content) = length content mod 2.
Proof.
  unfold pad_of.
  assert (H : length content mod 2 < 2) by (apply Nat.mod_upper_bound; lia).
  destruct (Nat.eqb_spec (length content mod 2) 1) as [->|];
    cbn [length]; lia.
Qed.

Lemma add_members_length c : forall ar out,
  add_members ar c = Ok out ->
  length out = length ar + list_sum (map (fun m => member_size (snd m)) c).
Proof.
  induction c as [|[name content] c IH]; intros ar out; cbn [add_members].
  - intros H. inversion H; subst. simpl. lia.
  - destruct (DebPacker._add_ar_member ar name content) as [ar1|] eqn:E;
      [|discriminate]. cbn [bind]. intros H.
    apply IH in H. rewrite H.
    destruct (add_ar_member_inv _ _ _ _ E) as (_ & _ & hdr & H60 & -> & _).
    rewrite !length_app, length_pad_of, H60.
    change (list_sum (map (fun m => member_size (snd m)) ((name, content) :: c)))
      with (member_size content + list_sum (map (fun m => member_size (snd m)) c)).
    unfold member_size. lia.
Qed.

Lemma member_size_even content : Nat.even (member_size content) = true.
Proof.
  unfold member_size. generalize (length content) as n. intros n.
  rewrite !Nat.even_add. change (Nat.even 60) with true.
  rewrite <- Nat.bit0_mod, Nat.bit0_odd, <- Nat.negb_even.
  change (Nat.b2n (negb (Nat.even n))) with (if negb (Nat.even n) then 1 else 0).
  now destruct (Nat.even n).
Qed.

(** [Write] succeeds exactly on the containers whose members all have a
    name of at most sixteen ASCII characters and a size that fits the size
    field. *)
Theorem Write_ok_iff (c : Container) :
  (exists out, Write c = Ok out) <-> Forall member_ok c.
Proof. apply add_members_ok_iff. Qed.

(** A written container is the eight bytes of magic followed, for every
    member, by sixty bytes of header, the content and one byte of padding
    after content of odd length; every member, and so every header, starts
    at an even offset. *)
Theorem written_size (c : Container) (out : bytes) :
  Write c = Ok out ->
  length out = 8 + list_sum (map (fun m => member_size (snd m)) c) /\
  Nat.even (length out) = true.
Proof.
  intros H. apply add_members_length in H.
  change (length AR_MAGIC) with 8 in H. split; [exact H|].
  rewrite H. clear H. rewrite Nat.even_add. change (Nat.even 8) with true.
  induction c as [|m c IH]; [reflexivity|].
  change (list_sum (map (fun m => member_size (snd m)) (m :: c)))
    with (member_size (snd m) + list_sum (map (fun m => member_size (snd m)) c)).
  rewrite Nat.even_add, member_size_even.
  cbn [Bool.eqb] in *. destruct (Nat.even (list_sum _)); auto.
Qed.

Lemma written_size_witness :
  exists out,
    Write [(s "debian-binary", STAMP); (s "x", b "abc")] = Ok out /\
    length out = 8 + (64 + 64) /\ Nat.even (length out) = true.
Proof.
  eexists. split; [vm_compute; reflexivity|].
  match goal with
  | |- length ?o = _ /\ _ =>
      destruct (written_size [(s "debian-binary", STAMP); (s "x", b "abc")] o
                  eq_refl) as [H1 H2]
  end.
  split; [rewrite H1; reflexivity | exact H2].
Defined.

(** ** Looking a member up *)

Lemma extract_loop_member member_name fuel name content hdr rest :
  forallb is_ascii_char name = true ->
  length hdr = 60 ->
  firstn 16 hdr = map byte_of_ascii (ljust name 16) ->
  firstn 10 (skipn 48 hdr)
    = map byte_of_ascii (ljust (str_of_nat (length content)) 10) ->
  extract_loop member_name (S fuel) (hdr ++ content ++ pad_of content ++ rest)
  = if str_eqb (strip name) member_name then Some (Ok content)
    else extract_loop member_name fuel rest.
Proof.
  intros Ha H60 Hn Hs. cbn [extract_loop].
  rewrite fread_header by exact H60.
  destruct hdr as [|h0 hdr'] eqn:Eh; [discriminate H60|]. rewrite <- Eh in *.
  rewrite H60. cbn [Nat.eqb negb].
  change (60 =? 60) with true. cbn [negb].
  rewrite Hn, Hs, !decode_ascii_map
    by (apply (size_ascii content) || (rewrite forallb_ljust; exact Ha)).
  cbn [bind].
  assert (Hz : strip (ljust (str_of_nat (length content)) 10)
               = str_of_nat (length content)).
  { pose proof (strip_ljust_digits (length content) 10) as H.
    destruct (strip (ljust (str_of_nat (length content)) 10)) eqn:E;
      [|exact H].
    exfalso. cbn [or_zero] in H.
    pose proof (chars_of_uint_nonnil _ (to_uint_nonnil (length content))) as Hne.
    unfold str_of_nat in E. rewrite strip_ljust, strip_digits in E
      by apply chars_of_uint_all_digits. congruence. }
  rewrite Hz, py_int_str_of_nat. cbn [bind].
  now rewrite read_body_exact, strip_ljust.
Qed.

Lemma extract_loop_written member_name c : forall ar out,
  add_members ar c = Ok out ->
  exists body, out = ar ++ body /\
    forall fuel, length body < fuel ->
      extract_loop member_name fuel body
      = Some (match find_member (fun n => str_eqb (strip n) member_name) c with
              | Some (_, d) => Ok d
              | None => Raise ValueError
              end).
Proof.
  induction c as [|[name content] c' IH]; intros ar out; cbn [add_members].
  - intros H; inversion H. exists []. split; [now rewrite app_nil_r|].
    intros [|fuel] Hf; [inversion Hf|]. reflexivity.
  - destruct (DebPacker._add_ar_member ar name content) as [ar1|] eqn:E;
      [|discriminate]. cbn [bind]. intros H.
    destruct (add_ar_member_inv _ _ _ _ E)
      as (Hl & Ha & hdr & H60 & -> & Hn & Hs).
    destruct (IH _ _ H) as (body & -> & Hread).
    exists (hdr ++ content ++ pad_of content ++ body). split.
    + now rewrite <- !app_assoc.
    + intros [|fuel] Hf; [inversion Hf|].
      rewrite (extract_loop_member member_name fuel name content hdr body
                 Ha H60 Hn Hs).
      cbn [find_member].
      destruct (str_eqb (strip name) member_name); [reflexivity|].
      apply Hread. rewrite !length_app in Hf. lia.
Qed.

Lemma extract_member_written (c : Container) (out : bytes) (member_name : str) :
  Write c = Ok out ->
  extract_ar_member out member_name
  = Some (match find_member (fun n => str_eqb (strip n) member_name) c with
          | Some (_, d) => Ok d
          | None => Raise ValueError
          end).
Proof.
  intros H.
  destruct (extract_loop_written member_name c _ _ H) as (body & -> & Hread).
  unfold extract_ar_member. rewrite fread_magic.
  replace (bytes_eqb AR_MAGIC AR_MAGIC) with true
    by (symmetry; now apply bytes_eqb_eq).
  cbn [negb]. apply Hread. lia.
Qed.

(** On a file written by [Write], [extract_ar_member] returns the content
    of the first member whose name, stripped, is the name asked for, and
    raises [ValueError] when there is none. *)
Theorem extract_written_member (c : Container) (out : bytes) (member_name : str) :
  Write c = Ok out ->
  extract_ar_member out member_name
  = Some (match find_member (fun n => str_eqb (strip n) member_name) c with
          | Some (_, d) => Ok d
          | None => Raise ValueError
          end).
Proof. exact (extract_member_written c out member_name). Qed.

Lemma extract_written_member_witness :
  exists out,
    Write [(s "debian-binary", STAMP); (s "control.tar.gz", b "ctl")] = Ok out /\
    extract_ar_member out (s "control.tar.gz") = Some (Ok (b "ctl")) /\
    extract_ar_member out (s "data.tar.lzma") = Some (Raise ValueError).
Proof.
  eexists. split; [vm_compute; reflexivity|].
  split;
    match goal with
    | |- extract_ar_member ?o ?n = _ =>
        rewrite (extract_written_member
                   [(s "debian-binary", STAMP); (s "control.tar.gz", b "ctl")]
                   o n eq_refl)
    end; vm_compute; reflexivity.
Defined.

Lemma extract_loop_total member_name : forall fuel f,
  length f < fuel -> exists r, extract_loop member_name fuel f = Some r.
Proof.
  induction fuel as [|fuel IH]; intros f Hf; [lia|].
  cbn [extract_loop].
  destruct (fread 60 f) as [[hdr f1]|] eqn:E; [|eauto].
  destruct hdr as [|h0 hdr']; [eauto|].
  destruct (Nat.eqb_spec (length (h0 :: hdr')) 60) as [H60|]; cbn [negb];
    [|eauto].
  assert (Hl : (length (h0 :: hdr') <? 60) = false)
    by (apply Nat.ltb_ge; lia).
  pose proof (fread_60 _ _ _ E Hl) as Hlen.
  destruct (decode_ascii (firstn 16 _)); cbn [bind]; [|eauto].
  destruct (decode_ascii (firstn 10 _)); cbn [bind]; [|eauto].
  destruct (py_int _) as [size|]; cbn [bind]; [|eauto].
  destruct (read_body size f1) as [[content f2]|] eqn:Eb; cbn [bind];
    [|eauto].
  apply read_body_shrinks in Eb.
  destruct (str_eqb _ member_name); [eauto|].
  apply IH. lia.
Qed.

(** The three readers of the container format return, with a result or
    with an exception, on every file: each turn of their loops consumes a
    header, so the loops end. *)
Theorem readers_return (file : bytes) (member_name : str) :
  (exists r, ValidateDeb.read_members file = Some r) /\
  (exists r, IpChanger._read_ar_members file = Some r) /\
  (exists r, extract_ar_member file member_name = Some r).
Proof.
  destruct (read_members_total file) as [H1 H2].
  split; [exact H1|]. split; [exact H2|].
  unfold extract_ar_member. destruct (fread 8 file) as [[magic f]|]; [|eauto].
  destruct (negb (bytes_eqb magic AR_MAGIC)); [eauto|].
  apply extract_loop_total. lia.
Qed.

(** ** The validator *)

Lemma existsb_str_In x l : existsb (str_eqb x) l = true <-> In x l.
Proof.
  rewrite existsb_exists. split.
  - intros (y & Hy & E). apply str_eqb_eq in E. now subst.
  - intros H. exists x. split; [exact H|]. now apply str_eqb_eq.
Qed.

Lemma find_member_some p members n d :
  find_member p members = Some (n, d) -> In (n, d) members /\ p n = true.
Proof.
  induction members as [|[n' d'] members IH]; cbn [find_member];
    [discriminate|].
  destruct (p n') eqn:E.
  - intros H; inversion H; subst. split; [now left|exact E].
  - intros H. apply IH in H as [H1 H2]. split; [now right|exact H2].
Qed.

Lemma check_pass getnames members :
  ValidateDeb.check getnames members = ValidateDeb.PASS ->
  (exists rest, members = (s "debian-binary", STAMP) :: rest) /\
  (exists data_name data,
     find_member (fun n => str_startswith n (s "data.tar")) members
     = Some (data_name, data) /\
     firstn 2 (ValidateDeb.member_data (str_eqb data_name) members)
     <> [xfd; x37]) /\
  (exists names,
     getnames (ValidateDeb.member_data (str_eqb (s "control.tar.gz")) members)
     = Ok names /\
     In (s "control") names) /\
  In (s "control.tar.gz") (map fst members).
Proof.
  unfold ValidateDeb.check.
  destruct (list_eq_dec (list_eq_dec ascii_eq_dec)
              (firstn 1 (map fst members)) [s "debian-binary"])
    as [Hfirst|]; cbn [negb]; [|discriminate].
  destruct (existsb (str_eqb (s "control.tar.gz")) (map fst members)) eqn:Ec;
    cbn [negb]; [|discriminate].
  destruct (find_member _ members) as [[data_name data]|] eqn:Ed;
    [|discriminate].
  destruct (bytes_eqb (ValidateDeb.member_data _ members) STAMP) eqn:Es;
    cbn [negb]; [|discriminate].
  match goal with
  | |- (if ?c then _ else _) = _ -> _ => destruct c eqn:Esig; [discriminate|]
  end.
  destruct (getnames _) as [names|] eqn:Eg; [|discriminate].
  destruct (existsb (str_eqb (s "control")) names) eqn:En; [|discriminate].
  intros _. apply bytes_eqb_eq in Es. apply existsb_str_In in Ec, En.
  repeat split.
  - destruct members as [|[n0 d0] rest]; [discriminate Hfirst|].
    cbn [map firstn fst] in Hfirst. inversion Hfirst; subst n0.
    exists rest. unfold ValidateDeb.member_data in Es. cbn [find_member] in Es.
    rewrite (proj2 (str_eqb_eq _ _) eq_refl) in Es. now subst d0.
  - exists data_name, data. split; [reflexivity|].
    intros Hxz. rewrite firstn_firstn in Esig.
    change (Nat.min 2 6) with 2 in Esig. rewrite Hxz in Esig.
    apply andb_false_iff in Esig as [Esig|Esig].
    + apply negb_false_iff in Esig.
      apply startswith_app_inv in Esig as [t Ht].
      apply (f_equal (firstn 1)) in Ht. rewrite firstn_firstn in Ht.
      cbn [Nat.min] in Ht.
      apply (f_equal (firstn 1)) in Hxz. rewrite firstn_firstn in Hxz.
      cbn [Nat.min] in Hxz. rewrite Hxz in Ht. discriminate Ht.
    + apply orb_false_iff in Esig as [_ Esig].
      change (bytes_eqb [xfd; x37] [xfd; x37]) with true in Esig.
      discriminate Esig.
  - exists names. now split.
  - exact Ec.
Qed.

(** When the checks of [validate_deb.main] pass, the package has
    debian-binary with the content ["2.0\n"] as its first member, a member
    control.tar.gz whose archive lists a file [control], and a data member
    whose bytes do not start with the two bytes [FD 37] of the xz magic. *)
Theorem validate_pass_sound getnames (members : Container) :
  ValidateDeb.check getnames members = ValidateDeb.PASS ->
  (exists rest, members = (s "debian-binary", STAMP) :: rest) /\
  (exists data_name data,
     find_member (fun n => str_startswith n (s "data.tar")) members
     = Some (data_name, data) /\
     firstn 2 (ValidateDeb.member_data (str_eqb data_name) members)
     <> [xfd; x37]) /\
  (exists names,
     getnames (ValidateDeb.member_data (str_eqb (s "control.tar.gz")) members)
     = Ok names /\
     In (s "control") names) /\
  In (s "control.tar.gz") (map fst members).
Proof. exact (check_pass getnames members). Qed.

Lemma validate_pass_sound_witness :
  ValidateDeb.check (fun _ => Ok [s "control"])
    [(s "debian-binary", STAMP); (s "control.tar.gz", b "c");
     (s "data.tar.lzma", ALONE_HEADER)] = ValidateDeb.PASS /\
  In (s "control.tar.gz")
    (map fst [(s "debian-binary", STAMP); (s "control.tar.gz", b "c");
              (s "data.tar.lzma", ALONE_HEADER)]).
Proof.
  split; [vm_compute; reflexivity|].
  apply (validate_pass_sound (fun _ => Ok [s "control"])
           [(s "debian-binary", STAMP); (s "control.tar.gz", b "c");
            (s "data.tar.lzma", ALONE_HEADER)]).
  vm_compute; reflexivity.
Defined.

Lemma check_canonical getnames (stamp control data : bytes) :
  ValidateDeb.check getnames
    [(s "debian-binary", stamp); (s "control.tar.gz", control);
     (s "data.tar.lzma", data)]
  = if negb (bytes_eqb stamp STAMP) then ValidateDeb.FAIL_wrong_stamp
    else if negb (bytes_startswith (firstn 6 data) [x5d; x00; x00])
            && (bytes_startswith (firstn 6 data) [xfd; x37; x7a; x58; x5a]
                || bytes_eqb (firstn 2 (firstn 6 data)) [xfd; x37])
         then ValidateDeb.FAIL_xz_container
         else match getnames control with
              | Raise _ => ValidateDeb.FAIL_control_unreadable
              | Ok names =>
                  if existsb (str_eqb (s "control")) names
                  then ValidateDeb.PASS
                  else ValidateDeb.FAIL_control_file_missing
              end.
Proof. reflexivity. Qed.

Lemma startswith_firstn_more {A} eqd (x p : list A) n :
  length p <= n -> startswith eqd (firstn n x) p = startswith eqd x p.
Proof.
  revert x n. induction p as [|a p IH]; intros x n Hn.
  - destruct x, n; reflexivity.
  - destruct n as [|n]; [simpl in Hn; lia|].
    destruct x as [|c x]; [reflexivity|]. cbn [firstn startswith].
    destruct (eqd a c); [|reflexivity]. apply IH. simpl in Hn. lia.
Qed.

Lemma validate_written getnames (stamp control data out : bytes) :
  Write [(s "debian-binary", stamp); (s "control.tar.gz", control);
         (s "data.tar.lzma", data)] = Ok out ->
  (stamp <> STAMP ->
   ValidateDeb.main getnames out = Some (Ok ValidateDeb.FAIL_wrong_stamp)) /\
  (stamp = STAMP -> bytes_startswith data [x5d; x00; x00] = true ->
   (exists names, getnames control = Ok names /\ In (s "control") names) ->
   ValidateDeb.main getnames out = Some (Ok ValidateDeb.PASS)).
Proof.
  intros H. unfold ValidateDeb.main.
  rewrite (validate_reads_written _ _ H).
  change (map (norm_member strip)
            [(s "debian-binary", stamp); (s "control.tar.gz", control);
             (s "data.tar.lzma", data)])
    with [(s "debian-binary", stamp); (s "control.tar.gz", control);
          (s "data.tar.lzma", data)].
  rewrite check_canonical. split.
  - intros Hs. destruct (bytes_eqb stamp STAMP) eqn:E; [|reflexivity].
    apply bytes_eqb_eq in E. contradiction.
  - intros -> Hd (names & Hg & Hn).
    rewrite (proj2 (bytes_eqb_eq STAMP STAMP) eq_refl). cbn [negb].
    unfold bytes_startswith in *.
    rewrite startswith_firstn_more by (simpl; lia). rewrite Hd. cbn [negb andb].
    rewrite Hg. now rewrite (proj2 (existsb_str_In _ _) Hn).
Qed.

(** A package of the three members debian-binary, control.tar.gz and
    data.tar.lzma, written by [Write] (as [write_deb] writes it) and read by
    [validate_deb.main]: it passes when the stamp is ["2.0\n"], the payload
    starts with the three bytes [5D 00 00] of the legacy framing and the
    control archive lists a file [control]; with any other stamp the verdict
    is the wrong content of debian-binary, whatever the other members are. *)
Theorem validate_written_package getnames (stamp control data out : bytes) :
  Write [(s "debian-binary", stamp); (s "control.tar.gz", control);
         (s "data.tar.lzma", data)] = Ok out ->
  (stamp <> STAMP ->
   ValidateDeb.main getnames out = Some (Ok ValidateDeb.FAIL_wrong_stamp)) /\
  (stamp = STAMP -> bytes_startswith data [x5d; x00; x00] = true ->
   (exists names, getnames control = Ok names /\ In (s "control") names) ->
   ValidateDeb.main getnames out = Some (Ok ValidateDeb.PASS)).
Proof. exact (validate_written getnames stamp control data out). Qed.

Lemma validate_written_package_witness :
  exists out,
    DebPacker.write_deb (b "c") ALONE_HEADER = Ok out /\
    ValidateDeb.main (fun _ => Ok [s "control"]) out
    = Some (Ok ValidateDeb.PASS).
Proof.
  eexists. split; [vm_compute; reflexivity|].
  match goal with
  | |- ValidateDeb.main _ ?o = _ =>
      apply (proj2 (validate_written_package (fun _ => Ok [s "control"])
                      STAMP (b "c") ALONE_HEADER o eq_refl))
  end.
  - reflexivity.
  - vm_compute; reflexivity.
  - exists [s "control"]. split; [reflexivity|now left].
Defined.

(** ** Parsing what was assembled *)

Lemma parse_canonical (L : Lzma) (debbin control : bytes) (data_name : str)
  (payload : bytes) :
  debbin <> [] -> control <> [] -> payload <> [] ->
  data_name = s "data.tar.lzma" \/ data_name = s "data.tar" ->
  forall file,
  IpChanger._read_ar_members file
  = Some (Ok [(s "debian-binary", debbin); (s "control.tar.gz", control);
              (data_name, payload)]) ->
  IpChanger._parse_deb L file
  = Some (raw_tar <- IpChanger.decompress_data L data_name payload ;;
          Ok {| IpChanger.debian_binary := debbin;
                IpChanger.control_tar_gz := control;
                IpChanger.data_member_name := data_name;
                IpChanger.data_payload_bytes := payload;
                IpChanger.data_tar_raw := raw_tar |}).
Proof.
  intros Hd Hc Hp Hn file Hr. unfold IpChanger._parse_deb. rewrite Hr.
  destruct debbin as [|d0 debbin]; [congruence|].
  destruct control as [|c0 control]; [congruence|].
  destruct payload as [|p0 payload]; [congruence|].
  destruct Hn as [-> | ->]; reflexivity.
Qed.

(** A package assembled by [_assemble_deb] from a non-empty version stamp,
    a non-empty control archive and a data archive with a non-empty
    payload, each of a size that fits the size field, is parsed by
    [_parse_deb] into the same stamp and control archive, the payload as
    written, and the data archive again: as it is for data.tar, and
    through the legacy decoder for data.tar.lzma when that decoder undoes
    the encoder. *)
Theorem parse_assembled (L : Lzma) (debbin control data : bytes)
  (lzma_alone : bool) (out : bytes) :
  let payload := if lzma_alone then compress_alone L data else data in
  let data_name := if lzma_alone then s "data.tar.lzma" else s "data.tar" in
  debbin <> [] -> control <> [] -> payload <> [] ->
  (lzma_alone = true -> decompress_alone L (compress_alone L data) = Ok data) ->
  fits_size_field debbin -> fits_size_field control -> fits_size_field payload ->
  IpChanger._assemble_deb L debbin control data lzma_alone = Ok out ->
  IpChanger._parse_deb L out
  = Some (Ok {| IpChanger.debian_binary := debbin;
                IpChanger.control_tar_gz := control;
                IpChanger.data_member_name := data_name;
                IpChanger.data_payload_bytes := payload;
                IpChanger.data_tar_raw := data |}).
Proof.
  intros payload data_name Hd Hc Hp Hrt Fd Fc Fp H.
  assert (Hstamp : match debbin with [] => STAMP | _ => debbin end = debbin)
    by (destruct debbin; congruence).
  rewrite (assemble_deb_is_Write L debbin control data lzma_alone) in H.
  - rewrite Hstamp in H.
    apply ipchanger_reads_written in H.
    rewrite (parse_canonical L debbin control data_name payload Hd Hc Hp)
      with (file := out).
    + unfold IpChanger.decompress_data, data_name, payload.
      destruct lzma_alone.
      * change (str_endswith (s "data.tar.lzma") (s ".lzma")) with true.
        cbv iota. now rewrite Hrt.
      * reflexivity.
    + unfold data_name. destruct lzma_alone; auto.
    + rewrite H. unfold data_name, payload.
      destruct lzma_alone; reflexivity.
  - now rewrite Hstamp.
  - exact Fc.
  - unfold payload in Fp. destruct lzma_alone; exact Fp.
Qed.

Lemma stored_lzma_round_trip data :
  decompress_alone StoredLzma (compress_alone StoredLzma data) = Ok data.
Proof.
  cbn [decompress_alone compress_alone StoredLzma].
  unfold stored_decompress_alone, bytes_startswith.
  rewrite startswith_app_intro. now rewrite skipn_app_exact.
Qed.

Lemma parse_assembled_witness :
  exists out,
    IpChanger._assemble_deb StoredLzma STAMP (b "ctl") (b "tar") true = Ok out /\
    IpChanger._parse_deb StoredLzma out
    = Some (Ok {| IpChanger.debian_binary := STAMP;
                  IpChanger.control_tar_gz := b "ctl";
                  IpChanger.data_member_name := s "data.tar.lzma";
                  IpChanger.data_payload_bytes := STORED_ALONE_HEADER ++ b "tar";
                  IpChanger.data_tar_raw := b "tar" |}).
Proof.
  eexists. split; [vm_compute; reflexivity|].
  match goal with
  | |- IpChanger._parse_deb _ ?o = _ =>
      apply (parse_assembled StoredLzma STAMP (b "ctl") (b "tar") true o)
  end; try discriminate; try reflexivity;
    try (intros _; apply stored_lzma_round_trip);
    unfold fits_size_field; vm_compute; repeat constructor.
Defined.

(** ** The patch list as a whole *)

Lemma nth_error_write (data new : bytes) o i :
  o + length new <= length data ->
  i < o \/ o + length new <= i ->
  nth_error (firstn o data ++ new ++ skipn (o + length new) data) i
  = nth_error data i.
Proof.
  intros Hin Hi.
  assert (HA : length (firstn o data) = o) by (rewrite length_firstn; lia).
  destruct Hi as [Hi|Hi].
  - rewrite nth_error_app1 by lia. rewrite nth_error_firstn.
    destruct (Nat.ltb_spec i o); [reflexivity|lia].
  - rewrite nth_error_app2 by lia. rewrite nth_error_app2 by lia.
    rewrite nth_error_skipn. f_equal. lia.
Qed.

Lemma apply_patch_outside data p i :
  patch_ok p = true -> outside i p ->
  nth_error (fst (IpChanger.apply_patch data p)) i = nth_error data i.
Proof.
  destruct p as [[off old] new]. intros Hok Hi.
  apply patch_ok_inv in Hok as [Hl _]. unfold outside in Hi.
  destruct (snd (IpChanger.apply_patch data (off, old, new))) eqn:E.
  - apply apply_patch_applied in E as (Hin & _ & ->).
    rewrite Hl. apply nth_error_write; lia.
  - now rewrite apply_patch_skipped.
Qed.

Lemma apply_patches_keep ps : forall data count,
  forallb patch_ok ps = true ->
  length (fst (IpChanger.apply_patches ps data count)) = length data /\
  forall i, Forall (outside i) ps ->
    nth_error (fst (IpChanger.apply_patches ps data count)) i
    = nth_error data i.
Proof.
  induction ps as [|p ps IH]; intros data count Hok; [split; auto|].
  simpl in Hok. apply andb_prop in Hok as [Hp Hok].
  cbn [IpChanger.apply_patches].
  pose proof (apply_patch_length data p Hp) as Hlen.
  pose proof (apply_patch_outside data p) as Hout.
  destruct (IpChanger.apply_patch data p) as [data' applied].
  cbn [fst] in *.
  destruct (IH data' (if applied then S count else count) Hok) as [H1 H2].
  split; [congruence|].
  intros i Hi. inversion Hi as [|? ? Hip Hips]; subst.
  rewrite H2 by exact Hips. now apply Hout.
Qed.

Lemma latency_patches_keep ps file :
  forallb patch_ok ps = true ->
  length (snd (IpChanger.apply_latency_patches_with ps file)) = length file /\
  forall i, Forall (outside i) ps ->
    nth_error (snd (IpChanger.apply_latency_patches_with ps file)) i
    = nth_error file i.
Proof.
  intros Hok. unfold IpChanger.apply_latency_patches_with.
  destruct (apply_patches_keep ps file 0 Hok) as [H1 H2].
  destruct (IpChanger.apply_patches ps file 0) as [data n]. cbn [fst] in *.
  destruct (0 <? n); cbn [snd]; auto.
Qed.

(** [apply_latency_patches] never changes the size of the file, and never
    changes a byte outside the ranges of its patch list: for every list
    whose replacements are as long as the bytes they replace, as those of
    the script are. *)
Theorem latency_patches_confined (ps : list IpChanger.Patch) (file : bytes) :
  forallb patch_ok ps = true ->
  length (snd (IpChanger.apply_latency_patches_with ps file)) = length file /\
  forall i, Forall (outside i) ps ->
    nth_error (snd (IpChanger.apply_latency_patches_with ps file)) i
    = nth_error file i.
Proof. exact (latency_patches_keep ps file). Qed.

Lemma latency_patches_confined_witness :
  forallb patch_ok IpChanger.patches = true /\
  IpChanger.apply_latency_patches_with [(1%N, b "bc", b "xy")] (b "abcd")
  = (true, b "axyd") /\
  nth_error
    (snd (IpChanger.apply_latency_patches_with [(1%N, b "bc", b "xy")] (b "abcd")))
    3
  = nth_error (b "abcd") 3.
Proof.
  split; [vm_compute; reflexivity|]. split; [vm_compute; reflexivity|].
  apply (proj2 (latency_patches_confined [(1%N, b "bc", b "xy")] (b "abcd")
                  eq_refl)).
  constructor; [|constructor]. right. vm_compute. repeat constructor.
Defined.

(** A second call of [apply_latency_patches] on the file the first call
    left applies no patch, returns [False] and leaves the file as it is;
    and a call on a file where no entry finds its expected bytes does the
    same.  This holds for every list whose entries replace bytes by
    different bytes of the same length and do not overlap, which the list of
    the script is. *)
Theorem latency_patches_idempotent (ps : list IpChanger.Patch) (file : bytes) :
  patches_wf ps = true ->
  IpChanger.apply_latency_patches_with ps
    (snd (IpChanger.apply_latency_patches_with ps file))
  = (false, snd (IpChanger.apply_latency_patches_with ps file)) /\
  (Forall (fun p => stays p file) ps ->
   IpChanger.apply_latency_patches_with ps file = (false, file)).
Proof.
  intros Hwf. split; [now apply apply_latency_patches_twice|].
  intros Hs. unfold IpChanger.apply_latency_patches_with.
  now rewrite run_when_all_stay.
Qed.

Lemma latency_patches_idempotent_witness :
  patches_wf IpChanger.patches = true /\
  IpChanger.apply_latency_patches_with [(1%N, b "bc", b "xy")] (b "abcd")
  = (true, b "axyd") /\
  IpChanger.apply_latency_patches_with [(1%N, b "bc", b "xy")]
    (snd (IpChanger.apply_latency_patches_with [(1%N, b "bc", b "xy")]
            (b "abcd")))
  = (false,
     snd (IpChanger.apply_latency_patches_with [(1%N, b "bc", b "xy")]
            (b "abcd"))).
Proof.
  split; [vm_compute; reflexivity|]. split; [vm_compute; reflexivity|].
  apply (proj1 (latency_patches_idempotent [(1%N, b "bc", b "xy")] (b "abcd")
                  eq_refl)).
Defined.

(** ** Replacing the address in the binary *)

Lemma contains_iff {A} eqd (sub x : list A) :
  contains eqd sub x = true <-> exists a c, x = a ++ sub ++ c.
Proof.
  split.
  - induction x as [|h x IH].
    + cbn [contains]. rewrite orb_false_r. intros H.
      apply startswith_app_inv in H as [t Ht]. now exists [], t.
    + cbn [contains]. intros H. apply orb_prop in H as [H|H].
      * apply startswith_app_inv in H as [t Ht]. now exists [], t.
      * destruct (IH H) as (a & c & ->). now exists (h :: a), c.
  - intros (a & c & ->). induction a as [|h a IH].
    + cbn [app]. destruct (sub ++ c) eqn:E; cbn [contains];
        rewrite <- E, startswith_app_intro; reflexivity.
    + cbn [app contains]. rewrite IH. apply orb_true_r.
Qed.

Lemma contains_prefix {A} eqd (p q x : list A) :
  contains eqd (p ++ q) x = true -> contains eqd p x = true.
Proof.
  intros H. apply contains_iff in H as (a & c & ->).
  apply contains_iff. exists a, (q ++ c). now rewrite <- app_assoc.
Qed.

Lemma contains_cons {A} eqd (sub x : list A) h :
  contains eqd sub x = true -> contains eqd sub (h :: x) = true.
Proof. intros H. cbn [contains]. rewrite H. apply orb_true_r. Qed.

Lemma count_positive sub data :
  bytes_contains sub data = true -> 0 < bytes_count sub data.
Proof.
  unfold bytes_contains, bytes_count. destruct sub as [|s0 sub]; [lia|].
  induction data as [|c data IH]; [discriminate|].
  cbn [contains count_go]. unfold bytes_startswith.
  destruct (startswith Byte.byte_eq_dec (c :: data) (s0 :: sub)); [lia|].
  cbn [orb]. exact IH.
Qed.

Lemma replace_contains old new data :
  bytes_contains old data = true ->
  bytes_contains new (bytes_replace old new data) = true.
Proof.
  unfold bytes_contains, bytes_replace. destruct old as [|o0 old].
  - intros _. apply contains_iff. now exists [], (flat_map (fun c => c :: new) data).
  - induction data as [|c data IH]; [discriminate|].
    cbn [contains replace_go]. unfold bytes_startswith.
    destruct (startswith Byte.byte_eq_dec (c :: data) (o0 :: old)).
    + intros _. apply contains_iff. now eexists [], _.
    + cbn [orb]. intros H. apply contains_cons. now apply IH.
Qed.

Lemma replace_ip_cases file old_ip new_ip :
  length old_ip = length new_ip ->
  forallb is_ascii_char old_ip = true ->
  forallb is_ascii_char new_ip = true ->
  (bytes_contains (map byte_of_ascii old_ip) file = true ->
   fst (IpChanger.replace_ip_in_binary file old_ip new_ip) = Ok true /\
   bytes_contains (map byte_of_ascii new_ip)
     (snd (IpChanger.replace_ip_in_binary file old_ip new_ip)) = true) /\
  (bytes_contains (map byte_of_ascii old_ip) file = false ->
   IpChanger.replace_ip_in_binary file old_ip new_ip = (Ok false, file)).
Proof.
  intros Hl Ho Hn. unfold IpChanger.replace_ip_in_binary, encode_ascii.
  rewrite Hl, Nat.eqb_refl, Ho, Hn. cbn [negb].
  set (ob := map byte_of_ascii old_ip). set (nb := map byte_of_ascii new_ip).
  split; intros Hc; rewrite Hc.
  - pose proof (replace_contains ob nb file Hc) as H1.
    pose proof (count_positive _ _ H1) as H2.
    destruct (bytes_contains (ob ++ [x00]) (bytes_replace ob nb file)) eqn:E.
    + destruct (Nat.ltb_spec 0 (bytes_count nb (bytes_replace ob nb file) + 1));
        [|lia]. cbn [fst snd]. split; [reflexivity|].
      apply (contains_prefix _ nb [x00]). now apply replace_contains.
    + destruct (Nat.ltb_spec 0 (bytes_count nb (bytes_replace ob nb file)));
        [|lia]. cbn [fst snd]. split; [reflexivity|exact H1].
  - destruct (bytes_contains (ob ++ [x00]) file) eqn:E.
    + apply contains_prefix in E. unfold bytes_contains in Hc. congruence.
    + reflexivity.
Qed.

(** For two addresses of the same length, both ASCII,
    [replace_ip_in_binary] reports success exactly when the old address
    occurs in the file: then it returns [True] and the file written holds
    the new address; otherwise it returns [False] and the file is left as
    it is. *)
Theorem replace_ip_outcome (file : bytes) (old_ip new_ip : str) :
  length old_ip = length new_ip ->
  forallb is_ascii_char old_ip = true ->
  forallb is_ascii_char new_ip = true ->
  (bytes_contains (map byte_of_ascii old_ip) file = true ->
   fst (IpChanger.replace_ip_in_binary file old_ip new_ip) = Ok true /\
   bytes_contains (map byte_of_ascii new_ip)
     (snd (IpChanger.replace_ip_in_binary file old_ip new_ip)) = true) /\
  (bytes_contains (map byte_of_ascii old_ip) file = false ->
   IpChanger.replace_ip_in_binary file old_ip new_ip = (Ok false, file)).
Proof. exact (replace_ip_cases file old_ip new_ip). Qed.

Lemma replace_ip_outcome_witness :
  IpChanger.replace_ip_in_binary (b "ip=10.10.10.100" ++ [x00])
    (s "10.10.10.100") (s "10.10.10.200")
  = (Ok true, b "ip=10.10.10.200" ++ [x00]) /\
  IpChanger.replace_ip_in_binary (b "no address") (s "10.10.10.100")
    (s "10.10.10.200")
  = (Ok false, b "no address").
Proof.
  split; [vm_compute; reflexivity|].
  apply (proj2 (replace_ip_outcome (b "no address") (s "10.10.10.100")
                  (s "10.10.10.200") eq_refl eq_refl eq_refl)).
  vm_compute; reflexivity.
Defined.

(** ** The metadata patcher, line by line *)

Lemma scan_lines_general m a r lines : forall st,
  fold_left (ChangeMaintainer.scan_line m a r) lines st
  = {| ChangeMaintainer.modified :=
         ChangeMaintainer.modified st ++ flat_map (line_result m a r) lines;
       ChangeMaintainer.maintainer_found :=
         ChangeMaintainer.maintainer_found st || existsb is_maintainer lines;
       ChangeMaintainer.author_found :=
         ChangeMaintainer.author_found st
         || (existsb (fun l => negb (is_maintainer l) && is_author l) lines
             && ChangeMaintainer.truthy a) |}.
Proof.
  induction lines as [|l lines IH]; intros st.
  - cbn [fold_left flat_map existsb andb]. rewrite app_nil_r, !orb_false_r.
    now destruct st.
  - cbn [fold_left flat_map existsb]. rewrite IH. clear IH.
    unfold ChangeMaintainer.scan_line, line_result, is_maintainer, is_author,
      repo_line.
    destruct (str_startswith l (s "Maintainer:")) eqn:Em.
    + cbn [ChangeMaintainer.modified ChangeMaintainer.maintainer_found
           ChangeMaintainer.author_found negb andb orb].
      now rewrite <- app_assoc, orb_true_r.
    + destruct (str_startswith l (s "Author:") && ChangeMaintainer.truthy a)
        eqn:Ea.
      * apply andb_prop in Ea as [Ea1 Ea2]. rewrite Ea1, Ea2.
        cbn [ChangeMaintainer.modified ChangeMaintainer.maintainer_found
             ChangeMaintainer.author_found negb andb orb].
        now rewrite <- app_assoc, orb_true_r.
      * assert (Hf : forall E : bool,
                   (str_startswith l (s "Author:") || E)
                   && ChangeMaintainer.truthy a
                   = E && ChangeMaintainer.truthy a).
        { intros E. now rewrite andb_orb_distrib_l, Ea. }
        destruct (str_startswith l (s "Homepage:")) eqn:E1;
          destruct (str_startswith l (s "Depiction:")) eqn:E2;
          destruct (str_contains (s "bkatm") (lower l)) eqn:E3;
          destruct r;
          cbn [ChangeMaintainer.modified ChangeMaintainer.maintainer_found
               ChangeMaintainer.author_found negb andb orb app];
          rewrite Hf, ?app_nil_r, <- ?app_assoc; reflexivity.
Qed.

Lemma modify_maintainer_process text m a r :
  ChangeMaintainer.modify_maintainer text m a r
  = join [NL] (process_lines m a r (splitlines text)) ++ [NL].
Proof.
  unfold ChangeMaintainer.modify_maintainer, process_lines. cbv zeta.
  rewrite scan_lines_general.
  cbn [ChangeMaintainer.modified ChangeMaintainer.maintainer_found
       ChangeMaintainer.author_found orb app].
  unfold maintainer_line, author_line. reflexivity.
Qed.

(** *** Lines without line boundaries *)

Lemma no_linebreak_app x y :
  no_linebreak (x ++ y) = no_linebreak x && no_linebreak y.
Proof. unfold no_linebreak. apply forallb_app. Qed.

Lemma splitlines_go_lines x : forall after cur,
  no_linebreak cur = true ->
  Forall (fun l => no_linebreak l = true) (splitlines_go after cur x).
Proof.
  induction x as [|c x IH]; intros after cur Hc.
  - cbn [splitlines_go]. destruct cur; [constructor|].
    constructor; [exact Hc | constructor].
  - cbn [splitlines_go].
    destruct (after && (if ascii_eq_dec c NL then true else false)).
    + apply IH, Hc.
    + destruct (is_linebreak c) eqn:Ec.
      * constructor; [exact Hc | apply IH; reflexivity].
      * apply IH. rewrite no_linebreak_app, Hc. unfold no_linebreak.
        cbn [forallb]. now rewrite Ec.
Qed.

Lemma splitlines_lines x :
  Forall (fun l => no_linebreak l = true) (splitlines x).
Proof. apply splitlines_go_lines. reflexivity. Qed.

Lemma splitlines_go_line x : forall cur rest,
  no_linebreak x = true ->
  splitlines_go false cur (x ++ NL :: rest)
  = (cur ++ x) :: splitlines_go false [] rest.
Proof.
  induction x as [|c x IH]; intros cur rest Hx.
  - now rewrite app_nil_r.
  - unfold no_linebreak in Hx. cbn [forallb] in Hx.
    apply andb_prop in Hx as [Hc Hx]. apply negb_true_iff in Hc.
    cbn [app splitlines_go andb]. rewrite Hc, (IH _ _ Hx), <- app_assoc.
    reflexivity.
Qed.

Lemma splitlines_join ls :
  ls <> [] -> Forall (fun l => no_linebreak l = true) ls ->
  splitlines (join [NL] ls ++ [NL]) = ls.
Proof.
  induction ls as [|x ls IH]; intros Hne Hall; [congruence|].
  inversion Hall as [|? ? Hx Hls]; subst.
  destruct ls as [|y ls].
  - cbn [join]. unfold splitlines. now rewrite splitlines_go_line.
  - change (join [NL] (x :: y :: ls) ++ [NL])
      with ((x ++ [NL] ++ join [NL] (y :: ls)) ++ [NL]).
    rewrite <- !app_assoc. cbn [app]. unfold splitlines.
    rewrite splitlines_go_line by exact Hx. cbn [app]. f_equal.
    apply IH; [discriminate | exact Hls].
Qed.

(** *** The lines written *)

Lemma in_list_insert {A} i (x y : A) l :
  In y (list_insert i x l) <-> y = x \/ In y l.
Proof.
  unfold list_insert. rewrite in_app_iff. cbn [In].
  assert (H : In y l <-> In y (firstn i l) \/ In y (skipn i l)).
  { rewrite <- in_app_iff. now rewrite firstn_skipn. }
  rewrite H. intuition congruence.
Qed.

Lemma Forall_list_insert {A} (P : A -> Prop) i x l :
  P x -> Forall P l -> Forall P (list_insert i x l).
Proof.
  intros Hx Hl. apply Forall_forall. intros y Hy.
  apply in_list_insert in Hy as [->|Hy]; [exact Hx|].
  revert y Hy. now apply Forall_forall.
Qed.

(** Every line of [process_lines] is the Maintainer line, the Author line
    of a given author, or a line of the input that the loop keeps. *)
Lemma process_lines_in m a r lines l :
  In l (process_lines m a r lines) ->
  l = maintainer_line m
  \/ (ChangeMaintainer.truthy a = true /\ l = author_line a)
  \/ (In l lines /\ line_result m a r l = [l]
      /\ is_maintainer l = false).
Proof.
  assert (Hbody : In l (flat_map (line_result m a r) lines) ->
    l = maintainer_line m
    \/ (ChangeMaintainer.truthy a = true /\ l = author_line a)
    \/ (In l lines /\ line_result m a r l = [l] /\ is_maintainer l = false)).
  { intros Hin. apply in_flat_map in Hin as [l0 [Hl0 Hin]].
    unfold line_result in Hin |- *.
    destruct (is_maintainer l0) eqn:Em.
    - left. destruct Hin as [<-|[]]. reflexivity.
    - destruct (is_author l0 && ChangeMaintainer.truthy a) eqn:Ea.
      + right; left. apply andb_prop in Ea as [_ Ht].
        destruct Hin as [<-|[]]. now split.
      + destruct (repo_line l0 && r) eqn:Er; [destruct Hin|].
        destruct Hin as [<-|[]]. right; right.
        now rewrite Em, Ea, Er. }
  unfold process_lines. cbv zeta.
  destruct (ChangeMaintainer.truthy a
            && negb (existsb (fun l0 => negb (is_maintainer l0) && is_author l0)
                       lines && ChangeMaintainer.truthy a)) eqn:Ea;
    destruct (negb (existsb is_maintainer lines));
    rewrite ?in_list_insert; intros Hin.
  - apply andb_prop in Ea as [Ht _].
    destruct Hin as [->|[->|Hin]]; [right; left; now split | now left | auto].
  - apply andb_prop in Ea as [Ht _].
    destruct Hin as [->|Hin]; [right; left; now split | auto].
  - destruct Hin as [->|Hin]; [now left | auto].
  - auto.
Qed.

Lemma process_lines_maintainer m a r lines :
  In (maintainer_line m) (process_lines m a r lines).
Proof.
  assert (Hm : In (maintainer_line m)
                 (if negb (existsb is_maintainer lines)
                  then list_insert 0 (maintainer_line m)
                         (flat_map (line_result m a r) lines)
                  else flat_map (line_result m a r) lines)).
  { destruct (existsb is_maintainer lines) eqn:Em; cbn [negb].
    - apply existsb_exists in Em as [l [Hl Em]]. apply in_flat_map.
      exists l. split; [exact Hl|]. unfold line_result. rewrite Em. now left.
    - apply in_list_insert. now left. }
  unfold process_lines. cbv zeta.
  destruct (ChangeMaintainer.truthy a && _); [|exact Hm].
  apply in_list_insert. now right.
Qed.

Lemma process_lines_author m a r lines :
  ChangeMaintainer.truthy a = true ->
  In (author_line a) (process_lines m a r lines).
Proof.
  intros Ht. unfold process_lines. cbv zeta. rewrite Ht, !andb_true_r.
  cbn [andb].
  destruct (existsb (fun l => negb (is_maintainer l) && is_author l) lines)
    eqn:Ea; cbn [negb].
  - apply existsb_exists in Ea as [l [Hl Ea]].
    apply andb_prop in Ea as [Em Ea]. apply negb_true_iff in Em.
    assert (Hb : In (author_line a) (flat_map (line_result m a r) lines)).
    { apply in_flat_map. exists l. split; [exact Hl|]. unfold line_result.
      rewrite Em, Ea, Ht. now left. }
    destruct (negb (existsb is_maintainer lines)); [|exact Hb].
    apply in_list_insert. now right.
  - apply in_list_insert. now left.
Qed.

Lemma line_result_maintainer m a r :
  line_result m a r (maintainer_line m) = [maintainer_line m].
Proof. reflexivity. Qed.

Lemma line_result_author m a r :
  ChangeMaintainer.truthy a = true ->
  line_result m a r (author_line a) = [author_line a].
Proof.
  intros Ht. unfold line_result.
  change (is_maintainer (author_line a)) with false.
  change (is_author (author_line a)) with true. now rewrite Ht.
Qed.

Lemma process_lines_stable m a r lines :
  Forall (fun l => line_result m a r l = [l]) (process_lines m a r lines).
Proof.
  apply Forall_forall. intros l Hl.
  apply process_lines_in in Hl as [->|[[Ht ->]|[_ [Hl _]]]].
  - apply line_result_maintainer.
  - now apply line_result_author.
  - exact Hl.
Qed.

Lemma flat_map_stable {A} (f : A -> list A) ls :
  Forall (fun l => f l = [l]) ls -> flat_map f ls = ls.
Proof.
  induction 1 as [|l ls Hl _ IH]; [reflexivity|].
  cbn [flat_map]. now rewrite Hl, IH.
Qed.

Lemma process_lines_twice m a r lines :
  process_lines m a r (process_lines m a r lines) = process_lines m a r lines.
Proof.
  set (out := process_lines m a r lines).
  assert (Hm : existsb is_maintainer out = true).
  { apply existsb_exists. exists (maintainer_line m).
    split; [apply process_lines_maintainer | reflexivity]. }
  assert (Ha : ChangeMaintainer.truthy a = true ->
               existsb (fun l => negb (is_maintainer l) && is_author l) out
               = true).
  { intros Ht. apply existsb_exists. exists (author_line a).
    split; [now apply process_lines_author | reflexivity]. }
  unfold process_lines at 1. cbv zeta.
  pose proof (flat_map_stable _ _ (process_lines_stable m a r lines)) as Hs.
  fold out in Hs. rewrite Hs, Hm. cbn [negb].
  destruct (ChangeMaintainer.truthy a) eqn:Ht; [|reflexivity].
  now rewrite (Ha eq_refl).
Qed.

Lemma process_lines_nobreak m a r lines :
  no_linebreak m = true ->
  (forall x, a = Some x -> no_linebreak x = true) ->
  Forall (fun l => no_linebreak l = true) lines ->
  Forall (fun l => no_linebreak l = true) (process_lines m a r lines).
Proof.
  intros Hm Ha Hl. apply Forall_forall. intros l Hin.
  apply process_lines_in in Hin as [->|[[Ht ->]|[Hin _]]].
  - unfold maintainer_line. now rewrite no_linebreak_app, Hm.
  - unfold author_line. rewrite no_linebreak_app.
    destruct a as [x|]; [|discriminate]. cbn [ChangeMaintainer.author_text].
    now rewrite (Ha x eq_refl).
  - revert l Hin. now apply Forall_forall.
Qed.

(** The lines of the file [modify_maintainer] writes, from the lines of the
    file it read. *)
Lemma modify_maintainer_written_lines text m a r :
  no_linebreak m = true ->
  (forall x, a = Some x -> no_linebreak x = true) ->
  splitlines (ChangeMaintainer.modify_maintainer text m a r)
  = process_lines m a r (splitlines text).
Proof.
  intros Hm Ha. rewrite modify_maintainer_process. apply splitlines_join.
  - intros He. pose proof (process_lines_maintainer m a r (splitlines text)) as H.
    rewrite He in H. destruct H.
  - apply process_lines_nobreak; [exact Hm | exact Ha | apply splitlines_lines].
Qed.

Lemma modify_maintainer_twice text m a r :
  no_linebreak m = true ->
  (forall x, a = Some x -> no_linebreak x = true) ->
  ChangeMaintainer.modify_maintainer
    (ChangeMaintainer.modify_maintainer text m a r) m a r
  = ChangeMaintainer.modify_maintainer text m a r.
Proof.
  intros Hm Ha.
  rewrite (modify_maintainer_process (ChangeMaintainer.modify_maintainer _ _ _ _)).
  rewrite (modify_maintainer_written_lines _ _ _ _ Hm Ha), process_lines_twice.
  symmetry. apply modify_maintainer_process.
Qed.

(** Running [modify_maintainer] on the file it wrote changes nothing, for a
    maintainer and an author that hold no line boundary. *)
Theorem modify_maintainer_idempotent text m a r :
  no_linebreak m = true ->
  (forall x, a = Some x -> no_linebreak x = true) ->
  ChangeMaintainer.modify_maintainer
    (ChangeMaintainer.modify_maintainer text m a r) m a r
  = ChangeMaintainer.modify_maintainer text m a r.
Proof. exact (modify_maintainer_twice text m a r). Qed.

Lemma modify_maintainer_idempotent_witness :
  let text := s "Package: vcam" ++ [NL] ++ s "Homepage: https://bkatm.example"
              ++ [NL] ++ s "Maintainer: old" ++ [NL] in
  let once := ChangeMaintainer.modify_maintainer text (s "new")
                (Some (s "me")) true in
  once = s "Package: vcam" ++ [NL] ++ s "Author: me" ++ [NL]
         ++ s "Maintainer: new" ++ [NL]
  /\ ChangeMaintainer.modify_maintainer once (s "new") (Some (s "me")) true
     = once.
Proof.
  split; [vm_compute; reflexivity|].
  apply (modify_maintainer_idempotent _ (s "new") (Some (s "me")) true).
  - reflexivity.
  - intros x Hx. injection Hx as <-. reflexivity.
Defined.

(** For a maintainer and an author that hold no line boundary, the file
    [modify_maintainer] writes has a line [Maintainer: m], and a line
    [Author: a] when an author is given. *)
Theorem modify_maintainer_fields text m a r :
  no_linebreak m = true ->
  (forall x, a = Some x -> no_linebreak x = true) ->
  In (maintainer_line m)
    (splitlines (ChangeMaintainer.modify_maintainer text m a r))
  /\ (ChangeMaintainer.truthy a = true ->
      In (author_line a)
        (splitlines (ChangeMaintainer.modify_maintainer text m a r))).
Proof.
  intros Hm Ha. rewrite (modify_maintainer_written_lines _ _ _ _ Hm Ha). split.
  - apply process_lines_maintainer.
  - apply process_lines_author.
Qed.

Lemma modify_maintainer_fields_witness :
  In (maintainer_line (s "new"))
    (splitlines (ChangeMaintainer.modify_maintainer
                   (s "Package: vcam" ++ [NL]) (s "new") (Some (s "me")) false))
  /\ In (author_line (Some (s "me")))
       (splitlines (ChangeMaintainer.modify_maintainer
                      (s "Package: vcam" ++ [NL]) (s "new") (Some (s "me"))
                      false)).
Proof.
  destruct (modify_maintainer_fields (s "Package: vcam" ++ [NL]) (s "new")
              (Some (s "me")) false) as [H1 H2].
  - reflexivity.
  - intros x Hx. injection Hx as <-. reflexivity.
  - split; [exact H1 | exact (H2 eq_refl)].
Defined.

(** For a maintainer and an author that hold no line boundary, and with
    the removal of repository references asked for, every line of the file
    written is the new Maintainer line, the new Author line, or a line of
    the input that is no Homepage line, no Depiction line and does not hold
    [bkatm] in any case of letters. *)
Theorem modify_maintainer_removes_repo text m a :
  no_linebreak m = true ->
  (forall x, a = Some x -> no_linebreak x = true) ->
  Forall (fun l =>
            l = maintainer_line m
            \/ (ChangeMaintainer.truthy a = true /\ l = author_line a)
            \/ (In l (splitlines text) /\ repo_line l = false))
    (splitlines (ChangeMaintainer.modify_maintainer text m a true)).
Proof.
  intros Hm Ha. rewrite (modify_maintainer_written_lines _ _ _ _ Hm Ha).
  apply Forall_forall. intros l Hl.
  apply process_lines_in in Hl as [->|[[Ht ->]|[Hin [Hl Hmt]]]];
    [now left | right; left; now split |].
  unfold line_result in Hl. rewrite Hmt in Hl.
  destruct (is_author l && ChangeMaintainer.truthy a) eqn:Ea.
  - apply andb_prop in Ea as [_ Ht]. injection Hl as Hl.
    right; left. now split.
  - right; right. split; [exact Hin|]. rewrite andb_true_r in Hl.
    destruct (repo_line l); [discriminate Hl | reflexivity].
Qed.

Lemma modify_maintainer_removes_repo_witness :
  Forall (fun l =>
            l = maintainer_line (s "new")
            \/ (ChangeMaintainer.truthy None = true /\ l = author_line None)
            \/ (In l (splitlines (s "Depiction: x" ++ [NL] ++ s "Name: BKATM cam"
                                    ++ [NL] ++ s "Package: vcam" ++ [NL]))
                /\ repo_line l = false))
    (splitlines (ChangeMaintainer.modify_maintainer
                   (s "Depiction: x" ++ [NL] ++ s "Name: BKATM cam" ++ [NL]
                      ++ s "Package: vcam" ++ [NL]) (s "new") None true)).
Proof.
  apply (modify_maintainer_removes_repo _ (s "new") None).
  - reflexivity.
  - intros x Hx. discriminate Hx.
Defined.

(** ** The table of [patch_branding] *)

Lemma replace_go_skip old new k : forall data,
  replace_go old new k data = replace_go old new 0 (skipn k data).
Proof.
  induction k as [|k IH]; intros data; [reflexivity|].
  destruct data as [|c data]; [reflexivity|].
  cbn [replace_go skipn]. apply IH.
Qed.

(** Where the result of a replacement starts with [q], a list that does
    not hold the first byte of [new], the data did so too. *)
Lemma replace_go_startswith old n0 new' q : forall data,
  ~ In n0 q ->
  bytes_startswith (replace_go old (n0 :: new') 0 data) q = true ->
  bytes_startswith data q = true.
Proof.
  unfold bytes_startswith.
  induction q as [|q0 q IH]; intros data Hq H; [now destruct data|].
  destruct data as [|c data]; [discriminate H|].
  cbn [replace_go] in H.
  destruct (bytes_startswith (c :: data) old).
  - cbn [app startswith] in H.
    destruct (Byte.byte_eq_dec q0 n0) as [->|]; [|discriminate H].
    exfalso. apply Hq. now left.
  - cbn [startswith] in H |- *.
    destruct (Byte.byte_eq_dec q0 c); [|discriminate H].
    apply IH; [|exact H]. intros Hin. apply Hq. now right.
Qed.

Lemma startswith_head {A} eqd (a : A) x y p :
  startswith eqd (a :: x) (y :: p) = true -> y = a.
Proof. cbn [startswith]. now destruct (eqd y a). Qed.

Lemma replace_go_not_start old n0 new' data :
  old <> [] -> ~ In n0 old ->
  bytes_startswith (replace_go old (n0 :: new') 0 data) old = false.
Proof.
  intros Hne Hn.
  destruct (bytes_startswith (replace_go old (n0 :: new') 0 data) old) eqn:E;
    [|reflexivity].
  pose proof (replace_go_startswith _ _ _ _ _ Hn E) as Hd.
  destruct data as [|c data]; [destruct old; [congruence|discriminate Hd]|].
  cbn [replace_go] in E. rewrite Hd in E. cbn [app] in E.
  destruct old as [|o0 old]; [congruence|].
  apply startswith_head in E. exfalso. apply Hn. now left.
Qed.

(** An occurrence of [old] in [new ++ rest], where the last byte of [new]
    is none of [old] and the two are of the same length, lies in [rest]. *)
Lemma contains_after old new' nl rest :
  length old = length (new' ++ [nl]) -> ~ In nl old ->
  bytes_contains old ((new' ++ [nl]) ++ rest) = true ->
  bytes_contains old rest = true.
Proof.
  unfold bytes_contains. intros Hlen Hnl H.
  apply contains_iff in H as (a & c & H). apply contains_iff.
  apply app_eq_app in H as [l [[Hn Hr]|[Ha Hr]]]; [|now exists l, c].
  destruct l as [|l0 l]; [now exists [], c|].
  destruct (exists_last (l := l0 :: l)) as (l' & x & Hl); [discriminate|].
  rewrite Hl in Hn, Hr. clear Hl. exfalso.
  rewrite app_assoc in Hn. apply app_inj_tail in Hn as [Hn <-].
  apply app_eq_app in Hr as [l2 [[Ho _]|[Hl _]]].
  - apply Hnl. rewrite Ho, <- app_assoc. apply in_or_app. right.
    apply in_or_app. left. now left.
  - assert (Hl2 : l2 = []).
    { apply (f_equal (@Datatypes.length byte)) in Hl, Hn.
      rewrite length_app in Hlen, Hn. rewrite 2!length_app in Hl.
      cbn [Datatypes.length] in *.
      destruct l2; [reflexivity|]. exfalso. cbn [Datatypes.length] in Hl.
      lia. }
    subst l2. rewrite app_nil_r in Hl. apply Hnl. rewrite <- Hl.
    apply in_or_app. right. now left.
Qed.

(** After the replacement of [old] by [new], of the same length, whose
    first and last bytes are none of [old], no occurrence of [old] is
    left. *)
Lemma replace_go_clears old n0 new' nl :
  old <> [] -> length old = length (n0 :: new' ++ [nl]) ->
  ~ In n0 old -> ~ In nl old ->
  forall n data, length data <= n ->
  bytes_contains old (replace_go old (n0 :: new' ++ [nl]) 0 data) = false.
Proof.
  intros Hne Hlen Hn0 Hnl.
  induction n as [|n IH]; intros data Hd.
  - destruct data; [|cbn [Datatypes.length] in Hd; lia].
    destruct old; [congruence | reflexivity].
  - destruct data as [|c data]; [destruct old; [congruence | reflexivity]|].
    cbn [Datatypes.length] in Hd.
    destruct (bytes_contains old
                (replace_go old (n0 :: new' ++ [nl]) 0 (c :: data))) eqn:E;
      [exfalso | reflexivity].
    cbn [replace_go] in E.
    destruct (bytes_startswith (c :: data) old) eqn:Es.
    + rewrite replace_go_skip in E.
      change (n0 :: new' ++ [nl]) with ((n0 :: new') ++ [nl]) in E, Hlen.
      apply contains_after in E; [|exact Hlen | exact Hnl].
      change ((n0 :: new') ++ [nl]) with (n0 :: new' ++ [nl]) in E.
      rewrite IH in E; [discriminate E|].
      rewrite length_skipn. lia.
    + unfold bytes_contains in E. cbn [contains] in E.
      apply orb_prop in E as [E|E].
      * pose proof (replace_go_not_start old n0 (new' ++ [nl]) (c :: data)
                      Hne Hn0) as Hs.
        cbn [replace_go] in Hs. rewrite Es in Hs.
        unfold bytes_startswith in Hs. congruence.
      * fold (bytes_contains old (replace_go old (n0 :: new' ++ [nl]) 0 data))
          in E.
        rewrite IH in E; [discriminate E | lia].
Qed.

Lemma replace_clears old n0 new' nl data :
  old <> [] -> length old = length (n0 :: new' ++ [nl]) ->
  ~ In n0 old -> ~ In nl old ->
  bytes_contains old (bytes_replace old (n0 :: new' ++ [nl]) data) = false.
Proof.
  intros Hne Hlen Hn0 Hnl. unfold bytes_replace.
  destruct old as [|o0 old]; [congruence|].
  now apply (replace_go_clears (o0 :: old) n0 new' nl Hne Hlen Hn0 Hnl
               (length data)).
Qed.

Lemma not_contains_longer {A} eqd (p q r x : list A) :
  contains eqd q x = false -> contains eqd (p ++ q ++ r) x = false.
Proof.
  intros H. destruct (contains eqd (p ++ q ++ r) x) eqn:E; [|reflexivity].
  apply contains_iff in E as (a & c & ->).
  assert (Hc : contains eqd q (a ++ (p ++ q ++ r) ++ c) = true).
  { apply contains_iff. exists (a ++ p), (r ++ c).
    now rewrite <- !app_assoc. }
  congruence.
Qed.

Lemma replace_absent old new data :
  bytes_contains old data = false -> bytes_replace old new data = data.
Proof.
  unfold bytes_contains, bytes_replace. destruct old as [|o0 old].
  - now destruct data.
  - induction data as [|c data IH]; intros H; [reflexivity|].
    cbn [contains] in H. apply orb_false_iff in H as [Hs Hc].
    cbn [replace_go]. unfold bytes_startswith. rewrite Hs.
    f_equal. apply IH, Hc.
Qed.

Lemma count_absent sub data :
  bytes_contains sub data = false -> bytes_count sub data = 0.
Proof.
  unfold bytes_contains, bytes_count. destruct sub as [|s0 sub].
  - now destruct data.
  - induction data as [|c data IH]; intros H; [reflexivity|].
    cbn [contains] in H. apply orb_false_iff in H as [Hs Hc].
    cbn [count_go]. unfold bytes_startswith. rewrite Hs. apply IH, Hc.
Qed.

(** Of the three pairs of [BRAND_PATTERNS] the first alone is ever
    applied: once [www.bkatm.com] has been replaced, the two longer
    literals, which hold it, occur no more. *)
Lemma patch_branding_first file :
  Debrand.patch_branding file
  = (Ok (bytes_count (b "www.bkatm.com") file),
     bytes_replace (b "www.bkatm.com") (b "localhost    ") file).
Proof.
  set (old := b "www.bkatm.com"). set (new := b "localhost    ").
  assert (Hclear : bytes_contains old (bytes_replace old new file) = false).
  { apply (replace_clears old "l"%byte (b "ocalhost   ") " "%byte).
    - discriminate.
    - reflexivity.
    - vm_compute. intuition discriminate.
    - vm_compute. intuition discriminate. }
  assert (Hrest : forall data n, bytes_contains old data = false ->
            Debrand.patch_pairs (tl Debrand.BRAND_PATTERNS) (data, n)
            = Ok (data, n)).
  { intros data n Hd. cbn [tl Debrand.BRAND_PATTERNS Debrand.patch_pairs].
    unfold Debrand.patch_pair.
    rewrite (not_contains_longer Byte.byte_eq_dec (b "https://") old []
               data Hd : bytes_contains (b "https://www.bkatm.com") data = false).
    cbn [bind].
    rewrite (not_contains_longer Byte.byte_eq_dec (b "Login (") old (b ")")
               data Hd : bytes_contains (b "Login (www.bkatm.com)") data = false).
    reflexivity. }
  unfold Debrand.patch_branding, Debrand.patch_branding_with.
  change Debrand.BRAND_PATTERNS
    with ((old, new) :: tl Debrand.BRAND_PATTERNS).
  cbn [Debrand.patch_pairs]. unfold Debrand.patch_pair at 1.
  destruct (bytes_contains old file) eqn:Ec.
  - change (negb (length old =? length new)) with false. cbn iota.
    cbn [bind]. rewrite (Hrest _ _ Hclear). cbn [Nat.add].
    pose proof (count_positive _ _ Ec) as Hpos.
    destruct (bytes_count old file) as [|k] eqn:Ek; [lia|]. reflexivity.
  - cbn [bind]. rewrite (Hrest _ _ Ec).
    rewrite (count_absent _ _ Ec), (replace_absent _ new _ Ec).
    reflexivity.
Qed.

(** [patch_branding] never raises with the table it is shipped with, and
    what it does is the replacement of the first literal alone: the count
    returned is that of [www.bkatm.com], and the file afterwards is the
    file with this literal replaced. *)
Theorem patch_branding_never_raises file :
  Debrand.patch_branding file
  = (Ok (bytes_count (b "www.bkatm.com") file),
     bytes_replace (b "www.bkatm.com") (b "localhost    ") file).
Proof. exact (patch_branding_first file). Qed.

(** ** Every node of the tree is archived once *)

Lemma flat_map_cons_perm {A B} (h : A -> B) (r : A -> list B) l :
  Permutation (flat_map (fun c => h c :: r c) l) (map h l ++ flat_map r l).
Proof.
  induction l as [|a l IH]; cbn [flat_map map app]; [constructor|].
  apply perm_skip. rewrite IH, !app_assoc.
  apply Permutation_app_tail, Permutation_app_comm.
Qed.

Lemma flat_map_perm {A B} (f g : A -> list B) l :
  Forall (fun c => Permutation (f c) (g c)) l ->
  Permutation (flat_map f l) (flat_map g l).
Proof.
  induction 1 as [|c l Hc _ IH]; cbn [flat_map]; [constructor|].
  now apply Permutation_app.
Qed.

Lemma filter_split_perm {A} (f g : A -> bool) l :
  (forall x, g x = negb (f x)) ->
  Permutation (filter f l ++ filter g l) l.
Proof.
  intros Hg. induction l as [|a l IH]; cbn [filter]; [constructor|].
  rewrite (Hg a). destruct (f a); cbn [negb app].
  - now apply perm_skip.
  - symmetry. apply Permutation_cons_app. now symmetry.
Qed.

Lemma filter_perm {A} (f : A -> bool) l l' :
  Permutation l l' -> Permutation (filter f l) (filter f l').
Proof.
  induction 1 as [|x l l' _ IH|x y l|l l' l'' _ IH1 _ IH2]; cbn [filter].
  - constructor.
  - destruct (f x); [now apply perm_skip | exact IH].
  - destruct (f x), (f y); try reflexivity. apply perm_swap.
  - now transitivity (filter f l').
Qed.

Lemma rglob_dir_nodes n : forall top,
  Permutation (rglob_dir top n) (below_nodes top n).
Proof.
  induction n as [name st content|name st children IH] using node_ind_nested;
    intros top; [constructor|].
  cbn [rglob_dir below_nodes].
  rewrite (flat_map_cons_perm
             (fun c => (top ++ [name; node_name c], c))
             (below_nodes (top ++ [name]))).
  apply Permutation_app_head, flat_map_perm.
  apply Forall_forall. intros c Hc. rewrite Forall_forall in IH.
  now apply IH.
Qed.

Lemma rglob_nodes tree : Permutation (rglob tree) (tree_nodes tree).
Proof.
  unfold rglob, tree_nodes.
  rewrite (flat_map_cons_perm (fun c => ([node_name c], c)) (below_nodes [])).
  apply Permutation_app_head, flat_map_perm.
  apply Forall_forall. intros c _. apply rglob_dir_nodes.
Qed.

(** *** What [gettarinfo] makes of a node *)

Lemma plain_info_name n arcname : ti_name (plain_info n arcname) = arcname.
Proof. now destruct n. Qed.

Lemma gettarinfo_name inodes n arcname :
  ti_name (fst (gettarinfo inodes n arcname)) = arcname.
Proof.
  destruct n as [name st content|name st children]; [|reflexivity].
  cbn [gettarinfo]. destruct (1 <? st_nlink st)%N; [|reflexivity].
  destruct (inodes_get _ _ inodes) as [first|]; [|reflexivity].
  destruct (negb (str_eqb arcname first)); reflexivity.
Qed.

Lemma gettarinfo_plain inodes n arcname :
  single_links n = true ->
  fst (gettarinfo inodes n arcname) = plain_info n arcname.
Proof.
  destruct n as [name st content|name st children]; [|reflexivity].
  cbn [single_links gettarinfo]. intros H.
  destruct (N.ltb_spec 1 (st_nlink st)) as [Hl|_]; [|reflexivity].
  apply N.leb_le in H. lia.
Qed.

(** Every node of a tree without second names is without them. *)
Lemma below_nodes_single n : forall top e,
  single_links n = true -> In e (below_nodes top n) ->
  single_links (snd e) = true.
Proof.
  induction n as [name st content|name st children IH] using node_ind_nested;
    intros top e Hs; [intros []|].
  cbn [below_nodes]. cbn [single_links] in Hs.
  rewrite forallb_forall in Hs. rewrite Forall_forall in IH.
  intros H. apply in_flat_map in H as (c & Hc & [<-|He]).
  - now apply Hs.
  - apply (IH c Hc (top ++ [name])); [now apply Hs | exact He].
Qed.

Lemma tree_nodes_single tree e :
  forallb single_links tree = true -> In e (tree_nodes tree) ->
  single_links (snd e) = true.
Proof.
  intros Hs H. rewrite forallb_forall in Hs.
  apply in_flat_map in H as (c & Hc & [<-|He]).
  - now apply Hs.
  - apply (below_nodes_single c []); [now apply Hs | exact He].
Qed.

Lemma rglob_single tree e :
  forallb single_links tree = true -> In e (rglob tree) ->
  single_links (snd e) = true.
Proof.
  intros Hs H. apply (tree_nodes_single tree); [exact Hs|].
  now apply (Permutation_in _ (rglob_nodes tree)).
Qed.

(** *** The packers that go through [rglob] *)

Lemma build_entries_names tree :
  Permutation (map ti_name (DebPacker.build_entries tree))
    (map (fun e => path_str (fst e)) (tree_nodes tree)).
Proof.
  rewrite build_entries_dirs, map_app, map_map.
  rewrite (add_each_proj ti_name DebPacker.tar_add
             (fun e => path_str (fst e)))
    by (intros i e _; apply gettarinfo_name).
  rewrite (map_ext (fun x => ti_name (node_entry x))
             (fun e => path_str (fst e)))
    by (intros e; apply plain_info_name).
  rewrite <- map_app.
  apply Permutation_map.
  rewrite filter_split_perm by reflexivity. apply rglob_nodes.
Qed.

Lemma build_entries_nodes tree :
  forallb single_links tree = true ->
  Permutation (DebPacker.build_entries tree) (map node_entry (tree_nodes tree)).
Proof.
  intros Hs. rewrite build_entries_dirs.
  rewrite (add_each_plain DebPacker.tar_add node_entry).
  - rewrite <- map_app. apply Permutation_map.
    rewrite filter_split_perm by reflexivity. apply rglob_nodes.
  - intros i e He. apply filter_In in He as [He _].
    apply gettarinfo_plain. now apply (rglob_single tree).
Qed.

Lemma files_entries_names tree :
  Permutation (map ti_name (ChangeMaintainer.build_entries tree))
    (map (fun e => path_str (fst e))
       (filter (fun e => is_file (snd e)) (tree_nodes tree))).
Proof.
  unfold ChangeMaintainer.build_entries.
  rewrite (add_each_proj ti_name ChangeMaintainer.tar_add
             (fun e => path_str (fst e)))
    by (intros i e _; apply gettarinfo_name).
  apply Permutation_map, filter_perm, rglob_nodes.
Qed.

Lemma files_entries_nodes tree :
  forallb single_links tree = true ->
  Permutation (ChangeMaintainer.build_entries tree)
    (map node_entry (filter (fun e => is_file (snd e)) (tree_nodes tree))).
Proof.
  intros Hs. unfold ChangeMaintainer.build_entries.
  rewrite (add_each_plain ChangeMaintainer.tar_add node_entry).
  - apply Permutation_map, filter_perm, rglob_nodes.
  - intros i e He. apply filter_In in He as [He _].
    apply gettarinfo_plain. now apply (rglob_single tree).
Qed.

(** The archives of [deb_packer.build_data_tar] and [build_control_tar]
    hold one entry for every file and every directory of the tree, named
    by its path, and nothing else; in a tree where no file has a second
    name (a hard link), every entry is made from the [stat] and the
    content of its node. *)
Theorem deb_packer_archives_tree tree :
  (Permutation (map ti_name (DebPacker.build_data_tar tree))
     (map (fun e => path_str (fst e)) (tree_nodes tree)) /\
   forall now,
     Permutation (map ti_name (gz_entries (DebPacker.build_control_tar now tree)))
       (map (fun e => path_str (fst e)) (tree_nodes tree))) /\
  (forallb single_links tree = true ->
   Permutation (DebPacker.build_data_tar tree)
     (map node_entry (tree_nodes tree)) /\
   forall now,
     Permutation (gz_entries (DebPacker.build_control_tar now tree))
       (map node_entry (tree_nodes tree))).
Proof.
  split; [|intros Hs]; (split; [|intros now]);
    solve [exact (build_entries_names tree)
          | exact (build_entries_nodes tree Hs)].
Qed.

Lemma deb_packer_archives_tree_witness :
  let tree :=
    [Dir (s "d") (stat_at 0) [File (s "a") (stat_linked 7) (b "x")];
     File (s "b") (stat_linked 7) (b "x")] in
  map entry_key (DebPacker.build_data_tar tree)
  = [(s "d", DIRTYPE, []); (s "b", REGTYPE, b "x"); (s "d/a", LNKTYPE, [])] /\
  Permutation
    (DebPacker.build_data_tar
       [Dir (s "d") (stat_at 0) [File (s "a") (stat_at 0) (b "x")];
        File (s "b") (stat_at 0) (b "x")])
    (map node_entry
       (tree_nodes
          [Dir (s "d") (stat_at 0) [File (s "a") (stat_at 0) (b "x")];
           File (s "b") (stat_at 0) (b "x")])).
Proof.
  split; [vm_compute; reflexivity|].
  apply (proj2 (deb_packer_archives_tree
                  [Dir (s "d") (stat_at 0) [File (s "a") (stat_at 0) (b "x")];
                   File (s "b") (stat_at 0) (b "x")])).
  reflexivity.
Defined.

(** The archives of [change_maintainer.build_data_tar] and
    [build_control_tar] hold one entry for every file of the tree, at any
    depth, named by its path, and nothing else; in a tree where no file
    has a second name (a hard link), every entry is made from the [stat]
    and the content of its file. *)
Theorem change_maintainer_archives_files tree :
  (Permutation (map ti_name (ChangeMaintainer.build_data_tar tree))
     (map (fun e => path_str (fst e))
        (filter (fun e => is_file (snd e)) (tree_nodes tree))) /\
   forall now,
     Permutation
       (map ti_name (gz_entries (ChangeMaintainer.build_control_tar now tree)))
       (map (fun e => path_str (fst e))
          (filter (fun e => is_file (snd e)) (tree_nodes tree)))) /\
  (forallb single_links tree = true ->
   Permutation (ChangeMaintainer.build_data_tar tree)
     (map node_entry (filter (fun e => is_file (snd e)) (tree_nodes tree))) /\
   forall now,
     Permutation (gz_entries (ChangeMaintainer.build_control_tar now tree))
       (map node_entry (filter (fun e => is_file (snd e)) (tree_nodes tree)))).
Proof.
  split; [|intros Hs]; (split; [|intros now]);
    solve [exact (files_entries_names tree)
          | exact (files_entries_nodes tree Hs)].
Qed.

Lemma change_maintainer_archives_files_witness :
  map entry_key
    (ChangeMaintainer.build_data_tar
       [Dir (s "d") (stat_at 0) [File (s "a") (stat_linked 7) (b "x")];
        File (s "b") (stat_linked 7) (b "x")])
  = [(s "b", REGTYPE, b "x"); (s "d/a", LNKTYPE, [])] /\
  Permutation
    (ChangeMaintainer.build_data_tar
       [Dir (s "d") (stat_at 0) [File (s "a") (stat_at 0) (b "x")];
        File (s "b") (stat_at 0) (b "x")])
    (map node_entry
       (filter (fun e => is_file (snd e))
          (tree_nodes
             [Dir (s "d") (stat_at 0) [File (s "a") (stat_at 0) (b "x")];
              File (s "b") (stat_at 0) (b "x")]))).
Proof.
  split; [vm_compute; reflexivity|].
  apply (proj2 (change_maintainer_archives_files
                  [Dir (s "d") (stat_at 0) [File (s "a") (stat_at 0) (b "x")];
                   File (s "b") (stat_at 0) (b "x")])).
  reflexivity.
Defined.

(** *** The walk of [_build_data_tar_from_dir] *)




Lemma map_flat_map {A B C} (g : B -> C) (h : A -> list B) l :
  map g (flat_map h l) = flat_map (fun x => map g (h x)) l.
Proof.
  induction l as [|a l IH]; cbn [flat_map]; [reflexivity|].
  now rewrite map_app, IH.
Qed.


(** The nodes a walk meets, turn by turn: [key] is what is taken of each
    child that [keep] lets through. *)
Section Walk.

Context {K : Type}.
Variable keep : node -> bool.
Variable key : path * node -> K.





End Walk.










(** ** Directories in front of what they hold *)

(** For a tree whose names hold no slash, the archives of
    [deb_packer.build_data_tar] and [build_control_tar] hold, for every
    directory of the tree, empty or not, a directory entry in front of
    all entries below it. *)
Theorem deb_packer_directories_first tree :
  forallb names_ok tree = true ->
  dirs_before_descendants tree (DebPacker.build_data_tar tree) = true /\
  forall now,
    dirs_before_descendants tree
      (gz_entries (DebPacker.build_control_tar now tree)) = true.
Proof. exact (deb_packer_dirs_first tree). Qed.

Lemma deb_packer_directories_first_witness :
  let tree :=
    [File (s "f") (stat_at 0) (b "x");
     Dir (s "d") (stat_at 0)
       [File (s "g") (stat_at 0) (b "y"); Dir (s "e") (stat_at 0) []]] in
  map (fun ti => (ti_name ti, ti_type ti)) (DebPacker.build_data_tar tree)
  = [(s "d", DIRTYPE); (s "d/e", DIRTYPE); (s "f", REGTYPE); (s "d/g", REGTYPE)]
  /\ dirs_before_descendants tree (DebPacker.build_data_tar tree) = true.
Proof.
  split; [vm_compute; reflexivity|].
  apply (deb_packer_directories_first
           [File (s "f") (stat_at 0) (b "x");
            Dir (s "d") (stat_at 0)
              [File (s "g") (stat_at 0) (b "y"); Dir (s "e") (stat_at 0) []]]).
  reflexivity.
Defined.

(** ** The extractor of the debranding script *)

(** The reader of [extract_deb] and that of [validate_deb] differ in the
    error of a short header alone. *)
Lemma debrand_read_member f r :
  ValidateDeb.read_member f = Ok r -> DebrandExtract.read_member f = Ok r.
Proof.
  unfold ValidateDeb.read_member, DebrandExtract.read_member.
  destruct (fread 60 f) as [[hdr f']|]; [|discriminate]. cbn [bind].
  destruct hdr as [|h hdr]; [auto|].
  destruct (length (h :: hdr) <? 60); [discriminate|]. auto.
Qed.

Lemma debrand_read_loop fuel : forall f acc ms,
  read_loop ValidateDeb.read_member fuel f acc = Some (Ok ms) ->
  read_loop DebrandExtract.read_member fuel f acc = Some (Ok ms).
Proof.
  induction fuel as [|fuel IH]; intros f acc ms; [discriminate|].
  cbn [read_loop].
  destruct (ValidateDeb.read_member f) as [r|e] eqn:E; [|discriminate].
  rewrite (debrand_read_member _ _ E).
  destruct r as [[m f']|]; [apply IH | auto].
Qed.

Lemma extract_deb_members (L : Lzma) (T : Tarfile) file ms :
  ValidateDeb.read_members file = Some (Ok ms) ->
  DebrandExtract.extract_deb L T file
  = Some (DebrandExtract.extract_members L T ms).
Proof.
  unfold ValidateDeb.read_members, DebrandExtract.extract_deb.
  destruct (fread 8 file) as [[magic f]|]; [|discriminate].
  destruct (negb (bytes_eqb magic AR_MAGIC)); [discriminate|].
  intros H. now rewrite (debrand_read_loop _ _ _ _ H).
Qed.

Lemma extract_members_canonical (L : Lzma) (T : Tarfile)
  (stamp control payload : bytes) :
  DebrandExtract.extract_members L T
    [(s "debian-binary", stamp); (s "control.tar.gz", control);
     (s "data.tar.lzma", payload)]
  = if DebrandExtract.falsy (Some control) || DebrandExtract.falsy (Some payload)
    then Raise RuntimeError
    else
      control_dir <- untar_gz T control ;;
      data_tar <- Debrand.decompress_data L payload ;;
      data_dir <- untar T data_tar ;;
      Ok (control_dir, data_dir).
Proof. reflexivity. Qed.

Lemma extract_written (L : Lzma) (T : Tarfile) (control tar out : bytes) :
  DebPacker.write_deb control (DebPacker.compress_lzma_alone L tar) = Ok out ->
  (control = [] \/ compress_alone L tar = [] ->
   DebrandExtract.extract_deb L T out = Some (Raise RuntimeError)) /\
  (control <> [] -> compress_alone L tar <> [] ->
   decompressor_alone L (compress_alone L tar) = Ok tar ->
   DebrandExtract.extract_deb L T out
   = Some (control_dir <- untar_gz T control ;;
           data_dir <- untar T tar ;;
           Ok (control_dir, data_dir))).
Proof.
  rewrite write_deb_is_Write. intros H.
  apply validate_reads_written in H.
  rewrite (extract_deb_members L T _ _ H). clear H.
  unfold DebPacker.compress_lzma_alone.
  change (map (norm_member strip)
            [(s "debian-binary", STAMP); (s "control.tar.gz", control);
             (s "data.tar.lzma", compress_alone L tar)])
    with [(s "debian-binary", STAMP); (s "control.tar.gz", control);
          (s "data.tar.lzma", compress_alone L tar)].
  rewrite extract_members_canonical. split.
  - intros [-> | ->]; [reflexivity|].
    cbn [DebrandExtract.falsy]. now rewrite orb_true_r.
  - intros Hc Hd Hrt.
    destruct control as [|c0 control]; [congruence|].
    destruct (compress_alone L tar) as [|d0 d] eqn:E; [congruence|].
    cbn [DebrandExtract.falsy orb]. unfold Debrand.decompress_data.
    now rewrite Hrt.
Qed.

(** From a package that [deb_packer.write_deb] wrote with a control
    archive and the compressed data archive, [extract_deb] of the
    debranding script hands [tarfile] the control archive as it was and,
    once that is staged, the data archive as it was before compression,
    when the legacy decompressor undoes the encoder: it returns what
    [tarfile] stages from the two and raises what [tarfile] raises, the
    control archive first.  An empty control archive or an empty payload
    counts as missing and raises [RuntimeError] before anything is
    staged. *)
Theorem debrand_extracts_written (L : Lzma) (T : Tarfile)
  (control tar out : bytes) :
  DebPacker.write_deb control (DebPacker.compress_lzma_alone L tar) = Ok out ->
  (control = [] \/ compress_alone L tar = [] ->
   DebrandExtract.extract_deb L T out = Some (Raise RuntimeError)) /\
  (control <> [] -> compress_alone L tar <> [] ->
   decompressor_alone L (compress_alone L tar) = Ok tar ->
   DebrandExtract.extract_deb L T out
   = Some (control_dir <- untar_gz T control ;;
           data_dir <- untar T tar ;;
           Ok (control_dir, data_dir))).
Proof. exact (extract_written L T control tar out). Qed.

Lemma debrand_extracts_written_witness :
  (exists out,
     DebPacker.write_deb GZIP_MAGIC
       (DebPacker.compress_lzma_alone StoredLzma (b "t")) = Ok out /\
     DebrandExtract.extract_deb StoredLzma StubTarfile out = Some (Ok ([], []))) /\
  (exists out,
     DebPacker.write_deb (b "c")
       (DebPacker.compress_lzma_alone StoredLzma (b "t")) = Ok out /\
     DebrandExtract.extract_deb StoredLzma StubTarfile out
     = Some (Raise ReadError)).
Proof.
  split; eexists; (split; [vm_compute; reflexivity|]).
  - match goal with
    | |- DebrandExtract.extract_deb _ _ ?o = _ =>
        rewrite (proj2 (debrand_extracts_written StoredLzma StubTarfile
                          GZIP_MAGIC (b "t") o eq_refl));
          [ reflexivity
          | discriminate
          | vm_compute; discriminate
          | apply stored_lzma_round_trip ]
    end.
  - match goal with
    | |- DebrandExtract.extract_deb _ _ ?o = _ =>
        rewrite (proj2 (debrand_extracts_written StoredLzma StubTarfile
                          (b "c") (b "t") o eq_refl));
          [ reflexivity
          | discriminate
          | vm_compute; discriminate
          | apply stored_lzma_round_trip ]
    end.
Defined.

(** ** The net mask of a prefix length *)

Lemma netmask_cases_nat (n : nat) :
  n <= 32 ->
  UsbTethering._prefix_to_netmask (Z.of_nat n)
  = Ok (dotted_quad (2 ^ 32 - 2 ^ (32 - Z.of_nat n))).
Proof.
  intros Hn.
  do 33 (destruct n as [|n]; [vm_compute; reflexivity|]).
  lia.
Qed.

Lemma netmask_cases (prefix : Z) :
  ((0 <= prefix <= 32)%Z ->
   UsbTethering._prefix_to_netmask prefix
   = Ok (dotted_quad (2 ^ 32 - 2 ^ (32 - prefix)))) /\
  ((32 < prefix)%Z ->
   UsbTethering._prefix_to_netmask prefix = Raise ValueError) /\
  ((prefix < 0)%Z ->
   UsbTethering._prefix_to_netmask prefix = Ok (s "0.0.0.0")).
Proof.
  repeat split.
  - intros Hp. rewrite <- (Z2Nat.id prefix) by lia.
    apply netmask_cases_nat. lia.
  - intros Hp. unfold UsbTethering._prefix_to_netmask, UsbTethering.py_shiftr.
    destruct (Z.ltb_spec (32 - prefix) 0); [reflexivity | lia].
  - intros Hp. unfold UsbTethering._prefix_to_netmask,
      UsbTethering.py_shiftr, UsbTethering.py_shiftl.
    destruct (Z.ltb_spec (32 - prefix) 0); [lia|]. cbn [bind].
    assert (Hz : Z.shiftr 0xffffffff (32 - prefix) = 0%Z).
    { rewrite Z.shiftr_div_pow2 by lia. apply Z.div_small. split; [lia|].
      apply Z.lt_le_trans with (2 ^ 32)%Z; [reflexivity|].
      apply Z.pow_le_mono_r; lia. }
    rewrite Hz, Z.shiftl_0_l. reflexivity.
Qed.

(** For a prefix length from 0 to 32, [_prefix_to_netmask] returns the
    dotted quad of the 32-bit number [2^32 - 2^(32 - prefix)], the number
    whose first [prefix] bits are set and whose other bits are clear: its
    four octets in decimal, the most significant first, with dots between
    them.  A prefix above 32 raises [ValueError] (a negative shift count),
    and a negative one gives [0.0.0.0]. *)
Theorem prefix_to_netmask_value (prefix : Z) :
  ((0 <= prefix <= 32)%Z ->
   UsbTethering._prefix_to_netmask prefix
   = Ok (dotted_quad (2 ^ 32 - 2 ^ (32 - prefix)))) /\
  ((32 < prefix)%Z ->
   UsbTethering._prefix_to_netmask prefix = Raise ValueError) /\
  ((prefix < 0)%Z ->
   UsbTethering._prefix_to_netmask prefix = Ok (s "0.0.0.0")).
Proof. exact (netmask_cases prefix). Qed.

Lemma prefix_to_netmask_value_witness :
  dotted_quad (2 ^ 32 - 2 ^ (32 - 28)) = s "255.255.255.240" /\
  UsbTethering._prefix_to_netmask 28 = Ok (s "255.255.255.240") /\
  UsbTethering._prefix_to_netmask 33 = Raise ValueError /\
  UsbTethering._prefix_to_netmask (-1) = Ok (s "0.0.0.0").
Proof.
  destruct (prefix_to_netmask_value 28) as [H1 _].
  destruct (prefix_to_netmask_value 33) as (_ & H2 & _).
  destruct (prefix_to_netmask_value (-1)) as (_ & _ & H3).
  split; [vm_compute; reflexivity|].
  split; [rewrite H1 by lia; vm_compute; reflexivity|].
  split; [apply H2; lia | apply H3; lia].
Defined.

(** ** When [write_deb] succeeds *)

(** [write_deb] writes the package exactly when the sizes of the control
    archive and of the payload fit the ten characters of the size field;
    on every other input it raises. *)
Theorem write_deb_ok_iff (control_tgz data_lzma : bytes) :
  (exists out, DebPacker.write_deb control_tgz data_lzma = Ok out)
  <-> fits_size_field control_tgz /\ fits_size_field data_lzma.
Proof.
  rewrite write_deb_is_Write. unfold Write. rewrite add_members_ok_iff. split.
  - intros H. inversion H as [|? ? _ H1]; subst.
    inversion H1 as [|? ? Hc H2]; subst.
    inversion H2 as [|? ? Hd _]; subst.
    split; [apply Hc | apply Hd].
  - intros [Hc Hd].
    assert (Hs : fits_size_field STAMP) by (vm_compute; lia).
    assert (Hm : forall name content,
              length name <= 16 -> forallb is_ascii_char name = true ->
              fits_size_field content -> member_ok (name, content))
      by (intros name content H1 H2 H3; repeat split; assumption).
    constructor; [|constructor; [|constructor; [|constructor]]];
      apply Hm;
      first [assumption | reflexivity | (vm_compute; lia)].
Qed.

(** ** Built packages pass the validator *)

Lemma startswith_shorter {A} eqd (x p q : list A) :
  startswith eqd x (p ++ q) = true -> startswith eqd x p = true.
Proof.
  intros H. apply startswith_app_inv in H as [t ->].
  rewrite <- app_assoc. apply startswith_app_intro.
Qed.

Lemma built_validates (L : Lzma) getnames (control tar out : bytes) :
  lzma_framing L ->
  (exists names, getnames control = Ok names /\ In (s "control") names) ->
  (DebPacker.write_deb control (DebPacker.compress_lzma_alone L tar) = Ok out ->
   ValidateDeb.main getnames out = Some (Ok ValidateDeb.PASS)) /\
  (forall debbin, debbin = [] \/ debbin = STAMP ->
   fits_size_field control -> fits_size_field (compress_alone L tar) ->
   IpChanger._assemble_deb L debbin control tar true = Ok out ->
   ValidateDeb.main getnames out = Some (Ok ValidateDeb.PASS)).
Proof.
  intros [Hframe _] Hnames.
  assert (Hsig : bytes_startswith (compress_alone L tar) [x5d; x00; x00] = true).
  { apply (startswith_shorter _ _ [x5d; x00; x00] [x80; x00]), Hframe. }
  split.
  - rewrite write_deb_is_Write. intros H.
    now apply (proj2 (validate_written getnames _ _ _ _ H)).
  - intros debbin Hd Fc Fp.
    rewrite (assemble_deb_is_Write L debbin control tar true);
      [| destruct Hd as [-> | ->]; vm_compute; lia | exact Fc | exact Fp].
    replace (match debbin with [] => STAMP | _ => debbin end) with STAMP
      by (destruct Hd as [-> | ->]; reflexivity).
    intros H. now apply (proj2 (validate_written getnames _ _ _ _ H)).
Qed.

(** With a legacy encoder that frames its output as liblzma does, a
    package that [deb_packer.write_deb] wrote from a control archive that
    lists a file [control] and from the compressed data archive passes
    [validate_deb.main]; so does the package that [_assemble_deb] writes
    with the legacy compression from the stamp ["2.0\n"], or from no
    stamp, when the sizes fit the size field. *)
Theorem built_packages_validate (L : Lzma) getnames (control tar out : bytes) :
  lzma_framing L ->
  (exists names, getnames control = Ok names /\ In (s "control") names) ->
  (DebPacker.write_deb control (DebPacker.compress_lzma_alone L tar) = Ok out ->
   ValidateDeb.main getnames out = Some (Ok ValidateDeb.PASS)) /\
  (forall debbin, debbin = [] \/ debbin = STAMP ->
   fits_size_field control -> fits_size_field (compress_alone L tar) ->
   IpChanger._assemble_deb L debbin control tar true = Ok out ->
   ValidateDeb.main getnames out = Some (Ok ValidateDeb.PASS)).
Proof. exact (built_validates L getnames control tar out). Qed.

Lemma built_packages_validate_witness :
  exists out,
    DebPacker.write_deb (b "c") (DebPacker.compress_lzma_alone StoredLzma (b "t"))
    = Ok out /\
    IpChanger._assemble_deb StoredLzma [] (b "c") (b "t") true = Ok out /\
    ValidateDeb.main (fun _ => Ok [s "control"]) out
    = Some (Ok ValidateDeb.PASS).
Proof.
  eexists. split; [vm_compute; reflexivity|].
  split; [vm_compute; reflexivity|].
  match goal with
  | |- ValidateDeb.main _ ?o = _ =>
      apply (proj1 (built_packages_validate StoredLzma
                      (fun _ => Ok [s "control"]) (b "c") (b "t") o
                      stored_lzma_framing
                      (ex_intro _ [s "control"]
                         (conj eq_refl (or_introl eq_refl)))))
  end.
  reflexivity.
Defined.

(** ** The extractor of [change_maintainer] *)

Lemma cm_extract_written (L : Lzma) (T : Tarfile) (control tar out : bytes) :
  DebPacker.write_deb control (DebPacker.compress_lzma_alone L tar) = Ok out ->
  decompress_alone L (compress_alone L tar) = Ok tar ->
  ChangeMaintainerExtract.extract_deb L T out
  = Some (control_dir <- untar_gz T control ;;
          data_dir <- untar_any T tar ;;
          Ok (control_dir, data_dir)).
Proof.
  rewrite write_deb_is_Write. intros H Hrt.
  unfold ChangeMaintainerExtract.extract_deb.
  rewrite !(extract_member_written _ _ _ H).
  cbn [find_member].
  change (str_eqb (strip (s "debian-binary")) (s "control.tar.gz")) with false.
  change (str_eqb (strip (s "control.tar.gz")) (s "control.tar.gz")) with true.
  change (str_eqb (strip (s "debian-binary")) (s "data.tar.lzma")) with false.
  change (str_eqb (strip (s "control.tar.gz")) (s "data.tar.lzma")) with false.
  change (str_eqb (strip (s "data.tar.lzma")) (s "data.tar.lzma")) with true.
  cbv iota. unfold ChangeMaintainer.decompress_data, DebPacker.compress_lzma_alone.
  rewrite Hrt. cbn [bind].
  destruct (untar_gz T control); reflexivity.
Qed.

(** From a package that [write_deb] wrote with a control archive and the
    compressed data archive, [change_maintainer.extract_deb] hands
    [tarfile] the control archive as it was; when [tarfile] raises on it,
    as it does on an empty one, that error is raised before the payload is
    read; otherwise the data archive as it was before compression is
    staged, when the legacy decoder undoes the encoder, and the result is
    what [tarfile] staged from the two. *)
Theorem change_maintainer_extracts_written (L : Lzma) (T : Tarfile)
  (control tar out : bytes) :
  DebPacker.write_deb control (DebPacker.compress_lzma_alone L tar) = Ok out ->
  decompress_alone L (compress_alone L tar) = Ok tar ->
  ChangeMaintainerExtract.extract_deb L T out
  = Some (control_dir <- untar_gz T control ;;
          data_dir <- untar_any T tar ;;
          Ok (control_dir, data_dir)).
Proof. exact (cm_extract_written L T control tar out). Qed.

Lemma change_maintainer_extracts_written_witness :
  (exists out,
     DebPacker.write_deb GZIP_MAGIC
       (DebPacker.compress_lzma_alone StoredLzma (b "t")) = Ok out /\
     ChangeMaintainerExtract.extract_deb StoredLzma StubTarfile out
     = Some (Ok ([], []))) /\
  (exists out,
     DebPacker.write_deb [] (DebPacker.compress_lzma_alone StoredLzma (b "t"))
     = Ok out /\
     ChangeMaintainerExtract.extract_deb StoredLzma StubTarfile out
     = Some (Raise ReadError) /\
     DebrandExtract.extract_deb StoredLzma StubTarfile out
     = Some (Raise RuntimeError)).
Proof.
  split; eexists; (split; [vm_compute; reflexivity|]).
  - match goal with
    | |- ChangeMaintainerExtract.extract_deb _ _ ?o = _ =>
        rewrite (change_maintainer_extracts_written StoredLzma StubTarfile
                   GZIP_MAGIC (b "t") o eq_refl
                   (stored_lzma_round_trip (b "t")))
    end.
    reflexivity.
  - split; [|vm_compute; reflexivity].
    match goal with
    | |- ChangeMaintainerExtract.extract_deb _ _ ?o = _ =>
        rewrite (change_maintainer_extracts_written StoredLzma StubTarfile
                   [] (b "t") o eq_refl (stored_lzma_round_trip (b "t")))
    end.
    reflexivity.
Defined.

(** ** Verification after the patch *)

Lemma contains_map {A B} eqa eqb (f : A -> B) (p x : list A) :
  contains eqa p x = true -> contains eqb (map f p) (map f x) = true.
Proof.
  intros H. apply contains_iff in H as (a & c & ->).
  apply contains_iff. exists (map f a), (map f c). now rewrite !map_app.
Qed.

Lemma verified_no_pattern (p : bytes) (file : bytes) :
  bytes_contains (b "bkatm") (bytes_lower p) = true ->
  verify_no_branding file = true ->
  bytes_contains p file = false.
Proof.
  unfold verify_no_branding, bytes_contains, bytes_lower. intros Hp Hv.
  apply negb_true_iff in Hv.
  destruct (contains Byte.byte_eq_dec p file) eqn:E; [|reflexivity].
  apply (contains_map _ Byte.byte_eq_dec lower_byte) in E.
  apply contains_iff in Hp as (a & c & Hp).
  apply contains_iff in E as (a' & c' & E).
  assert (Hc : contains Byte.byte_eq_dec (b "bkatm") (map lower_byte file) = true).
  { apply contains_iff. exists (a' ++ a), (c ++ c').
    rewrite E, Hp, <- !app_assoc. reflexivity. }
  congruence.
Qed.

Lemma verified_unbranded file :
  verify_no_branding file = true ->
  Forall (fun p => bytes_contains (fst p) file = false) Debrand.BRAND_PATTERNS /\
  Debrand.patch_branding file = (Ok 0, file).
Proof.
  intros Hv.
  assert (H1 : bytes_contains (b "www.bkatm.com") file = false)
    by (apply verified_no_pattern; [vm_compute; reflexivity | exact Hv]).
  split.
  - repeat constructor; cbn [fst]; apply verified_no_pattern;
      solve [vm_compute; reflexivity | exact Hv].
  - rewrite patch_branding_first.
    now rewrite (count_absent _ _ H1), (replace_absent _ _ _ H1).
Qed.

(** A file that passes [verify_no_branding] holds none of the literals of
    [BRAND_PATTERNS], so [patch_branding] finds nothing in it: it returns
    0 and leaves the file as it is. *)
Theorem verified_file_is_unbranded file :
  verify_no_branding file = true ->
  Forall (fun p => bytes_contains (fst p) file = false) Debrand.BRAND_PATTERNS /\
  Debrand.patch_branding file = (Ok 0, file).
Proof. exact (verified_unbranded file). Qed.

Lemma verified_file_is_unbranded_witness :
  verify_no_branding (b "Login (WWW.BKATM.COM)") = false /\
  Debrand.patch_branding (b "Login (WWW.BKATM.COM)")
  = (Ok 0, b "Login (WWW.BKATM.COM)") /\
  Debrand.patch_branding (b "localhost") = (Ok 0, b "localhost").
Proof.
  split; [vm_compute; reflexivity|]. split; [vm_compute; reflexivity|].
  apply (proj2 (verified_file_is_unbranded (b "localhost") eq_refl)).
Defined.

(** ** The framing of the payload *)

Lemma stored_decompressor_framing : decompressor_framing StoredLzma.
Proof. exact (proj2 stored_lzma_framing). Qed.

Lemma xz_payload_check getnames (control data : bytes) :
  bytes_startswith data XZ_MAGIC = true ->
  ValidateDeb.check getnames
    [(s "debian-binary", STAMP); (s "control.tar.gz", control);
     (s "data.tar.lzma", data)]
  = ValidateDeb.FAIL_xz_container.
Proof.
  intros Hxz.
  destruct data as [|c0 data]; [discriminate Hxz|].
  unfold bytes_startswith, XZ_MAGIC in Hxz. cbn [startswith] in Hxz.
  repeat match type of Hxz with
         | (if byte_eq_dec ?a ?c then _ else _) = true =>
             destruct (byte_eq_dec a c) as [<-|]; [|discriminate Hxz];
             try (destruct data as [|? data]; [discriminate Hxz|];
                  cbn [startswith] in Hxz)
         end.
  reflexivity.
Qed.

Lemma alone_payload_check getnames (control data : bytes) :
  bytes_startswith data ALONE_HEADER = true ->
  ValidateDeb.check getnames
    [(s "debian-binary", STAMP); (s "control.tar.gz", control);
     (s "data.tar.lzma", data)]
  <> ValidateDeb.FAIL_xz_container.
Proof.
  intros Ha. rewrite check_canonical.
  rewrite (proj2 (bytes_eqb_eq STAMP STAMP) eq_refl). cbn [negb].
  unfold bytes_startswith in *.
  rewrite (startswith_firstn_more _ data [x5d; x00; x00] 6) by (simpl; lia).
  rewrite (startswith_shorter _ _ [x5d; x00; x00] [x80; x00] Ha).
  cbn [negb andb].
  destruct (getnames control) as [names|]; [|discriminate].
  destruct (existsb _ names); discriminate.
Qed.

Lemma canonical_members norm (stamp control data : bytes) :
  norm (s "debian-binary") = s "debian-binary" ->
  norm (s "control.tar.gz") = s "control.tar.gz" ->
  norm (s "data.tar.lzma") = s "data.tar.lzma" ->
  map (norm_member norm)
    [(s "debian-binary", stamp); (s "control.tar.gz", control);
     (s "data.tar.lzma", data)]
  = [(s "debian-binary", stamp); (s "control.tar.gz", control);
     (s "data.tar.lzma", data)].
Proof.
  intros H1 H2 H3. unfold norm_member. cbn [map fst snd].
  now rewrite H1, H2, H3.
Qed.

Lemma xz_payload_decoded (L : Lzma) (T : Tarfile) getnames
  (control data out : bytes) :
  lzma_framing L -> decompressor_framing L ->
  Write [(s "debian-binary", STAMP); (s "control.tar.gz", control);
         (s "data.tar.lzma", data)] = Ok out ->
  ((exists tar, data = DebPacker.compress_lzma_alone L tar) ->
   ValidateDeb.main getnames out
   <> Some (Ok ValidateDeb.FAIL_xz_container)) /\
  (bytes_startswith data XZ_MAGIC = true ->
   ValidateDeb.main getnames out = Some (Ok ValidateDeb.FAIL_xz_container) /\
   (forall control_dir, untar_gz T control = Ok control_dir ->
    ChangeMaintainerExtract.extract_deb L T out = Some (Raise LZMAError)) /\
   (control <> [] ->
    IpChanger._parse_deb L out
    = Some (raw_tar <- decompress_auto L data ;;
            Ok {| IpChanger.debian_binary := STAMP;
                  IpChanger.control_tar_gz := control;
                  IpChanger.data_member_name := s "data.tar.lzma";
                  IpChanger.data_payload_bytes := data;
                  IpChanger.data_tar_raw := raw_tar |})) /\
   (control <> [] ->
    DebrandExtract.extract_deb L T out
    = Some (control_dir <- untar_gz T control ;;
            data_tar <- decompress_auto L data ;;
            data_dir <- untar T data_tar ;;
            Ok (control_dir, data_dir)))).
Proof.
  intros [Hc Hd] Hdec H.
  assert (Hv : ValidateDeb.main getnames out
               = Some (Ok (ValidateDeb.check getnames
                             [(s "debian-binary", STAMP);
                              (s "control.tar.gz", control);
                              (s "data.tar.lzma", data)]))).
  { unfold ValidateDeb.main. rewrite (validate_reads_written _ _ H).
    now rewrite canonical_members. }
  split.
  - intros [tar ->] Hm. rewrite Hv in Hm. injection Hm as Hm.
    revert Hm. apply alone_payload_check. apply Hc.
  - intros Hxz.
    assert (Hne : data <> []) by (intros ->; discriminate Hxz).
    split; [|split; [|split]].
    + rewrite Hv. now rewrite xz_payload_check.
    + intros control_dir Hu. unfold ChangeMaintainerExtract.extract_deb.
      rewrite !(extract_member_written _ _ _ H). cbn [find_member].
      change (str_eqb (strip (s "debian-binary")) (s "control.tar.gz"))
        with false.
      change (str_eqb (strip (s "control.tar.gz")) (s "control.tar.gz"))
        with true.
      change (str_eqb (strip (s "debian-binary")) (s "data.tar.lzma"))
        with false.
      change (str_eqb (strip (s "control.tar.gz")) (s "data.tar.lzma"))
        with false.
      change (str_eqb (strip (s "data.tar.lzma")) (s "data.tar.lzma"))
        with true.
      cbv iota. rewrite Hu. unfold ChangeMaintainer.decompress_data.
      now rewrite (Hd data Hxz).
    + intros Hcn.
      rewrite (parse_canonical L STAMP control (s "data.tar.lzma") data)
        with (file := out); [|discriminate | exact Hcn | exact Hne | now left |].
      * unfold IpChanger.decompress_data.
        change (str_endswith (s "data.tar.lzma") (s ".lzma")) with true.
        cbv iota. now rewrite (Hd data Hxz).
      * rewrite (ipchanger_reads_written _ _ H).
        now rewrite canonical_members.
    + intros Hcn.
      rewrite (extract_deb_members L T _ _ (validate_reads_written _ _ H)).
      rewrite canonical_members by reflexivity.
      rewrite extract_members_canonical.
      destruct control as [|c0 control]; [congruence|].
      destruct data as [|d0 data]; [congruence|].
      cbn [DebrandExtract.falsy orb]. unfold Debrand.decompress_data.
      now rewrite (Hdec _ Hxz).
Qed.

(** C5 (amended): liblzma is no part of the repository; taken from it as
    assumptions are that its legacy encoder starts its output with the
    properties byte [0x5d] and the little-endian dictionary size, and that
    its legacy decoder, called as [lzma.decompress] or through a
    decompressor object, raises [LZMAError] on input that starts with the
    xz magic.  Then, among the packages [write_deb] writes: one whose
    payload [compress_lzma_alone] produced is never reported as an xz
    container by [validate_deb.main]; and for one whose payload starts with
    the xz magic, [validate_deb.main] reports the xz container,
    [change_maintainer.extract_deb] raises [LZMAError] once the control
    archive is staged, while [_parse_deb] and
    [ios_debrand_end_to_end.extract_deb] catch that error and go on with
    whatever [lzma.decompress] with automatic detection returns, so they
    succeed on a valid xz stream. *)
Theorem framing_signature (L : Lzma) (T : Tarfile) getnames
  (control data out : bytes) :
  lzma_framing L -> decompressor_framing L ->
  Write [(s "debian-binary", STAMP); (s "control.tar.gz", control);
         (s "data.tar.lzma", data)] = Ok out ->
  ((exists tar, data = DebPacker.compress_lzma_alone L tar) ->
   ValidateDeb.main getnames out
   <> Some (Ok ValidateDeb.FAIL_xz_container)) /\
  (bytes_startswith data XZ_MAGIC = true ->
   ValidateDeb.main getnames out = Some (Ok ValidateDeb.FAIL_xz_container) /\
   (forall control_dir, untar_gz T control = Ok control_dir ->
    ChangeMaintainerExtract.extract_deb L T out = Some (Raise LZMAError)) /\
   (control <> [] ->
    IpChanger._parse_deb L out
    = Some (raw_tar <- decompress_auto L data ;;
            Ok {| IpChanger.debian_binary := STAMP;
                  IpChanger.control_tar_gz := control;
                  IpChanger.data_member_name := s "data.tar.lzma";
                  IpChanger.data_payload_bytes := data;
                  IpChanger.data_tar_raw := raw_tar |})) /\
   (control <> [] ->
    DebrandExtract.extract_deb L T out
    = Some (control_dir <- untar_gz T control ;;
            data_tar <- decompress_auto L data ;;
            data_dir <- untar T data_tar ;;
            Ok (control_dir, data_dir)))).
Proof. exact (xz_payload_decoded L T getnames control data out). Qed.

Lemma framing_signature_witness :
  exists out,
    Write [(s "debian-binary", STAMP); (s "control.tar.gz", GZIP_MAGIC);
           (s "data.tar.lzma", XZ_MAGIC ++ b "tar")] = Ok out /\
    ValidateDeb.main (fun _ => Ok [s "control"]) out
    = Some (Ok ValidateDeb.FAIL_xz_container) /\
    ChangeMaintainerExtract.extract_deb StoredLzma StubTarfile out
    = Some (Raise LZMAError) /\
    DebrandExtract.extract_deb StoredLzma StubTarfile out = Some (Ok ([], [])).
Proof.
  eexists. split; [vm_compute; reflexivity|].
  match goal with
  | |- ValidateDeb.main _ ?o = _ /\ _ =>
      destruct (framing_signature StoredLzma StubTarfile
                  (fun _ => Ok [s "control"]) GZIP_MAGIC (XZ_MAGIC ++ b "tar")
                  o stored_lzma_framing stored_decompressor_framing eq_refl)
        as [_ Hxz]
  end.
  destruct (Hxz eq_refl) as (H1 & H2 & _ & H4).
  split; [exact H1|]. split; [exact (H2 [] eq_refl)|].
  rewrite H4 by discriminate. reflexivity.
Defined.

(** C5 as stated fails for [_parse_deb]: on a data member data.tar.lzma
    whose bytes start with the xz magic the legacy decoder raises, the
    exception is caught, and the payload is decoded by automatic detection;
    the package is parsed and no error is raised. *)
Lemma framing_signature_counterexample :
  bytes_startswith (XZ_MAGIC ++ b "tar") XZ_MAGIC = true /\
  decompress_alone StoredLzma (XZ_MAGIC ++ b "tar") = Raise LZMAError /\
  IpChanger.decompress_data StoredLzma (s "data.tar.lzma") (XZ_MAGIC ++ b "tar")
  = Ok (b "tar") /\
  exists file,
    Write [(s "debian-binary", STAMP); (s "control.tar.gz", b "ctl");
           (s "data.tar.lzma", XZ_MAGIC ++ b "tar")] = Ok file /\
    IpChanger._parse_deb StoredLzma file
    = Some (Ok {| IpChanger.debian_binary := STAMP;
                  IpChanger.control_tar_gz := b "ctl";
                  IpChanger.data_member_name := s "data.tar.lzma";
                  IpChanger.data_payload_bytes := XZ_MAGIC ++ b "tar";
                  IpChanger.data_tar_raw := b "tar" |}).
Proof.
  repeat split; try (vm_compute; reflexivity).
  eexists. split; vm_compute; reflexivity.
Qed.

